(** * Remediation service: command intake, configuration store, router, restart

    A shallow embedding of the Python sources

      - [src/models/remediation_command.py]   (the command model and its validators)
      - [src/services/command_receiver.py]    (priority queue with conflict detection)
      - [src/services/cpf_manager.py]         (configuration file store)
      - [src/agents/config_agent.py]          (configuration change handler)
      - [src/agents/orchestrator.py]          (router)
      - [src/agents/restart_agent_sdk.py]     (restart stage machine)

    Python objects with mutable attributes become records threaded through
    a state-and-exception monad; [dict]s become [gmap]s or association
    lists, [list]s become lists.  Exceptions are values of [PyError]: a
    mutation made before an exception is raised stays in the state, as in
    Python.  What the code takes from its surroundings is an explicit part
    of the world a computation runs in: the files and the clock of the
    store, the answers of the advisory classifier, the behaviour of the
    managed instance, the draw of [uuid4].  Calls on the structured logger
    are kept as a trace where a statement observes them (the store and the
    restart agent) and left out elsewhere. *)

From Stdlib Require Import ZArith NArith Ascii String List Lia Bool.
From stdpp Require Import gmap strings list fin_maps sorting pretty.

Open Scope string_scope.
Open Scope Z_scope.
Open Scope list_scope.

(* ===================================================================== *)
(** ** Python exceptions and the state-and-exception monad               *)
(* ===================================================================== *)

(** One entry of a pydantic [ValidationError]: the field and the error type
    pydantic reports for it ("missing", "literal_error", "value_error", ...). *)
Record ErrorDetails := { loc : string; type : string }.

(** The exception classes the modelled code can meet. *)
Inductive PyError :=
| ValidationError (errors : list ErrorDetails)   (* pydantic *)
| KeyError (key : N)                             (* dict lookup / dict.pop *)
| ValueError (msg : string)
| TypeError (msg : string)
| OSError (msg : string)                         (* FileNotFoundError, PermissionError *)
| ConfigParserError (msg : string)               (* configparser.Error *)
| AttributeError (msg : string)                  (* attribute read on None *)
| Exception (msg : string).

(** A computation over a mutable world [W] that returns an [A] or raises. *)
Definition Py (W A : Type) : Type := W -> (PyError + A) * W.

Global Instance Py_ret {W} : MRet (Py W) := fun A a w => (inr a, w).

Global Instance Py_bind {W} : MBind (Py W) := fun A B k m w =>
  match m w with
  | (inl e, w') => (inl e, w')
  | (inr a, w') => k a w'
  end.

Definition raise {W A} (e : PyError) : Py W A := fun w => (inl e, w).

(** [try: body except Exception as e: handler e]. *)
Definition try_except {W A} (body : Py W A) (handler : PyError -> Py W A) : Py W A :=
  fun w =>
    match body w with
    | (inl e, w') => handler e w'
    | (inr a, w') => (inr a, w')
    end.

Definition gets {W A} (f : W -> A) : Py W A := fun w => (inr (f w), w).
Definition modify {W} (f : W -> W) : Py W unit := fun w => (inr tt, f w).

(* ===================================================================== *)
(** ** JSON values and the command model                                 *)
(* ===================================================================== *)

(** A parsed JSON document.  Numbers are kept as integers: no check in the
    modelled code looks inside a number. *)
#[local] Unset Elimination Schemes.
Inductive json :=
| JNull
| JBool (b : bool)
| JNum (n : Z)
| JStr (s : string)
| JArr (items : list json)
| JObj (fields : list (string * json)).
#[local] Set Elimination Schemes.

(** Lookup in a JSON object or a [Dict[str, Any]] built from one: when a
    key is repeated the last occurrence is the one the dict holds. *)
Fixpoint dict_get (k : string) (fields : list (string * json)) : option json :=
  match fields with
  | [] => None
  | (k', v) :: rest =>
      match dict_get k rest with
      | Some v' => Some v'
      | None => if String.eqb k k' then Some v else None
      end
  end.

Definition dict_has (k : string) (fields : list (string * json)) : bool :=
  match dict_get k fields with Some _ => true | None => false end.

(** A [uuid.UUID], by its 128-bit integer value ([UUID.int]).  [str] is
    injective on UUIDs, so a dict keyed by [str(command_id)] is a map keyed
    by the UUID. *)
Abbreviation UUID := N (only parsing).

Definition hex_digit (c : ascii) : option N :=
  let n := N_of_ascii c in
  if (48 <=? n)%N && (n <=? 57)%N then Some (n - 48)%N
  else if (97 <=? n)%N && (n <=? 102)%N then Some (n - 87)%N
  else if (65 <=? n)%N && (n <=? 70)%N then Some (n - 55)%N
  else None.

Fixpoint hex_value (acc : N) (s : string) : option N :=
  match s with
  | EmptyString => Some acc
  | String c s' =>
      match hex_digit c with
      | Some d => hex_value (16 * acc + d)%N s'
      | None => None
      end
  end.

(** The textual forms accepted for a UUID: 32 hexadecimal digits, or the
    hyphenated 8-4-4-4-12 form; letter case is irrelevant.  (The braced and
    [urn:uuid:] spellings denote the same values and are left out.) *)
Definition parse_uuid (s : string) : option UUID :=
  if Nat.eqb (String.length s) 32 then hex_value 0%N s
  else if Nat.eqb (String.length s) 36
          && String.eqb (substring 8 1 s) "-" && String.eqb (substring 13 1 s) "-"
          && String.eqb (substring 18 1 s) "-" && String.eqb (substring 23 1 s) "-"
  then hex_value 0%N (substring 0 8 s +:+ substring 9 4 s +:+ substring 14 4 s
                        +:+ substring 19 4 s +:+ substring 24 12 s)
  else None.

(** [class RemediationCommand(BaseModel)].  [action_type] and [priority]
    are Python strings; validation restricts them to their [Literal]
    values. *)
Record RemediationCommand := {
  command_id : UUID;
  action_type : string;
  target : string;
  parameters : list (string * json);
  priority : string;
  requester : option string
}.

Definition string_in (s : string) (l : list string) : bool :=
  existsb (String.eqb s) l.

Definition err (l t : string) : list ErrorDetails := [ {| loc := l; type := t |} ].

(** Field [command_id: UUID = Field(default_factory=uuid4)]; [fresh] is the
    value [uuid4()] draws when the field is absent. *)
Definition validate_command_id (fresh : UUID) (fields : list (string * json))
  : list ErrorDetails + UUID :=
  match dict_get "command_id" fields with
  | None => inr fresh
  | Some (JStr s) =>
      match parse_uuid s with
      | Some u => inr u
      | None => inl (err "command_id" "uuid_parsing")
      end
  | Some _ => inl (err "command_id" "uuid_type")
  end.

Definition validate_literal (name : string) (allowed : list string)
    (default : option string) (fields : list (string * json))
  : list ErrorDetails + string :=
  match dict_get name fields with
  | None =>
      match default with
      | Some d => inr d
      | None => inl (err name "missing")
      end
  | Some (JStr s) =>
      if string_in s allowed then inr s else inl (err name "literal_error")
  | Some _ => inl (err name "literal_error")
  end.

(** Field [target: str = Field(min_length=1, max_length=100)]; a string is
    taken as the sequence of its characters. *)
Definition validate_target (fields : list (string * json))
  : list ErrorDetails + string :=
  match dict_get "target" fields with
  | None => inl (err "target" "missing")
  | Some (JStr s) =>
      if Nat.ltb (String.length s) 1 then inl (err "target" "string_too_short")
      else if Nat.ltb 100 (String.length s) then inl (err "target" "string_too_long")
      else inr s
  | Some _ => inl (err "target" "string_type")
  end.

(** [validate_parameters_by_action(cls, v, info)]: [action_type] is
    [info.data.get('action_type')], absent when that field did not
    validate. *)
Definition validate_parameters_by_action (action_type : option string)
    (v : list (string * json)) : list ErrorDetails + list (string * json) :=
  match action_type with
  | None => inr v
  | Some a =>
      if String.eqb a "config_change" then
        if dict_has "section" v && dict_has "key" v && dict_has "value" v
        then inr v else inl (err "parameters" "value_error")
      else if String.eqb a "os_reconfig" then
        if dict_has "resource_type" v && dict_has "target_value" v
        then inr v else inl (err "parameters" "value_error")
      else if String.eqb a "restart" then
        match dict_get "mode" v with
        | Some (JStr m) =>
            if string_in m ["graceful"; "forced"] then inr v
            else inl (err "parameters" "value_error")
        | Some _ => inl (err "parameters" "value_error")
        | None => inr v
        end
      else inr v
  end.

(** Field [parameters: Dict[str, Any]] followed by its field validator. *)
Definition validate_parameters (action_type : option string)
    (fields : list (string * json)) : list ErrorDetails + list (string * json) :=
  match dict_get "parameters" fields with
  | None => inl (err "parameters" "missing")
  | Some (JObj v) => validate_parameters_by_action action_type v
  | Some _ => inl (err "parameters" "dict_type")
  end.

(** Field [requester: Optional[str] = None]. *)
Definition validate_requester (fields : list (string * json))
  : list ErrorDetails + option string :=
  match dict_get "requester" fields with
  | None | Some JNull => inr None
  | Some (JStr s) => inr (Some s)
  | Some _ => inl (err "requester" "string_type")
  end.

Definition errors_of {A} (r : list ErrorDetails + A) : list ErrorDetails :=
  match r with inl es => es | inr _ => [] end.

Definition value_of {A} (r : list ErrorDetails + A) : option A :=
  match r with inl _ => None | inr a => Some a end.

(** [RemediationCommand.model_validate_json(command_json)].  [None] stands
    for a text that is not JSON.  Fields are validated in declaration order
    and every field error is collected; keys that are not fields are
    ignored. *)
Definition model_validate_json (fresh : UUID) (command_json : option json)
  : PyError + RemediationCommand :=
  match command_json with
  | None => inl (ValidationError (err EmptyString "json_invalid"))
  | Some (JObj fields) =>
      let r_id := validate_command_id fresh fields in
      let r_action :=
        validate_literal "action_type" ["config_change"; "os_reconfig"; "restart"] None fields in
      let r_target := validate_target fields in
      let r_params := validate_parameters (value_of r_action) fields in
      let r_priority :=
        validate_literal "priority" ["low"; "medium"; "high"; "critical"] (Some "medium") fields in
      let r_requester := validate_requester fields in
      match r_id, r_action, r_target, r_params, r_priority, r_requester with
      | inr i, inr a, inr t, inr p, inr pr, inr rq =>
          inr {| command_id := i; action_type := a; target := t;
                 parameters := p; priority := pr; requester := rq |}
      | _, _, _, _, _, _ =>
          inl (ValidationError (errors_of r_id ++ errors_of r_action ++ errors_of r_target
                                  ++ errors_of r_params ++ errors_of r_priority
                                  ++ errors_of r_requester))
      end
  | Some _ => inl (ValidationError (err EmptyString "model_type"))
  end.

(* ===================================================================== *)
(** ** Command intake: [class CommandReceiverService]                    *)
(* ===================================================================== *)

Module CommandReceiver.

(** The two attributes set by [__init__]: the id-keyed command map and the
    priority-ordered list of ids. *)
Record CommandReceiverService := {
  command_queue : gmap UUID RemediationCommand;
  command_order : list UUID
}.

Definition init : CommandReceiverService :=
  {| command_queue := ∅; command_order := [] |}.

(** What [receive_command] returns: the [accepted] dict or the [rejected]
    dict, whose [error] is the exception (its [str] in the source). *)
Inductive Response :=
| accepted (id : UUID) (queue_position : nat) (conflicts : bool)
| rejected (error : PyError).

(** [priority_order = {"critical": 0, "high": 1, "medium": 2, "low": 3}]. *)
Definition priority_order (p : string) : option Z :=
  if String.eqb p "critical" then Some 0
  else if String.eqb p "high" then Some 1
  else if String.eqb p "medium" then Some 2
  else if String.eqb p "low" then Some 3
  else None.

(** [priority_order.get(p, 2)]. *)
Definition priority_rank (p : string) : Z := default 2 (priority_order p).

(** The [for i, existing_id in enumerate(self.command_order)] loop of
    [_insert_by_priority]: the index of the first entry whose rank is
    strictly above [command_priority], [None] when the loop ends without
    [break]; a missing map entry raises [KeyError]. *)
Fixpoint find_insertion_point (queue : gmap UUID RemediationCommand)
    (command_priority : Z) (i : nat) (order : list UUID) : PyError + option nat :=
  match order with
  | [] => inr None
  | existing_id :: rest =>
      match queue !! existing_id with
      | None => inl (KeyError existing_id)
      | Some existing =>
          if command_priority <? priority_rank (priority existing)
          then inr (Some i)
          else find_insertion_point queue command_priority (S i) rest
      end
  end.

(** Python's [list.insert(i, x)] for [0 <= i]: an index past the end appends. *)
Definition list_insert_at {A} (i : nat) (x : A) (l : list A) : list A :=
  take i l ++ x :: drop i l.

Definition _insert_by_priority (command : RemediationCommand)
  : Py CommandReceiverService unit :=
  fun self =>
    let command_priority := priority_rank (priority command) in
    match find_insertion_point (command_queue self) command_priority 0
            (command_order self) with
    | inl e => (inl e, self)
    | inr found =>
        let insert_at := default (length (command_order self)) found in
        (inr tt,
         {| command_queue := command_queue self;
            command_order :=
              list_insert_at insert_at (command_id command) (command_order self) |})
    end.

(** The loop of [_check_conflicts]: the first queued id whose command has
    the same target. *)
Fixpoint scan_conflicts (queue : gmap UUID RemediationCommand) (tgt : string)
    (order : list UUID) : PyError + option UUID :=
  match order with
  | [] => inr None
  | existing_id :: rest =>
      match queue !! existing_id with
      | None => inl (KeyError existing_id)
      | Some existing =>
          if String.eqb (target existing) tgt then inr (Some existing_id)
          else scan_conflicts queue tgt rest
      end
  end.

Definition _check_conflicts (command : RemediationCommand)
  : Py CommandReceiverService (option UUID) :=
  fun self =>
    (scan_conflicts (command_queue self) (target command) (command_order self), self).

(** [list.index(x)]: position of the first occurrence, [ValueError] when
    there is none. *)
Fixpoint list_index (x : UUID) (l : list UUID) : option nat :=
  match l with
  | [] => None
  | y :: rest => if N.eqb y x then Some O else S <$> list_index x rest
  end.

Definition index_of {W} (x : UUID) (l : list UUID) : Py W nat :=
  match list_index x l with
  | Some i => mret i
  | None => raise (ValueError "x is not in list")
  end.

Definition lift {W A} (r : PyError + A) : Py W A :=
  match r with inl e => raise e | inr a => mret a end.

Definition is_not_none {A} (o : option A) : bool :=
  match o with Some _ => true | None => false end.

(** [receive_command(self, command_json)].  The [try] block covers
    validation, the conflict scan and the two mutations; the handler turns
    any exception into the [rejected] response and undoes nothing. *)
Definition receive_command (fresh : UUID) (command_json : option json)
  : Py CommandReceiverService Response :=
  try_except
    (command ← lift (model_validate_json fresh command_json);
     conflict ← _check_conflicts command;
     modify (fun self =>
               {| command_queue := <[command_id command := command]> (command_queue self);
                  command_order := command_order self |});;
     _insert_by_priority command;;
     order ← gets command_order;
     position ← index_of (command_id command) order;
     mret (accepted (command_id command) (position + 1) (is_not_none conflict)))
    (fun e => mret (rejected e)).

(** [get_next_command(self)]: [list.pop(0)] then [dict.pop(key)], which
    raises [KeyError] after the list has already been shortened. *)
Definition get_next_command : Py CommandReceiverService (option RemediationCommand) :=
  fun self =>
    match command_order self with
    | [] => (inr None, self)
    | command_id :: rest =>
        match command_queue self !! command_id with
        | None =>
            (inl (KeyError command_id),
             {| command_queue := command_queue self; command_order := rest |})
        | Some command =>
            (inr (Some command),
             {| command_queue := delete command_id (command_queue self);
                command_order := rest |})
        end
    end.

Definition get_queue_size (self : CommandReceiverService) : nat :=
  length (command_order self).

(** A producer submitting payloads one after the other. *)
Fixpoint receive_all (inputs : list (UUID * option json)) (self : CommandReceiverService)
  : list Response * CommandReceiverService :=
  match inputs with
  | [] => ([], self)
  | (fresh, payload) :: rest =>
      let '(r, self1) := receive_command fresh payload self in
      let '(rs, self2) := receive_all rest self1 in
      (match r with inl e => rejected e | inr resp => resp end :: rs, self2)
  end.

(** A consumer calling [get_next_command] until it signals an empty queue,
    recording what each call returned or raised. *)
Fixpoint dequeue_n (n : nat) (self : CommandReceiverService)
  : list (PyError + RemediationCommand) :=
  match n with
  | O => []
  | S n' =>
      match get_next_command self with
      | (inr None, _) => []
      | (inr (Some c), self1) => inr c :: dequeue_n n' self1
      | (inl e, self1) => inl e :: dequeue_n n' self1
      end
  end.

Definition dequeue_all (self : CommandReceiverService) : list (PyError + RemediationCommand) :=
  dequeue_n (length (command_order self)) self.

(** Payloads used in the examples. *)
Definition payload (id prio tgt : string) : option json :=
  Some (JObj [("command_id", JStr id); ("action_type", JStr "config_change");
              ("target", JStr tgt);
              ("parameters", JObj [("section", JStr "Startup"); ("key", JStr "k");
                                   ("value", JStr "v")]);
              ("priority", JStr prio)]).

Definition id1 : string := "550e8400-e29b-41d4-a716-446655440001".
Definition id2 : string := "550e8400-e29b-41d4-a716-446655440002".
Definition id3 : string := "550e8400-e29b-41d4-a716-446655440003".

End CommandReceiver.

(* ===================================================================== *)
(** ** Configuration store: [class CPFManager]                           *)
(* ===================================================================== *)

Module ConfigStore.

(** The operations of Python's [configparser] the store calls.  They are
    library code: the store is modelled over any implementation of them. *)
Class ConfigParserLib := {
  Content : Type;                        (* what a file holds *)
  ConfigParser : Type;                   (* the state of a [ConfigParser] object *)
  new_parser : ConfigParser;             (* [configparser.ConfigParser()] *)
  parse : Content -> ConfigParser -> PyError + ConfigParser;
                                         (* [config.read(path)] on an existing file *)
  has_option : ConfigParser -> string -> string -> bool;
  get : ConfigParser -> string -> string -> PyError + string;
  has_section : ConfigParser -> string -> bool;
  add_section : ConfigParser -> string -> PyError + ConfigParser;
  set : ConfigParser -> string -> string -> string -> PyError + ConfigParser;
  sections : ConfigParser -> list string;
  write : ConfigParser -> Content;       (* the text [config.write(f)] sends to the file *)
  write_error : ConfigParser -> option PyError
                                         (* the exception it raises on the way, if any *)
}.

(** The calls made on the module's structured logger. *)
Inductive LogEvent :=
| cpf_read_success (section key value : string)
| cpf_setting_not_found (section key : string)
| cpf_read_failed (section key : string) (error : PyError)
| cpf_backup_created (path : string)
| cpf_write_success (section key : string) (old_value : option string)
    (new_value : string) (backup_path : option string)
| cpf_write_failed (section key value : string) (error : PyError)
| cpf_restore_success (backup_path : string)
| cpf_restore_failed (backup_path : string) (error : PyError)
| cpf_validation_success (sections_count : nat) (sections : list string)
| cpf_validation_failed (error : PyError)
| restart_required_section (section key : string)
| restart_required_key (section key : string)
| restart_not_required (section key : string)
| config_change_start (section key target_value : string)
| config_change_success (section key : string) (old_value : option string)
    (new_value : string) (requires_restart : bool).

(** [self.cpf_path] and [self.backup_dir] of a manager. *)
Record CPFManager := { cpf_path : string; backup_dir : string }.

Definition ascii_lower (c : ascii) : ascii :=
  let n := N_of_ascii c in
  if (65 <=? n)%N && (n <=? 90)%N then ascii_of_N (n + 32) else c.

(** [str.lower()], on strings of ASCII characters. *)
Fixpoint lower (s : string) : string :=
  match s with
  | EmptyString => EmptyString
  | String c s' => String (ascii_lower c) (lower s')
  end.

Definition restart_sections : list string := ["Startup"; "config"].

Definition restart_keys : list string :=
  ["globals"; "routines"; "gmheap"; "locksiz"; "genericheap"; "wijdir"; "database"].

Section Store.
Context `{ConfigParserLib}.

(** The part of the machine a manager touches: the live file (absent when
    [None]), the files of the backup directory by path, whether each of
    the two places can be written, the timestamp the clock formats to, and
    the log. *)
Record World := {
  cpf_file : option Content;
  cpf_writable : bool;
  backups : gmap string Content;
  backups_writable : bool;
  now : string;
  log : list LogEvent
}.

Definition set_cpf_file (c : option Content) (w : World) : World :=
  {| cpf_file := c; cpf_writable := cpf_writable w; backups := backups w;
     backups_writable := backups_writable w; now := now w; log := log w |}.

Definition set_backups (b : gmap string Content) (w : World) : World :=
  {| cpf_file := cpf_file w; cpf_writable := cpf_writable w; backups := b;
     backups_writable := backups_writable w; now := now w; log := log w |}.

Definition set_log (l : list LogEvent) (w : World) : World :=
  {| cpf_file := cpf_file w; cpf_writable := cpf_writable w; backups := backups w;
     backups_writable := backups_writable w; now := now w; log := l |}.

Definition log_event (ev : LogEvent) : Py World unit :=
  modify (fun w => set_log (log w ++ [ev]) w).

Definition lift {A} (r : PyError + A) : Py World A :=
  match r with inl e => raise e | inr a => mret a end.

(** [config = configparser.ConfigParser(); config.read(self.cpf_path)]: a
    file that does not exist is skipped, a malformed one raises. *)
Definition read_config : Py World ConfigParser :=
  fun w =>
    match cpf_file w with
    | None => (inr new_parser, w)
    | Some text => (parse text new_parser, w)
    end.

(** [shutil.copy2(self.cpf_path, backup_path)]. *)
Definition copy_to_backup (backup_path : string) : Py World unit :=
  fun w =>
    match cpf_file w with
    | None => (inl (OSError "No such file or directory"), w)
    | Some text =>
        if backups_writable w
        then (inr tt, set_backups (<[backup_path := text]> (backups w)) w)
        else (inl (OSError "Permission denied"), w)
    end.

(** [shutil.copy2(backup_path, self.cpf_path)]. *)
Definition copy_from_backup (backup_path : string) : Py World unit :=
  fun w =>
    match backups w !! backup_path with
    | None => (inl (OSError "No such file or directory"), w)
    | Some text =>
        if cpf_writable w
        then (inr tt, set_cpf_file (Some text) w)
        else (inl (OSError "Permission denied"), w)
    end.

(** [with open(self.cpf_path, 'w') as f: config.write(f)]: opening
    truncates the file, so what was written stays in it when [write]
    raises on the way. *)
Definition write_file (config : ConfigParser) : Py World unit :=
  fun w =>
    if cpf_writable w then
      match write_error config with
      | Some e => (inl e, set_cpf_file (Some (write config)) w)
      | None => (inr tt, set_cpf_file (Some (write config)) w)
      end
    else (inl (OSError "Permission denied"), w).

Definition read_setting (section key : string) : Py World (option string) :=
  try_except
    (config ← read_config;
     if has_option config section key then
       value ← lift (get config section key);
       log_event (cpf_read_success section key value);;
       mret (Some value)
     else
       log_event (cpf_setting_not_found section key);;
       mret None)
    (fun e =>
       log_event (cpf_read_failed section key e);;
       mret None).

Definition create_backup (self : CPFManager) : Py World string :=
  timestamp ← gets now;
  let backup_path := backup_dir self +:+ "/iris.cpf.backup." +:+ timestamp in
  copy_to_backup backup_path;;
  mret backup_path.

Definition restore_backup (backup_path : string) : Py World bool :=
  try_except
    (copy_from_backup backup_path;;
     log_event (cpf_restore_success backup_path);;
     mret true)
    (fun e =>
       log_event (cpf_restore_failed backup_path e);;
       mret false).

(** Truth value of an [Optional[str]]: [None] and the empty string are false. *)
Definition truthy (o : option string) : bool :=
  match o with
  | Some s => negb (String.eqb s EmptyString)
  | None => false
  end.

(** The [except Exception as e] block of [write_setting]; [backup_path] is
    the value the local variable holds when the exception is raised. *)
Definition write_failed (section key value : string) (backup_path : option string)
    (e : PyError) : Py World (bool * option string) :=
  log_event (cpf_write_failed section key value e);;
  match backup_path with
  | Some p => if truthy backup_path then restore_backup p;; mret tt else mret tt
  | None => mret tt
  end;;
  mret (false, backup_path).

(** The first statement of the [try] block: [backup_path] stays [None]
    when no backup is asked for. *)
Definition take_backup (self : CPFManager) (create_backup_flag : bool)
  : Py World (option string) :=
  if create_backup_flag then
    backup_path ← create_backup self;
    log_event (cpf_backup_created backup_path);;
    mret (Some backup_path)
  else mret None.

(** The rest of the [try] block: read, modify, persist. *)
Definition write_steps (section key value : string) (backup_path : option string)
  : Py World (bool * option string) :=
  config ← read_config;
  old_value ← (if has_option config section key
               then v ← lift (get config section key); mret (Some v)
               else mret None);
  config ← (if has_section config section then mret config
            else lift (add_section config section));
  config ← lift (set config section key value);
  write_file config;;
  log_event (cpf_write_success section key old_value value backup_path);;
  mret (true, backup_path).

Definition write_setting (self : CPFManager) (section key value : string)
    (create_backup_flag : bool) : Py World (bool * option string) :=
  fun w =>
    match take_backup self create_backup_flag w with
    | (inl e, w1) => write_failed section key value None e w1
    | (inr backup_path, w1) =>
        try_except (write_steps section key value backup_path)
                   (write_failed section key value backup_path) w1
    end.

Definition validate_cpf : Py World bool :=
  try_except
    (config ← read_config;
     let found := sections config in
     log_event (cpf_validation_success (length found) (take 10 found));;
     mret true)
    (fun e =>
       log_event (cpf_validation_failed e);;
       mret false).

Definition requires_restart (section key : string) : Py World bool :=
  if string_in section restart_sections then
    log_event (restart_required_section section key);;
    mret true
  else if string_in (lower key) restart_keys then
    log_event (restart_required_key section key);;
    mret true
  else
    log_event (restart_not_required section key);;
    mret false.

(* --------------------------------------------------------------------- *)
(** *** The configuration change handler: [ConfigAgent._execute_impl]    *)
(* --------------------------------------------------------------------- *)

(** [class ConfigAgentResponse(BaseModel)]; [requires_restart_flag] is its
    field [requires_restart], a name the manager's method has here. *)
Record ConfigAgentResponse := {
  success : bool;
  section : string;
  key : string;
  old_value : option string;
  new_value : string;
  requires_restart_flag : bool;
  backup_path : option string;
  error_message : option string
}.

(** [command.parameters.get(name)] for a parameter the store and the
    response model need as a string.  With any other value configparser
    and the response model raise; the model raises at this point and does
    not follow the file operations of such a run. *)
Definition string_parameter (command : RemediationCommand) (name : string)
  : Py World string :=
  match dict_get name (parameters command) with
  | Some (JStr s) => mret s
  | _ => raise (TypeError name)
  end.

(** [ConfigAgent._execute_impl(self, input_str)], with the response in
    place of its JSON dump.  The command is parsed outside the [try]
    block.  Inside it nothing raises, since [read_setting],
    [write_setting], [validate_cpf] and [restore_backup] catch every
    exception themselves, so the [except] block of the source is never
    entered and has no counterpart here. *)
Definition _execute_impl (self : CPFManager) (fresh : UUID) (input_str : option json)
  : Py World ConfigAgentResponse :=
  command ← lift (model_validate_json fresh input_str);
  section ← string_parameter command "section";
  key ← string_parameter command "key";
  value ← string_parameter command "value";
  log_event (config_change_start section key value);;
  old_value ← read_setting section key;
  '(ok, backup_path) ← write_setting self section key value true;
  if negb ok then
    mret {| success := false; section := section; key := key;
            old_value := old_value; new_value := value;
            requires_restart_flag := false; backup_path := backup_path;
            error_message := Some "Failed to write configuration setting" |}
  else
    valid ← validate_cpf;
    if negb valid then
      match backup_path with
      | Some p => if truthy backup_path then restore_backup p;; mret tt else mret tt
      | None => mret tt
      end;;
      mret {| success := false; section := section; key := key;
              old_value := old_value; new_value := value;
              requires_restart_flag := false; backup_path := backup_path;
              error_message := Some "CPF validation failed, changes rolled back" |}
    else
      restart ← requires_restart section key;
      log_event (config_change_success section key old_value value restart);;
      mret {| success := true; section := section; key := key;
              old_value := old_value; new_value := value;
              requires_restart_flag := restart; backup_path := backup_path;
              error_message := None |}.

End Store.

End ConfigStore.

(* ===================================================================== *)
(** ** Router: [class OrchestratorAgent]                                 *)
(* ===================================================================== *)

Module Orchestrator.

(** [class OrchestratorResponse(BaseModel)]. *)
Record OrchestratorResponse := {
  agent_type : string;
  command_str : string;
  rationale : string;
  requires_validation : bool;
  estimated_risk : string
}.

(** [agent_map] and [risk_map], the two dict literals of
    [_route_with_rules]. *)
Definition agent_map (action : string) : option string :=
  if String.eqb action "config_change" then Some "config"
  else if String.eqb action "os_reconfig" then Some "os"
  else if String.eqb action "restart" then Some "restart"
  else None.

Definition risk_map (action : string) : option string :=
  if String.eqb action "config_change" then Some "medium"
  else if String.eqb action "os_reconfig" then Some "high"
  else if String.eqb action "restart" then Some "high"
  else None.

(** The advisory classifier as the router sees it: what the successive
    calls of [self.llm_client.parse] return or raise.  A call made when
    nothing is left raises, like a client without a backend. *)
Record World := { llm_replies : list (PyError + OrchestratorResponse) }.

Section Router.
(** [command.model_dump_json()], pydantic's serializer. *)
Variable model_dump_json : RemediationCommand -> string.

Definition _route_with_rules (command : RemediationCommand) : OrchestratorResponse :=
  let agent_type := default "none" (agent_map (action_type command)) in
  let command_str := model_dump_json command in
  let risk := default "medium" (risk_map (action_type command)) in
  let rationale :=
    "Rule-based routing: " +:+ action_type command +:+ " maps to " +:+ agent_type
      +:+ " agent" in
  {| agent_type := agent_type;
     command_str := command_str;
     rationale := rationale;
     requires_validation := if negb (String.eqb risk "low") then true else false;
     estimated_risk := risk |}.

Definition _route_with_llm (command : RemediationCommand) : Py World OrchestratorResponse :=
  fun w =>
    match llm_replies w with
    | [] => (inl (Exception "LLM request failed"), w)
    | reply :: rest => (reply, {| llm_replies := rest |})
    end.

(** [_execute_impl(self, input_str)]: the classifier first, the rule table
    when it raises. *)
Definition _execute_impl (fresh : UUID) (input_str : option json)
  : Py World OrchestratorResponse :=
  fun w =>
    match model_validate_json fresh input_str with
    | inl e => (inl e, w)
    | inr command =>
        try_except (_route_with_llm command)
                   (fun e => mret (_route_with_rules command)) w
    end.

End Router.

End Orchestrator.

(* ===================================================================== *)
(** ** Restart stage machine: [class RestartAgentSDK]                    *)
(* ===================================================================== *)

Module RestartAgent.

(** What [subprocess.run(cmd, ..., timeout=t)] does: it returns a
    completed process or raises [TimeoutExpired]. *)
Inductive RunOutcome :=
| completed (returncode : Z)
| timeout_expired.

(** The managed instance as the agent meets it: the outcome and the
    duration (in milliseconds) of the stop command, given the mode and the
    timeout, those of the start command, and whether the body of the
    [try] block of [_validate_operational] raises. *)
Record Instance := {
  stop_outcome : bool -> Z -> RunOutcome;
  stop_millis : bool -> Z -> Z;
  start_outcome : RunOutcome;
  start_millis : Z;
  status_check_raises : bool
}.

(** The calls made on the module's structured logger by the stages. *)
Inductive LogEvent :=
| connection_draining (timeout : Z)
| instance_shutdown (graceful : bool) (returncode : Z)
| shutdown_timeout (timeout : Z)
| instance_startup (returncode : Z)
| startup_timeout
| validating_operational_status
| validation_failed.

(** Wall clock in milliseconds and the log. *)
Record World := { clock : Z; log : list LogEvent }.

(** The dict both restart functions return. *)
Record RestartResult := {
  success : bool;
  mode : string;
  connections_drained : Z;
  shutdown_duration_seconds : Z;
  startup_duration_seconds : Z;
  operational_status : string;
  error_message : option string
}.

Definition log_event (ev : LogEvent) : Py World unit :=
  modify (fun w => {| clock := clock w; log := log w ++ [ev] |}).

Definition advance (millis : Z) : Py World unit :=
  modify (fun w => {| clock := clock w + millis; log := log w |}).

(** [time.time()]. *)
Definition time_time : Py World Z := gets clock.

(** [int(t1 - t0)] for two clock readings: whole seconds, truncated. *)
Definition elapsed_seconds (t0 t1 : Z) : Z := Z.quot (t1 - t0) 1000.

(** [time.sleep(seconds)] raises [ValueError] on a negative length. *)
Definition time_sleep (seconds : Z) : Py World unit :=
  if seconds <? 0 then raise (ValueError "sleep length must be non-negative")
  else advance (seconds * 1000).

Section Agent.
Variable instance : Instance.

Definition _drain_connections (timeout_seconds : Z) : Py World Z :=
  log_event (connection_draining timeout_seconds);;
  time_sleep (Z.min timeout_seconds 2);;
  mret 5.

Definition _shutdown_instance (graceful : bool) (timeout : Z) : Py World bool :=
  advance (stop_millis instance graceful timeout);;
  match stop_outcome instance graceful timeout with
  | completed returncode =>
      log_event (instance_shutdown graceful returncode);;
      mret (returncode =? 0)
  | timeout_expired =>
      log_event (shutdown_timeout timeout);;
      mret false
  end.

Definition _startup_instance : Py World bool :=
  advance (start_millis instance);;
  match start_outcome instance with
  | completed returncode =>
      log_event (instance_startup returncode);;
      time_sleep 2;;
      mret (returncode =? 0)
  | timeout_expired =>
      log_event startup_timeout;;
      mret false
  end.

Definition _validate_operational : Py World string :=
  if status_check_raises instance then
    log_event validation_failed;;
    mret "error"
  else
    log_event validating_operational_status;;
    mret "operational".

Definition _graceful_restart (timeout_seconds : Z) : Py World RestartResult :=
  start_time ← time_time;
  connections_drained ← _drain_connections (timeout_seconds / 2);
  shutdown_start ← time_time;
  shutdown_success ← _shutdown_instance true (timeout_seconds / 2);
  shutdown_end ← time_time;
  let shutdown_duration := elapsed_seconds shutdown_start shutdown_end in
  if negb shutdown_success then
    mret {| success := false; mode := "graceful";
            connections_drained := connections_drained;
            shutdown_duration_seconds := shutdown_duration;
            startup_duration_seconds := 0;
            operational_status := "shutdown_failed";
            error_message := Some "Graceful shutdown failed" |}
  else
    startup_start ← time_time;
    startup_success ← _startup_instance;
    startup_end ← time_time;
    let startup_duration := elapsed_seconds startup_start startup_end in
    if negb startup_success then
      mret {| success := false; mode := "graceful";
              connections_drained := connections_drained;
              shutdown_duration_seconds := shutdown_duration;
              startup_duration_seconds := startup_duration;
              operational_status := "startup_failed";
              error_message := Some "Instance startup failed" |}
    else
      operational_status ← _validate_operational;
      mret {| success := String.eqb operational_status "operational";
              mode := "graceful";
              connections_drained := connections_drained;
              shutdown_duration_seconds := shutdown_duration;
              startup_duration_seconds := startup_duration;
              operational_status := operational_status;
              error_message :=
                if String.eqb operational_status "operational" then None
                else Some "Post-startup validation failed" |}.

Definition _forced_restart : Py World RestartResult :=
  shutdown_start ← time_time;
  shutdown_success ← _shutdown_instance false 10;
  shutdown_end ← time_time;
  let shutdown_duration := elapsed_seconds shutdown_start shutdown_end in
  if negb shutdown_success then
    mret {| success := false; mode := "forced";
            connections_drained := 0;
            shutdown_duration_seconds := shutdown_duration;
            startup_duration_seconds := 0;
            operational_status := "shutdown_failed";
            error_message := Some "Forced shutdown failed" |}
  else
    startup_start ← time_time;
    startup_success ← _startup_instance;
    startup_end ← time_time;
    let startup_duration := elapsed_seconds startup_start startup_end in
    if negb startup_success then
      mret {| success := false; mode := "forced";
              connections_drained := 0;
              shutdown_duration_seconds := shutdown_duration;
              startup_duration_seconds := startup_duration;
              operational_status := "startup_failed";
              error_message := Some "Instance startup failed" |}
    else
      operational_status ← _validate_operational;
      mret {| success := String.eqb operational_status "operational";
              mode := "forced";
              connections_drained := 0;
              shutdown_duration_seconds := shutdown_duration;
              startup_duration_seconds := startup_duration;
              operational_status := operational_status;
              error_message :=
                if String.eqb operational_status "operational" then None
                else Some "Post-startup validation failed" |}.

End Agent.

End RestartAgent.

(* ===================================================================== *)
(** ** A line-oriented INI reader and writer                             *)
(* ===================================================================== *)

(** A small implementation of [ConfigParserLib], used to run the store on
    concrete files: sections in square brackets, [key = value] lines,
    option names folded to lower case, blank lines skipped.  It writes what
    [configparser] writes for such files and, like it, refuses a line that
    is neither a header nor an option. *)
Module Ini.

Definition Config : Type := list (string * list (string * string)).

Definition newline : ascii := ascii_of_N 10.

Fixpoint lines_of (s : string) : list string :=
  match s with
  | EmptyString => [EmptyString]
  | String c s' =>
      if Ascii.eqb c newline then EmptyString :: lines_of s'
      else match lines_of s' with
           | l :: ls => String c l :: ls
           | [] => [String c EmptyString]
           end
  end.

Definition is_header (line : string) : option string :=
  let n := String.length line in
  match String.get 0 line, String.get (n - 1) line with
  | Some a, Some b =>
      if Ascii.eqb a "["%char && Ascii.eqb b "]"%char && Nat.leb 2 n
      then Some (substring 1 (n - 2) line) else None
  | _, _ => None
  end.

Definition is_option (line : string) : option (string * string) :=
  match String.index 0 " = " line with
  | Some i => Some (substring 0 i line,
                    substring (i + 3) (String.length line - (i + 3)) line)
  | None => None
  end.

Fixpoint assoc_get {A} (k : string) (l : list (string * A)) : option A :=
  match l with
  | [] => None
  | (k', v) :: rest => if String.eqb k k' then Some v else assoc_get k rest
  end.

Fixpoint assoc_set {A} (k : string) (v : A) (l : list (string * A)) : list (string * A) :=
  match l with
  | [] => [(k, v)]
  | (k', v') :: rest =>
      if String.eqb k k' then (k, v) :: rest else (k', v') :: assoc_set k v rest
  end.

Definition has_section (c : Config) (section : string) : bool :=
  match assoc_get section c with Some _ => true | None => false end.

Definition has_option (c : Config) (section key : string) : bool :=
  match assoc_get section c with
  | Some options =>
      match assoc_get (ConfigStore.lower key) options with Some _ => true | None => false end
  | None => false
  end.

Definition get (c : Config) (section key : string) : PyError + string :=
  match assoc_get section c with
  | Some options =>
      match assoc_get (ConfigStore.lower key) options with
      | Some v => inr v
      | None => inl (ConfigParserError "NoOptionError")
      end
  | None => inl (ConfigParserError "NoSectionError")
  end.

Definition add_section (c : Config) (section : string) : PyError + Config :=
  if String.eqb section "DEFAULT" then inl (ValueError "Invalid section name")
  else if has_section c section then inl (ConfigParserError "DuplicateSectionError")
  else inr (c ++ [(section, [])]).

Definition set (c : Config) (section key value : string) : PyError + Config :=
  match assoc_get section c with
  | Some options =>
      inr (assoc_set section (assoc_set (ConfigStore.lower key) value options) c)
  | None => inl (ConfigParserError "NoSectionError")
  end.

(** One line of input, with the section the reader is in. *)
Definition parse_line (state : Config * option string) (line : string)
  : PyError + (Config * option string) :=
  let '(c, current) := state in
  if String.eqb line EmptyString then inr state
  else match is_header line with
       | Some name =>
           match add_section c name with
           | inl e => inl e
           | inr c' => inr (c', Some name)
           end
       | None =>
           match is_option line, current with
           | Some (k, v), Some section =>
               match set c section k v with
               | inl e => inl e
               | inr c' => inr (c', current)
               end
           | Some _, None => inl (ConfigParserError "MissingSectionHeaderError")
           | None, _ => inl (ConfigParserError "ParsingError")
           end
       end.

Fixpoint parse_lines (state : Config * option string) (lines : list string)
  : PyError + Config :=
  match lines with
  | [] => inr (fst state)
  | line :: rest =>
      match parse_line state line with
      | inl e => inl e
      | inr state' => parse_lines state' rest
      end
  end.

Definition parse (text : string) (c : Config) : PyError + Config :=
  parse_lines (c, None) (lines_of text).

Definition end_of_line : string := String newline EmptyString.

Definition write_options (options : list (string * string)) : string :=
  String.concat EmptyString
    (List.map (fun '(k, v) => k +:+ " = " +:+ v +:+ end_of_line) options).

Definition write (c : Config) : string :=
  String.concat EmptyString
    (List.map (fun '(name, options) =>
                 "[" +:+ name +:+ "]" +:+ end_of_line
                 +:+ write_options options +:+ end_of_line) c).

Global Instance lib : ConfigStore.ConfigParserLib := {|
  ConfigStore.Content := string;
  ConfigStore.ConfigParser := Config;
  ConfigStore.new_parser := [];
  ConfigStore.parse := parse;
  ConfigStore.has_option := has_option;
  ConfigStore.get := get;
  ConfigStore.has_section := has_section;
  ConfigStore.add_section := add_section;
  ConfigStore.set := set;
  ConfigStore.sections := fun c => List.map fst c;
  ConfigStore.write := write;
  ConfigStore.write_error := fun _ => None
|}.

(** The file of the unit tests' fixture. *)
Definition sample_text : string :=
  write [("Startup", [("globals", "10000"); ("routines", "5000")]);
         ("config", [("bbsiz", "32768")])].

Definition sample_world : ConfigStore.World :=
  {| ConfigStore.cpf_file := Some sample_text;
     ConfigStore.cpf_writable := true;
     ConfigStore.backups := ∅;
     ConfigStore.backups_writable := true;
     ConfigStore.now := "20260206_101500";
     ConfigStore.log := [] |}.

Definition manager : ConfigStore.CPFManager :=
  {| ConfigStore.cpf_path := "/usr/irissys/iris.cpf";
     ConfigStore.backup_dir := "/usr/irissys/backups" |}.

(** A section name with a line break in it: [configparser] writes it as
    it is and cannot read the file back. *)
Definition broken_section : string := "Locks" +:+ String newline "Extra".

Definition config_change (section key value : string) : option json :=
  Some (JObj [("action_type", JStr "config_change"); ("target", JStr "iris.cpf");
              ("parameters", JObj [("section", JStr section); ("key", JStr key);
                                   ("value", JStr value)]);
              ("priority", JStr "high")]).

End Ini.


(* ===================================================================== *)
(** ** Queue statistics: [CommandReceiverService.get_queue_status]       *)
(* ===================================================================== *)

Module QueueStatus.
Import CommandReceiver.

(** The [KeyError]s [get_queue_status] can raise, told apart by the dict
    that misses the key. *)
Inductive StatusKeyError :=
| no_command (command_id : UUID)   (* [self.command_queue[str(command_id)]] *)
| no_counter (key : string).       (* [priority_counts[...]], [action_counts[...]] *)

(** The dict [get_queue_status] returns. *)
Record Status := {
  total_commands : nat;
  by_priority : gmap string nat;
  by_action : gmap string nat
}.

(** [counts[key] += 1] on a dict of counters. *)
Definition increment (key : string) (counts : gmap string nat)
  : StatusKeyError + gmap string nat :=
  match counts !! key with
  | Some n => inr (<[key := S n]> counts)
  | None => inl (no_counter key)
  end.

(** The [for command_id in self.command_order] loop. *)
Fixpoint count_commands (queue : gmap UUID RemediationCommand) (order : list UUID)
    (priority_counts action_counts : gmap string nat)
  : StatusKeyError + (gmap string nat * gmap string nat) :=
  match order with
  | [] => inr (priority_counts, action_counts)
  | command_id :: rest =>
      match queue !! command_id with
      | None => inl (no_command command_id)
      | Some command =>
          match increment (priority command) priority_counts with
          | inl e => inl e
          | inr priority_counts' =>
              match increment (action_type command) action_counts with
              | inl e => inl e
              | inr action_counts' =>
                  count_commands queue rest priority_counts' action_counts'
              end
          end
      end
  end.

Definition get_queue_status (self : CommandReceiverService) : StatusKeyError + Status :=
  let priority_counts : gmap string nat :=
    <["low" := O]> (<["medium" := O]> (<["high" := O]> (<["critical" := O]> ∅))) in
  let action_counts : gmap string nat :=
    <["restart" := O]> (<["os_reconfig" := O]> (<["config_change" := O]> ∅)) in
  match count_commands (command_queue self) (command_order self)
          priority_counts action_counts with
  | inl e => inl e
  | inr (priority_counts', action_counts') =>
      inr {| total_commands := length (command_order self);
             by_priority := priority_counts';
             by_action := action_counts' |}
  end.

End QueueStatus.

(* ===================================================================== *)
(** ** Serialization of a command: [model_dump_json]                     *)
(* ===================================================================== *)

Module CommandDump.

(** One lowercase hexadecimal digit. *)
Definition hex_char (d : N) : ascii :=
  if (d <? 10)%N then ascii_of_N (48 + d) else ascii_of_N (87 + d).

(** ['%0nx' % u]: the last [n] hexadecimal digits of [u]. *)
Fixpoint hex_string (n : nat) (u : N) : string :=
  match n with
  | O => EmptyString
  | S n' => hex_string n' (u / 16)%N +:+ String (hex_char (u mod 16)%N) EmptyString
  end.

(** [str(u)] for a [uuid.UUID]: the 32 digits of ['%032x' % u.int] in
    groups of 8, 4, 4, 4 and 12. *)
Definition uuid_str (u : UUID) : string :=
  let hex := hex_string 32 u in
  substring 0 8 hex +:+ "-" +:+ substring 8 4 hex +:+ "-" +:+ substring 12 4 hex
    +:+ "-" +:+ substring 16 4 hex +:+ "-" +:+ substring 20 12 hex.

(** The JSON document [command.model_dump_json()] denotes: every field
    under its name, the id as a string, an absent requester as [null]. *)
Definition model_dump (command : RemediationCommand) : json :=
  JObj [("command_id", JStr (uuid_str (command_id command)));
        ("action_type", JStr (action_type command));
        ("target", JStr (target command));
        ("parameters", JObj (parameters command));
        ("priority", JStr (priority command));
        ("requester",
         match requester command with Some who => JStr who | None => JNull end)].

End CommandDump.

(* ===================================================================== *)
(** ** Restart agent: [RestartAgentSDK._execute_restart] and [execute]   *)
(* ===================================================================== *)

(** [class RestartAgentResponse(BaseModel)] and its constructor. *)
Module RestartResponse.

Record RestartAgentResponse := {
  success : bool;
  restart_mode : string;
  connections_drained : Z;
  shutdown_duration_seconds : Z;
  startup_duration_seconds : Z;
  instance_status : string;
  validation_passed : bool;
  error_message : option string
}.

(** Validation of one keyword argument against its field.  A value of
    another Python type than the field's is reported as a type error; the
    conversions pydantic attempts on such values are left out, the agent
    passes none. *)
Definition validate_bool (name : string) (kwargs : list (string * json))
  : list ErrorDetails + bool :=
  match dict_get name kwargs with
  | None => inl (err name "missing")
  | Some (JBool b) => inr b
  | Some _ => inl (err name "bool_type")
  end.

Definition validate_number (name type_error : string) (kwargs : list (string * json))
  : list ErrorDetails + Z :=
  match dict_get name kwargs with
  | None => inl (err name "missing")
  | Some (JNum n) => inr n
  | Some _ => inl (err name type_error)
  end.

Definition validate_optional_str (name : string) (kwargs : list (string * json))
  : list ErrorDetails + option string :=
  match dict_get name kwargs with
  | None | Some JNull => inr None
  | Some (JStr s) => inr (Some s)
  | Some _ => inl (err name "string_type")
  end.

(** The constructor of [RestartAgentResponse] on keyword arguments: fields
    in declaration order, every error collected, keywords that are not
    fields ignored. *)
Definition init (kwargs : list (string * json)) : PyError + RestartAgentResponse :=
  let r_success := validate_bool "success" kwargs in
  let r_mode := validate_literal "restart_mode" ["graceful"; "forced"] None kwargs in
  let r_drained := validate_number "connections_drained" "int_type" kwargs in
  let r_shutdown := validate_number "shutdown_duration_seconds" "float_type" kwargs in
  let r_startup := validate_number "startup_duration_seconds" "float_type" kwargs in
  let r_status :=
    validate_literal "instance_status" ["running"; "stopped"; "failed"] None kwargs in
  let r_passed := validate_bool "validation_passed" kwargs in
  let r_error := validate_optional_str "error_message" kwargs in
  match r_success, r_mode, r_drained, r_shutdown, r_startup, r_status, r_passed, r_error with
  | inr s, inr m, inr d, inr sd, inr su, inr st, inr p, inr e =>
      inr {| success := s; restart_mode := m; connections_drained := d;
             shutdown_duration_seconds := sd; startup_duration_seconds := su;
             instance_status := st; validation_passed := p; error_message := e |}
  | _, _, _, _, _, _, _, _ =>
      inl (ValidationError
             (errors_of r_success ++ errors_of r_mode ++ errors_of r_drained
                ++ errors_of r_shutdown ++ errors_of r_startup ++ errors_of r_status
                ++ errors_of r_passed ++ errors_of r_error))
  end.

End RestartResponse.

Module RestartWrapper.
Import RestartAgent.

(** The dict of a restart function as keyword arguments. *)
Definition as_kwargs (result : RestartResult) : list (string * json) :=
  [("success", JBool (success result));
   ("mode", JStr (mode result));
   ("connections_drained", JNum (connections_drained result));
   ("shutdown_duration_seconds", JNum (shutdown_duration_seconds result));
   ("startup_duration_seconds", JNum (startup_duration_seconds result));
   ("operational_status", JStr (operational_status result));
   ("error_message",
    match error_message result with Some s => JStr s | None => JNull end)].

(** The keyword arguments of the two literal constructor calls. *)
Definition failure_kwargs (mode : json) (operational_status error_message : string)
  : list (string * json) :=
  [("success", JBool false);
   ("mode", mode);
   ("connections_drained", JNum 0);
   ("shutdown_duration_seconds", JNum 0);
   ("startup_duration_seconds", JNum 0);
   ("operational_status", JStr operational_status);
   ("error_message", JStr error_message)].

(** [value == text] for a parameter value and a string literal. *)
Definition equals_str (value : json) (text : string) : bool :=
  match value with JStr s => String.eqb s text | _ => false end.

Section Wrapper.
Variable instance : Instance.
(** [str(e)] for an exception and the text of a value inside an f-string. *)
Variable str : PyError -> string.
Variable format : json -> string.

(** [self._graceful_restart(timeout_seconds)] for the value found in the
    parameters: the first thing done with it is [timeout_seconds // 2],
    which needs a number ([True] and [False] count as 1 and 0) and raises
    [TypeError] otherwise. *)
Definition graceful_restart_with (timeout_seconds : json) : Py World RestartResult :=
  match timeout_seconds with
  | JNum n => _graceful_restart instance n
  | JBool b => _graceful_restart instance (Z.b2z b)
  | _ => raise (TypeError "unsupported operand type(s) for //")
  end.

(** [_execute_restart(self, command)].  Its own three logger calls are
    left out; the log keeps the events of the stages. *)
Definition _execute_restart (command : RemediationCommand)
  : Py World RestartResponse.RestartAgentResponse :=
  let mode := default (JStr "graceful") (dict_get "mode" (parameters command)) in
  let timeout_seconds :=
    default (JNum 60) (dict_get "timeout_seconds" (parameters command)) in
  try_except
    (if equals_str mode "graceful" then
       result ← graceful_restart_with timeout_seconds;
       CommandReceiver.lift (RestartResponse.init (as_kwargs result))
     else if equals_str mode "forced" then
       result ← _forced_restart instance;
       CommandReceiver.lift (RestartResponse.init (as_kwargs result))
     else
       CommandReceiver.lift
         (RestartResponse.init
            (failure_kwargs mode "unknown" ("Unknown restart mode: " +:+ format mode))))
    (fun e =>
       CommandReceiver.lift
         (RestartResponse.init (failure_kwargs mode "error" (str e)))).

(** [execute(self, input_str)], up to the final [model_dump_json()]. *)
Definition execute (fresh : UUID) (input_str : option json)
  : Py World RestartResponse.RestartAgentResponse :=
  command ← CommandReceiver.lift (model_validate_json fresh input_str);
  _execute_restart command.

(** [restart_instance(self, mode, timeout_seconds)]: the command is built,
    dumped and handed to [execute].  Building it validates the fields like
    [model_validate_json] does on the corresponding object, [fresh] being
    the id drawn for it.  The last step, reading the response back from
    its dump, gives that response. *)
Definition restart_instance (fresh : UUID) (mode : string) (timeout_seconds : Z)
  : Py World RestartResponse.RestartAgentResponse :=
  command ← CommandReceiver.lift
              (model_validate_json fresh
                 (Some (JObj [("action_type", JStr "restart");
                              ("target", JStr "instance");
                              ("parameters",
                               JObj [("mode", JStr mode);
                                     ("timeout_seconds", JNum timeout_seconds)])])));
  execute fresh (Some (CommandDump.model_dump command)).

End Wrapper.

End RestartWrapper.

(* ===================================================================== *)
(** ** Outgoing messages: [class MessageSenderService]                   *)
(* ===================================================================== *)

Module MessageSender.

(** [class ErrorMessage(BaseModel)]. *)
Record ErrorMessage := {
  timestamp : string;
  process_id : Z;
  severity : Z;
  category : string;
  message_text : string
}.

Definition to_log_format (self : ErrorMessage) : string :=
  timestamp self +:+ " (" +:+ pretty (process_id self) +:+ ") "
    +:+ pretty (severity self) +:+ " " +:+ category self +:+ " " +:+ message_text self.

(** The JSON body [send_message] posts. *)
Record Payload := {
  payload_timestamp : string;
  payload_process_id : Z;
  payload_severity : Z;
  payload_category : string;
  payload_message : string;
  payload_log_format : string
}.

Definition payload_of (error : ErrorMessage) : Payload :=
  {| payload_timestamp := timestamp error;
     payload_process_id := process_id error;
     payload_severity := severity error;
     payload_category := category error;
     payload_message := message_text error;
     payload_log_format := to_log_format error |}.

(** What [requests.post] does: it returns a response or raises a
    [RequestException]. *)
Inductive PostOutcome :=
| response (status_code : Z)
| request_exception (error : string).

(** The attributes of the service and the requests sent so far. *)
Record World := {
  endpoint : string;
  timeout : Z;
  message_queue : list ErrorMessage;
  posted : list Payload
}.

(** The dict [send_message] returns; the last two carry [queued: True]. *)
Inductive SendResult :=
| send_success (endpoint : string) (response_code : Z)
| send_failed (endpoint : string) (response_code : Z)
| send_error (error : string).

Definition is_success (result : SendResult) : bool :=
  match result with send_success _ _ => true | _ => false end.

(** The dict [retry_queued_messages] returns. *)
Inductive RetryResult :=
| no_messages
| retry_completed (success_count failed_count remaining_queue : nat).

Definition append_to_queue (error : ErrorMessage) (w : World) : World :=
  {| endpoint := endpoint w; timeout := timeout w;
     message_queue := message_queue w ++ [error]; posted := posted w |}.

Definition record_post (p : Payload) (w : World) : World :=
  {| endpoint := endpoint w; timeout := timeout w;
     message_queue := message_queue w; posted := posted w ++ [p] |}.

Definition set_message_queue (queue : list ErrorMessage) (w : World) : World :=
  {| endpoint := endpoint w; timeout := timeout w;
     message_queue := queue; posted := posted w |}.

Section Sender.
(** The answer of the network to a request, given how many requests went
    out before it. *)
Variable network : nat -> Payload -> PostOutcome.

Definition send_message (error : ErrorMessage) (w : World) : SendResult * World :=
  let payload := payload_of error in
  let outcome := network (length (posted w)) payload in
  let w1 := record_post payload w in
  match outcome with
  | response status_code =>
      if status_code =? 200 then (send_success (endpoint w1) status_code, w1)
      else (send_failed (endpoint w1) status_code, append_to_queue error w1)
  | request_exception e => (send_error e, append_to_queue error w1)
  end.

Definition get_queue_size (w : World) : nat := length (message_queue w).

(** The [for error in self.message_queue] loop of [retry_queued_messages].
    The iterator of a Python list keeps an index into the list itself, and
    [send_message] appends to that same list, so the entries queued during
    the loop are visited as well.  [i] is the index, [fuel] bounds the
    number of iterations: [None] means that it did not suffice. *)
Fixpoint retry_loop (fuel : nat) (i success_count failed_count : nat)
    (remaining_queue : list ErrorMessage) (w : World)
  : option (nat * nat * list ErrorMessage * World) :=
  match fuel with
  | O => None
  | S fuel' =>
      match message_queue w !! i with
      | None => Some (success_count, failed_count, remaining_queue, w)
      | Some error =>
          let '(result, w') := send_message error w in
          if is_success result
          then retry_loop fuel' (S i) (S success_count) failed_count remaining_queue w'
          else retry_loop fuel' (S i) success_count (S failed_count)
                 (remaining_queue ++ [error]) w'
      end
  end.

Definition retry_queued_messages (fuel : nat) (w : World) : option (RetryResult * World) :=
  match message_queue w with
  | [] => Some (no_messages, w)
  | _ :: _ =>
      match retry_loop fuel 0 0 0 [] w with
      | None => None
      | Some (success_count, failed_count, remaining_queue, w') =>
          let w'' := set_message_queue remaining_queue w' in
          Some (retry_completed success_count failed_count (length (message_queue w'')),
                w'')
      end
  end.

End Sender.

End MessageSender.

(* ===================================================================== *)
(** ** The second router: [class OrchestratorAgentSDK]                   *)
(* ===================================================================== *)

Module OrchestratorSDK.
Import Orchestrator.

(** What [Runner.run_sync(self.agent, prompt)] gives the router: a result
    whose [final_output] is a response, a string (with what
    [OrchestratorResponse.model_validate_json] makes of it) or something
    else, a result without that attribute, or an exception. *)
Inductive RunOutcome :=
| final_response (response : OrchestratorResponse)
| final_text (parsed : PyError + OrchestratorResponse)
| final_other
| no_final_output
| run_raises (e : PyError).

(** The outcomes of the successive runs; a run made when none is left
    raises. *)
Record World := { runs : list RunOutcome }.

(** [routing_map], the dict literal of [_route_with_rules]. *)
Definition routing_map (action : string) : option (string * string * string * bool) :=
  if String.eqb action "config_change"
  then Some ("config", "CPF configuration modification", "medium", true)
  else if String.eqb action "os_reconfig"
  then Some ("os", "Operating system resource reconfiguration", "high", true)
  else if String.eqb action "restart"
  then Some ("restart", "Instance restart operation", "high", true)
  else None.

Section Router.
(** [json.dumps(command.parameters)]. *)
Variable json_dumps : list (string * json) -> string.

Definition _route_with_rules (command : RemediationCommand) : OrchestratorResponse :=
  let '(agent_type, rationale, risk, validation) :=
    default ("config", "Default routing to config agent", "low", false)
      (routing_map (action_type command)) in
  let command_str := json_dumps (parameters command) in
  {| agent_type := agent_type;
     command_str := command_str;
     rationale := rationale;
     requires_validation := validation;
     estimated_risk := risk |}.

Definition run_sync : Py World RunOutcome :=
  fun w =>
    match runs w with
    | [] => (inl (Exception "agent run failed"), w)
    | run_raises e :: rest => (inl e, {| runs := rest |})
    | outcome :: rest => (inr outcome, {| runs := rest |})
    end.

(** [route_command(self, command)]; its logger calls are left out. *)
Definition route_command (command : RemediationCommand) : Py World OrchestratorResponse :=
  try_except
    (result ← run_sync;
     match result with
     | final_response response => mret response
     | final_text parsed => CommandReceiver.lift parsed
     | final_other => mret (_route_with_rules command)
     | no_final_output => mret (_route_with_rules command)
     | run_raises e => raise e
     end)
    (fun e => mret (_route_with_rules command)).

End Router.

End OrchestratorSDK.

(* ===================================================================== *)
(** ** The router and a classifier without an answer                     *)
(* ===================================================================== *)

(** [OrchestratorAgent._execute_impl] once more, with everything
    [LLMClient.parse] can hand back: [parse] returns [message.parsed] as
    it finds it, and that attribute is a response or [None]. *)
Module OrchestratorAgent.
Import Orchestrator.

(** What the successive calls of [self.llm_client.parse] return or raise;
    [None] stands for [parsed] being [None].  A call made when nothing is
    left raises, like a client without a backend. *)
Record World := { parse_replies : list (PyError + option OrchestratorResponse) }.

Section Router.
(** [command.model_dump_json()], pydantic's serializer. *)
Variable model_dump_json : RemediationCommand -> string.

Definition _route_with_llm (command : RemediationCommand)
  : Py World (option OrchestratorResponse) :=
  fun w =>
    match parse_replies w with
    | [] => (inl (Exception "LLM request failed"), w)
    | reply :: rest => (reply, {| parse_replies := rest |})
    end.

(** [_execute_impl(self, input_str)], up to the final [model_dump_json()].
    The [try] block holds the classifier call alone; the rule table is
    asked in its handler.  After the block [response.agent_type] is read
    for the log, which raises [AttributeError] when [response] is
    [None]. *)
Definition _execute_impl (fresh : UUID) (input_str : option json)
  : Py World OrchestratorResponse :=
  command ← CommandReceiver.lift (model_validate_json fresh input_str);
  response ← try_except (_route_with_llm command)
                        (fun e => mret (Some (_route_with_rules model_dump_json command)));
  match response with
  | Some decision => mret decision
  | None => raise (AttributeError "'NoneType' object has no attribute 'agent_type'")
  end.

End Router.

End OrchestratorAgent.

(* ===================================================================== *)
(** ** Operating system agent: [class OSAgent]                           *)
(* ===================================================================== *)

(** [class OSAgentResponse(BaseModel)] and its constructor. *)
Module OSResponse.

Record OSAgentResponse := {
  success : bool;
  resource_type : string;
  target_value : Z;
  actual_value : option Z;
  commands_executed : list string;
  validation_passed : bool;
  error_message : option string
}.

Definition validate_str (name : string) (kwargs : list (string * json))
  : list ErrorDetails + string :=
  match dict_get name kwargs with
  | None => inl (err name "missing")
  | Some (JStr s) => inr s
  | Some _ => inl (err name "string_type")
  end.

(** A required field of type [Optional[int]]. *)
Definition validate_optional_int (name : string) (kwargs : list (string * json))
  : list ErrorDetails + option Z :=
  match dict_get name kwargs with
  | None => inl (err name "missing")
  | Some JNull => inr None
  | Some (JNum n) => inr (Some n)
  | Some _ => inl (err name "int_type")
  end.

Fixpoint strings_of (items : list json) : option (list string) :=
  match items with
  | [] => Some []
  | JStr s :: rest =>
      match strings_of rest with Some l => Some (s :: l) | None => None end
  | _ :: _ => None
  end.

(** A field of type [list[str]]. *)
Definition validate_str_list (name : string) (kwargs : list (string * json))
  : list ErrorDetails + list string :=
  match dict_get name kwargs with
  | None => inl (err name "missing")
  | Some (JArr items) =>
      match strings_of items with
      | Some l => inr l
      | None => inl (err name "string_type")
      end
  | Some _ => inl (err name "list_type")
  end.

(** The constructor of [OSAgentResponse] on keyword arguments, with the
    conventions of the constructor of [RestartAgentResponse]. *)
Definition init (kwargs : list (string * json)) : PyError + OSAgentResponse :=
  let r_success := RestartResponse.validate_bool "success" kwargs in
  let r_type := validate_str "resource_type" kwargs in
  let r_target := RestartResponse.validate_number "target_value" "int_type" kwargs in
  let r_actual := validate_optional_int "actual_value" kwargs in
  let r_commands := validate_str_list "commands_executed" kwargs in
  let r_passed := RestartResponse.validate_bool "validation_passed" kwargs in
  let r_error := RestartResponse.validate_optional_str "error_message" kwargs in
  match r_success, r_type, r_target, r_actual, r_commands, r_passed, r_error with
  | inr s, inr t, inr tv, inr av, inr c, inr p, inr e =>
      inr {| success := s; resource_type := t; target_value := tv; actual_value := av;
             commands_executed := c; validation_passed := p; error_message := e |}
  | _, _, _, _, _, _, _ =>
      inl (ValidationError
             (errors_of r_success ++ errors_of r_type ++ errors_of r_target
                ++ errors_of r_actual ++ errors_of r_commands ++ errors_of r_passed
                ++ errors_of r_error))
  end.

End OSResponse.

Module OSAgent.

(** What [subprocess.run] of the [sysctl] command does. *)
Inductive SysctlOutcome :=
| sysctl_completed (returncode : Z) (stderr : string)
| sysctl_timeout
| sysctl_raises (e : PyError).

(** The machine as the agent meets it: the user id [id -u] prints ([None]
    when the command or the conversion of its output raises), the outcome
    of [sysctl -w vm.nr_hugepages=n], the content the kernel gives the
    counter file after that command, from its old content, and the result
    of the floating-point test [new_pages >= target_pages * 0.95]. *)
Record Host := {
  id_u : option Z;
  sysctl_outcome : Z -> SysctlOutcome;
  pages_after : Z -> option Z -> option Z;
  within_tolerance : Z -> Z -> bool
}.

(** The content of [/proc/sys/vm/nr_hugepages] as an integer ([None] when
    the file cannot be read as one) and the values [sysctl] was asked to
    set. *)
Record World := { nr_hugepages : option Z; sysctl_calls : list Z }.

Section Agent.
Variable host : Host.
Variable str : PyError -> string.
Variable format : json -> string.

Definition _check_permissions : Py World bool :=
  mret (match id_u host with Some uid => uid =? 0 | None => false end).

Definition _get_huge_pages : Py World Z :=
  gets (fun w => default 0 (nr_hugepages w)).

(** [subprocess.run(cmd, ..., timeout=10)] for the [sysctl] command; a
    run that raises anything but [TimeoutExpired] has not started the
    command. *)
Definition run_sysctl (target_pages : Z) : Py World SysctlOutcome :=
  fun w =>
    let w' := {| nr_hugepages := pages_after host target_pages (nr_hugepages w);
                 sysctl_calls := sysctl_calls w ++ [target_pages] |} in
    match sysctl_outcome host target_pages with
    | sysctl_raises e => (inl e, w)
    | outcome => (inr outcome, w')
    end.

(** The dict the configuration functions return. *)
Definition result_dict (success : bool) (resource_type : string) (old_value new_value : json)
    (commands_executed : list string) (validation_passed : bool)
    (error_message : option string) : list (string * json) :=
  [("success", JBool success);
   ("resource_type", JStr resource_type);
   ("old_value", old_value);
   ("new_value", new_value);
   ("commands_executed", JArr (JStr <$> commands_executed));
   ("validation_passed", JBool validation_passed);
   ("error_message", match error_message with Some s => JStr s | None => JNull end)].

(** [_configure_memory(self, target_mb)].  [target_mb // 2] needs a number
    and raises [TypeError] otherwise.  The command is added to
    [commands_executed] after [subprocess.run] has returned, so it is not
    listed when the run ends in a timeout. *)
Definition _configure_memory (target_mb : json) : Py World (list (string * json)) :=
  old_pages ← _get_huge_pages;
  let old_mb := old_pages * 2 in
  target_pages ← match target_mb with
                 | JNum n => mret (n / 2)
                 | JBool b => mret (Z.b2z b / 2)
                 | _ => raise (TypeError "unsupported operand type(s) for //")
                 end;
  outcome ← run_sysctl target_pages;
  match outcome with
  | sysctl_completed returncode stderr =>
      let commands_executed := ["sysctl -w vm.nr_hugepages=" +:+ pretty target_pages] in
      if negb (returncode =? 0) then
        mret (result_dict false "memory" (JNum old_mb) target_mb commands_executed false
                (Some ("sysctl failed: " +:+ stderr)))
      else
        new_pages ← _get_huge_pages;
        let validation_passed := within_tolerance host new_pages target_pages in
        mret (result_dict validation_passed "memory" (JNum old_mb) (JNum (new_pages * 2))
                commands_executed validation_passed
                (if validation_passed then None
                 else Some "Huge pages allocation fell short of target"))
  | sysctl_timeout =>
      mret (result_dict false "memory" (JNum old_mb) target_mb [] false
              (Some "Command timeout"))
  | sysctl_raises e => raise e
  end.

Definition _configure_cpu (cpu_config : json) : Py World (list (string * json)) :=
  mret (result_dict true "cpu" (JStr "default") (JStr (format cpu_config))
          ["# CPU configuration placeholder"] true None).

(** The keyword arguments of the three literal constructor calls. *)
Definition failure_kwargs (resource_type target_value : json) (error_message : string)
  : list (string * json) :=
  [("success", JBool false);
   ("resource_type", resource_type);
   ("old_value", JNull);
   ("new_value", target_value);
   ("commands_executed", JArr []);
   ("validation_passed", JBool false);
   ("error_message", JStr error_message)].

(** [_execute_impl(self, input_str)], up to the [model_dump_json()] of
    the response; its logger calls are left out.  [parameters.get(name)]
    is [None] for an absent key. *)
Definition _execute_impl (fresh : UUID) (input_str : option json)
  : Py World OSResponse.OSAgentResponse :=
  command ← CommandReceiver.lift (model_validate_json fresh input_str);
  let resource_type := default JNull (dict_get "resource_type" (parameters command)) in
  let target_value := default JNull (dict_get "target_value" (parameters command)) in
  try_except
    (allowed ← _check_permissions;
     if negb allowed then
       CommandReceiver.lift
         (OSResponse.init
            (failure_kwargs resource_type target_value
               "Insufficient permissions - root or sudo required"))
     else if RestartWrapper.equals_str resource_type "memory" then
       result ← _configure_memory target_value;
       CommandReceiver.lift (OSResponse.init result)
     else if RestartWrapper.equals_str resource_type "cpu" then
       result ← _configure_cpu target_value;
       CommandReceiver.lift (OSResponse.init result)
     else
       CommandReceiver.lift
         (OSResponse.init
            (failure_kwargs resource_type target_value
               ("Unknown resource_type: " +:+ format resource_type))))
    (fun e =>
       CommandReceiver.lift
         (OSResponse.init (failure_kwargs resource_type target_value (str e)))).

End Agent.

End OSAgent.

(* ===================================================================== *)
(** ** Configuration of the process: [utils/config.py]                   *)
(* ===================================================================== *)

Module Settings.

Section Config.
(** Python floats, which the modelled code only stores, and the
    environment of the process. *)
Context {float : Type} {Environ : Type}.

Record OpenAIConfig := {
  api_key : string;
  model : string;
  fallback_model : string;
  timeout_seconds : Z;
  max_retries : Z;
  retry_delay_seconds : Z
}.

Record TokenBudgetConfig := {
  per_workflow : Z;
  per_session : Z;
  per_day : Z;
  alert_threshold : float
}.

Record ExternalEndpoints := { message_endpoint : string; command_endpoint : string }.

Record IRISConfig := { cpf_path : string; instance_name : string }.

Record LoggingConfig := { level : string; format : string; enable_trace_ids : bool }.

Record DevelopmentConfig := { enable_llm_mocking : bool; enable_dry_run : bool }.

Record Config := {
  openai : OpenAIConfig;
  token_budget : TokenBudgetConfig;
  external : ExternalEndpoints;
  iris : IRISConfig;
  logging : LoggingConfig;
  development : DevelopmentConfig
}.

(** What [Config()] makes of the environment: the conversions of the
    numeric variables raise on malformed text. *)
Variable Config_init : Environ -> PyError + Config.

(** [Config.validate(self)]: the messages in the order they are appended. *)
Definition validate (self : Config) : list string :=
  (if String.eqb (api_key (openai self)) EmptyString
   then ["OPENAI_API_KEY is required"] else [])
  ++ (if per_workflow (token_budget self) <=? 0
      then ["TOKEN_BUDGET_PER_WORKFLOW must be positive"] else [])
  ++ (if per_session (token_budget self) <? per_workflow (token_budget self)
      then ["TOKEN_BUDGET_PER_SESSION must be >= TOKEN_BUDGET_PER_WORKFLOW"] else [])
  ++ (if per_day (token_budget self) <? per_session (token_budget self)
      then ["TOKEN_BUDGET_PER_DAY must be >= TOKEN_BUDGET_PER_SESSION"] else []).

(** The environment and the module's global [_config]. *)
Record World := { environ : Environ; _config : option Config }.

(** [get_config()]: the global is assigned before the configuration is
    validated. *)
Definition get_config : Py World Config :=
  fun w =>
    match _config w with
    | Some config => (inr config, w)
    | None =>
        match Config_init (environ w) with
        | inl e => (inl e, w)
        | inr config =>
            let w' := {| environ := environ w; _config := Some config |} in
            match validate config with
            | [] => (inr config, w')
            | errors =>
                (inl (ValueError ("Configuration validation failed: "
                                    +:+ String.concat "; " errors)), w')
            end
        end
    end.

End Config.

End Settings.

(* ===================================================================== *)
(** ** Runtime state: [class ExecutionContext]                           *)
(* ===================================================================== *)

Module Context.

(** An entry of [active_operations]. *)
Record Operation := { status : string; details : json; updated_at : string }.

Record ExecutionContext := {
  workflow_id : UUID;
  trace_id : string;
  start_time : string;
  iris_instance_status : string;
  pending_commands : list UUID;
  active_operations : gmap string Operation;
  metadata : gmap string json
}.

Definition set_pending_commands (pending : list UUID) (self : ExecutionContext)
  : ExecutionContext :=
  {| workflow_id := workflow_id self; trace_id := trace_id self;
     start_time := start_time self; iris_instance_status := iris_instance_status self;
     pending_commands := pending; active_operations := active_operations self;
     metadata := metadata self |}.

(** [list.remove(x)]: the first occurrence goes; the caller has checked
    that there is one. *)
Fixpoint list_remove (x : UUID) (l : list UUID) : list UUID :=
  match l with
  | [] => []
  | y :: rest => if N.eqb y x then rest else y :: list_remove x rest
  end.

Definition add_pending_command (command_id : UUID) (self : ExecutionContext)
  : ExecutionContext :=
  if bool_decide (command_id ∈ pending_commands self) then self
  else set_pending_commands (pending_commands self ++ [command_id]) self.

Definition remove_pending_command (command_id : UUID) (self : ExecutionContext)
  : ExecutionContext :=
  if bool_decide (command_id ∈ pending_commands self)
  then set_pending_commands (list_remove command_id (pending_commands self)) self
  else self.

End Context.

(* ===================================================================== *)
(** ** Calls of the language model: [LLMClient.parse]                    *)
(* ===================================================================== *)

Module LLMClient.

(** [response.usage] and the part of a completion [parse] reads. *)
Record Usage := { prompt_tokens : Z; completion_tokens : Z }.

Record Completion (T : Type) := { parsed : T; usage : option Usage }.
Arguments parsed {T} _.
Arguments usage {T} _.

(** The attributes [__init__] copies from the configuration. *)
Record Client := {
  model : string;
  fallback_model : string;
  timeout : Z;
  max_retries : Z;
  retry_delay : Z
}.

(** One call of [track_tokens]. *)
Record Tracked := {
  tracked_model : string;
  input_tokens : Z;
  output_tokens : Z;
  operation : string
}.

Section Parse.
Context {T : Type}.

(** What the successive calls of the API return or raise (a call made
    when nothing is left raises), the models the calls went to, the seconds
    spent in [time.sleep], and the calls of [track_tokens]. *)
Record World := {
  api_replies : list (PyError + Completion T);
  api_calls : list string;
  slept : Z;
  tracked : list Tracked
}.

Definition time_sleep (seconds : Z) : Py World unit :=
  if seconds <? 0 then raise (ValueError "sleep length must be non-negative")
  else modify (fun w => {| api_replies := api_replies w; api_calls := api_calls w;
                           slept := slept w + seconds; tracked := tracked w |}).

(** [self.client.beta.chat.completions.parse(model=model, ...)]. *)
Definition completions_parse (model : string) : Py World (Completion T) :=
  fun w =>
    match api_replies w with
    | [] =>
        (inl (Exception "LLM request failed"),
         {| api_replies := []; api_calls := api_calls w ++ [model];
            slept := slept w; tracked := tracked w |})
    | reply :: rest =>
        (reply,
         {| api_replies := rest; api_calls := api_calls w ++ [model];
            slept := slept w; tracked := tracked w |})
    end.

Definition track_tokens (model : string) (used : Usage) (operation : string)
  : Py World unit :=
  modify (fun w => {| api_replies := api_replies w; api_calls := api_calls w;
                      slept := slept w;
                      tracked := tracked w ++ [ {| tracked_model := model;
                                                   input_tokens := prompt_tokens used;
                                                   output_tokens := completion_tokens used;
                                                   operation := operation |} ] |}).

Variable self : Client.

(** The [for attempt in range(self.max_retries)] loop of [parse] and the
    [raise] behind it: [remaining] iterations are left, of which the next
    has the number [attempt].  Logger calls are left out. *)
Fixpoint attempts (model operation : string) (remaining : nat) (attempt : Z)
  : Py World T :=
  match remaining with
  | O =>
      raise (Exception ("LLM request failed after " +:+ pretty (max_retries self)
                          +:+ " attempts"))
  | S remaining' =>
      try_except
        (response ← completions_parse model;
         match usage response with
         | Some used => track_tokens model used operation
         | None => mret tt
         end;;
         mret (parsed response))
        (fun e =>
           if attempt =? max_retries self - 1 then raise e
           else
             time_sleep (retry_delay self * (attempt + 1));;
             attempts model operation remaining' (attempt + 1))
  end.

Definition parse (operation : string) (use_fallback : bool) : Py World T :=
  let model := if use_fallback then fallback_model self else model self in
  attempts model operation (Z.to_nat (max_retries self)) 0.

End Parse.

Arguments World T : clear implicits.

End LLMClient.

(* ===================================================================== *)
(** ** Specification vocabulary for the queue                            *)
(* ===================================================================== *)

Module QueueSpec.
Import CommandReceiver.

(** The rank [_insert_by_priority] computes for a command. *)
Definition rank (c : RemediationCommand) : Z := priority_rank (priority c).

(** The commands of one rank, in the order of the list. *)
Definition by_rank (r : Z) (cs : list RemediationCommand) : list RemediationCommand :=
  List.filter (fun c => rank c =? r) cs.

(** Arrival list [cs] rearranged the way the spec wants it dequeued: all
    critical commands in arrival order, then high, medium and low. *)
Definition by_priority (cs : list RemediationCommand) : list RemediationCommand :=
  by_rank 0 cs ++ by_rank 1 cs ++ by_rank 2 cs ++ by_rank 3 cs.

Definition sorted_by_priority (l : list RemediationCommand) : Prop :=
  StronglySorted (fun a b => rank a <= rank b) l.

(** The entries in front of the first one whose rank is strictly above
    [r], and the entries from that one on. *)
Fixpoint ahead (r : Z) (l : list RemediationCommand) : list RemediationCommand :=
  match l with
  | [] => []
  | x :: rest => if r <? rank x then [] else x :: ahead r rest
  end.

Fixpoint behind (r : Z) (l : list RemediationCommand) : list RemediationCommand :=
  match l with
  | [] => []
  | x :: rest => if r <? rank x then x :: rest else behind r rest
  end.

(** The queue holds exactly the commands [l], front first: the order list
    is their ids, no id occurs twice, and the map sends an id to the
    command of [l] that carries it. *)
Definition queue_holds (self : CommandReceiverService) (l : list RemediationCommand) : Prop :=
  command_order self = command_id <$> l /\
  NoDup (command_id <$> l) /\
  forall id c, command_queue self !! id = Some c <-> (c ∈ l /\ command_id c = id).

Definition same_target (c : RemediationCommand) (l : list RemediationCommand) : bool :=
  existsb (fun x => String.eqb (target x) (target c)) l.

Definition is_accepted (r : Response) : bool :=
  match r with accepted _ _ _ => true | rejected _ => false end.

Definition conflict_flag (r : Response) : option bool :=
  match r with accepted _ _ b => Some b | rejected _ => None end.

(** Payloads that validate to the commands [cs], one by one. *)
Definition validate_all (inputs : list (UUID * option json)) (cs : list RemediationCommand)
  : Prop :=
  Forall2 (fun inp c => model_validate_json (fst inp) (snd inp) = inr c) inputs cs.

(** The queued command an id-reusing command [c] takes the place of. *)
Definition replace_by (c x : RemediationCommand) : RemediationCommand :=
  if decide (command_id x = command_id c) then c else x.

(** The response and the state of one [receive_command] call. *)
Definition receive (fresh : UUID) (payload : option json) (self : CommandReceiverService)
  : Response * CommandReceiverService :=
  match receive_command fresh payload self with
  | (inr r, self') => (r, self')
  | (inl e, self') => (rejected e, self')
  end.

(** The states the receiver can be in when every accepted command arrived
    with an id that no queued command had at that moment: the initial
    state, and what [receive_command] and [get_next_command] make of such
    a state. *)
Inductive reachable : CommandReceiverService -> Prop :=
| reachable_init : reachable init
| reachable_receive self fresh payload c :
    reachable self ->
    model_validate_json fresh payload = inr c ->
    command_id c ∉ command_order self ->
    reachable (snd (receive fresh payload self))
| reachable_rejected self fresh payload e :
    reachable self ->
    model_validate_json fresh payload = inl e ->
    reachable (snd (receive fresh payload self))
| reachable_dequeue self :
    reachable self ->
    reachable (snd (get_next_command self)).

(** The command the example payload [payload id prio tgt] validates to. *)
Definition command_of (id prio tgt : string) : RemediationCommand :=
  {| command_id := default 0%N (parse_uuid id);
     action_type := "config_change";
     target := tgt;
     parameters := [("section", JStr "Startup"); ("key", JStr "k"); ("value", JStr "v")];
     priority := prio;
     requester := None |}.

End QueueSpec.

(* ===================================================================== *)
(** ** Specification vocabulary for the configuration store              *)
(* ===================================================================== *)

Module StoreSpec.
Import ConfigStore.

(** The restart rule in the words of the specification: the section is
    one of the restart sections, or the lower-cased key is one of the
    restart-sensitive keys. *)
Definition restart_rule (section key : string) : Prop :=
  In section ["Startup"; "config"] \/
  In (lower key)
     ["globals"; "routines"; "gmheap"; "locksiz"; "genericheap"; "wijdir"; "database"].

(** A log entry written by [restore_backup] for the backup [path]. *)
Definition restore_event (path : string) (ev : LogEvent) : Prop :=
  ev = cpf_restore_success path \/ exists e, ev = cpf_restore_failed path e.

Section Store.
Context `{ConfigParserLib}.

(** The value [read_setting] finds in a live file. *)
Definition read_value (section key : string) (file : option Content) : option string :=
  match match file with
        | None => inr new_parser
        | Some text => parse text new_parser
        end with
  | inl _ => None
  | inr config =>
      if has_option config section key then
        match get config section key with
        | inr v => Some v
        | inl _ => None
        end
      else None
  end.

(** Whether [validate_cpf] accepts a live file. *)
Definition well_formed (file : option Content) : bool :=
  match file with
  | None => true
  | Some text => match parse text new_parser with inr _ => true | inl _ => false end
  end.

(** The path [create_backup] writes to. *)
Definition backup_path_of (self : CPFManager) (w : World) : string :=
  backup_dir self +:+ "/iris.cpf.backup." +:+ now w.

(** The world in which [_execute_impl] calls [write_setting]: the start of
    the change has been logged and the old value read. *)
Definition before_write (section key value : string) (w : World) : World :=
  snd (read_setting section key
         (snd (log_event (config_change_start section key value) w))).

End Store.

End StoreSpec.

(* ===================================================================== *)
(** ** Specification vocabulary for the router and the restart agent     *)
(* ===================================================================== *)

Module RouterSpec.
Import Orchestrator.

(** The next call of the advisory classifier raises. *)
Definition classifier_raises (w : World) : bool :=
  match llm_replies w with
  | [] => true
  | inl _ :: _ => true
  | inr _ :: _ => false
  end.

(** A serializer for the examples; the router's decisions do not read it. *)
Definition sample_dump (c : RemediationCommand) : string :=
  "{action_type: " +:+ action_type c +:+ ", target: " +:+ target c +:+ "}".

Definition restart_payload : option json :=
  Some (JObj [("command_id", JStr "550e8400-e29b-41d4-a716-446655440002");
              ("action_type", JStr "restart"); ("target", JStr "instance");
              ("parameters", JObj [("mode", JStr "graceful"); ("timeout_seconds", JNum 60)]);
              ("priority", JStr "high")]).

(** Two answers a classifier may give for the same prompt. *)
Definition reply_config : OrchestratorResponse :=
  {| agent_type := "config"; command_str := "{}";
     rationale := "Restart follows a configuration change";
     requires_validation := true; estimated_risk := "medium" |}.

Definition reply_restart : OrchestratorResponse :=
  {| agent_type := "restart"; command_str := "{}";
     rationale := "Instance restart requested";
     requires_validation := true; estimated_risk := "high" |}.

End RouterSpec.

Module RestartSpec.
Import RestartAgent.

(** The stop command returned exit status 0 within its timeout. *)
Definition shutdown_ok (instance : Instance) (graceful : bool) (timeout : Z) : bool :=
  match stop_outcome instance graceful timeout with
  | completed returncode => returncode =? 0
  | timeout_expired => false
  end.

Definition startup_ok (instance : Instance) : bool :=
  match start_outcome instance with
  | completed returncode => returncode =? 0
  | timeout_expired => false
  end.

Definition is_drain (ev : LogEvent) : bool :=
  match ev with connection_draining _ => true | _ => false end.

Definition is_shutdown (ev : LogEvent) : bool :=
  match ev with instance_shutdown _ _ | shutdown_timeout _ => true | _ => false end.

Definition is_startup (ev : LogEvent) : bool :=
  match ev with instance_startup _ | startup_timeout => true | _ => false end.

Definition is_validation (ev : LogEvent) : bool :=
  match ev with validating_operational_status | validation_failed => true | _ => false end.

(** What the stage machine promises about a result and the log entries of
    the run that produced it, for the stop command run with [graceful] and
    [timeout]. *)
Definition stages_respected (instance : Instance) (graceful : bool) (timeout : Z)
    (result : RestartResult) (entries : list LogEvent) : Prop :=
  existsb is_shutdown entries = true /\
  existsb is_startup entries = shutdown_ok instance graceful timeout /\
  existsb is_validation entries
  = shutdown_ok instance graceful timeout && startup_ok instance /\
  (success result = true <->
   existsb is_validation entries = true /\ operational_status result = "operational") /\
  (shutdown_ok instance graceful timeout = false ->
   success result = false /\ operational_status result = "shutdown_failed" /\
   startup_duration_seconds result = 0) /\
  (shutdown_ok instance graceful timeout = true -> startup_ok instance = false ->
   success result = false /\ operational_status result = "startup_failed") /\
  (shutdown_ok instance graceful timeout = true -> startup_ok instance = true ->
   operational_status result
   = if status_check_raises instance then "error" else "operational").

(** An instance whose stop command runs into its timeout. *)
Definition stuck : Instance :=
  {| stop_outcome := fun _ _ => timeout_expired;
     stop_millis := fun _ t => t * 1000;
     start_outcome := completed 0;
     start_millis := 3400;
     status_check_raises := false |}.

Definition boot : World := {| clock := 1000000; log := [] |}.

End RestartSpec.

(* ===================================================================== *)
(** ** Vocabulary for the intake properties                              *)
(* ===================================================================== *)

Module IntakeSpec.
Import CommandReceiver QueueSpec.

(** What the field constraints and the field validator of
    [RemediationCommand] ask of a command. *)
Definition accepted_shape (c : RemediationCommand) : Prop :=
  In (action_type c) ["config_change"; "os_reconfig"; "restart"] /\
  In (priority c) ["low"; "medium"; "high"; "critical"] /\
  (1 <= String.length (target c) <= 100)%nat /\
  (action_type c = "config_change" ->
   dict_has "section" (parameters c) = true /\
   dict_has "key" (parameters c) = true /\
   dict_has "value" (parameters c) = true) /\
  (action_type c = "os_reconfig" ->
   dict_has "resource_type" (parameters c) = true /\
   dict_has "target_value" (parameters c) = true) /\
  (action_type c = "restart" ->
   dict_get "mode" (parameters c) = None \/
   dict_get "mode" (parameters c) = Some (JStr "graceful") \/
   dict_get "mode" (parameters c) = Some (JStr "forced")).

(** The queued commands of one priority and of one action type. *)
Definition count_priority (p : string) (l : list RemediationCommand) : nat :=
  length (List.filter (fun c => String.eqb (priority c) p) l).

Definition count_action (a : string) (l : list RemediationCommand) : nat :=
  length (List.filter (fun c => String.eqb (action_type c) a) l).

(** The queued commands that are served before, and after, a command of
    rank [r] arriving now. *)
Definition served_before (r : Z) (l : list RemediationCommand) : list RemediationCommand :=
  List.filter (fun x => rank x <=? r) l.

Definition served_after (r : Z) (l : list RemediationCommand) : list RemediationCommand :=
  List.filter (fun x => r <? rank x) l.

(** The receiver after [n] calls of [get_next_command]. *)
Fixpoint after_dequeues (n : nat) (self : CommandReceiverService)
  : CommandReceiverService :=
  match n with
  | O => self
  | S n' => after_dequeues n' (snd (get_next_command self))
  end.

(** Every command of the map sits under its own id, the way
    [receive_command] stores it. *)
Definition keyed_by_id (self : CommandReceiverService) : Prop :=
  map_Forall (fun id x => command_id x = id) (command_queue self).

(** None of the calls recorded in [results] handed out a command with the
    id [id]. *)
Definition never_handed_out (id : UUID) (results : list (PyError + RemediationCommand))
  : Prop :=
  Forall (fun r => match r with inr x => command_id x <> id | inl _ => True end) results.

(** A receiver whose order list still names an id the map has lost: the
    state left by a dequeue after an id was used twice. *)
Definition stale_state : CommandReceiverService :=
  snd (get_next_command
         (snd (receive_all [(0%N, payload id1 "high" "iris.cpf");
                            (0%N, payload id2 "medium" "hugepages");
                            (0%N, payload id1 "low" "instance")] init))).

End IntakeSpec.

(* ===================================================================== *)
(** ** Vocabulary for the store properties                               *)
(* ===================================================================== *)

Module WriteSpec.
Import ConfigStore.

Section Store.
Context `{ConfigParserLib}.

(** What the [try] block of [write_setting] computes before it opens the
    file for writing: the parser loaded from the live file, the old value
    of the option, and the parser with the section added if need be and
    the option set. *)
Definition updated_config (section key value : string) (file : option Content)
  : PyError + (option string * ConfigParser) :=
  match match file with
        | None => inr new_parser
        | Some text => parse text new_parser
        end with
  | inl e => inl e
  | inr config =>
      match (if has_option config section key
             then match get config section key with
                  | inl e => inl e
                  | inr v => inr (Some v)
                  end
             else inr None) with
      | inl e => inl e
      | inr old_value =>
          match (if has_section config section then inr config
                 else add_section config section) with
          | inl e => inl e
          | inr config1 =>
              match set config1 section key value with
              | inl e => inl e
              | inr config2 => inr (old_value, config2)
              end
          end
      end
  end.

(** A log entry of a finished [write_setting]. *)
Definition write_event (section key value : string) (ev : LogEvent) : Prop :=
  (exists old bp, ev = cpf_write_success section key old value bp) \/
  (exists e, ev = cpf_write_failed section key value e).

End Store.

End WriteSpec.

(** A further world for the examples of the store. *)
Module IniSamples.

(** No live file yet; the directories are writable. *)
Definition missing_world : ConfigStore.World :=
  {| ConfigStore.cpf_file := None;
     ConfigStore.cpf_writable := true;
     ConfigStore.backups := ∅;
     ConfigStore.backups_writable := true;
     ConfigStore.now := "20260206_101500";
     ConfigStore.log := [] |}.

End IniSamples.

(* ===================================================================== *)
(** ** Vocabulary for the restart wrapper                                *)
(* ===================================================================== *)

Module WrapperSpec.
Import RestartAgent RestartSpec.

(** The errors pydantic reports when the agent builds its response: the
    three required fields no keyword is given for. *)
Definition missing_response_fields : list ErrorDetails :=
  [ {| loc := "restart_mode"; type := "missing" |};
    {| loc := "instance_status"; type := "missing" |};
    {| loc := "validation_passed"; type := "missing" |} ].

(** Time the startup stage takes: the start command and, when it
    completed, the two seconds the agent waits afterwards. *)
Definition startup_millis (instance : Instance) : Z :=
  match start_outcome instance with
  | completed _ => start_millis instance + 2 * 1000
  | timeout_expired => start_millis instance
  end.

(** A command that is not a restart command and names no mode. *)
Definition config_payload : option json :=
  Some (JObj [("command_id", JStr "550e8400-e29b-41d4-a716-446655440001");
              ("action_type", JStr "config_change"); ("target", JStr "iris.cpf");
              ("parameters", JObj [("section", JStr "Startup"); ("key", JStr "globals");
                                   ("value", JStr "20000")])]).

(** A restart command asking for a forced restart. *)
Definition forced_payload : option json :=
  Some (JObj [("action_type", JStr "restart"); ("target", JStr "IRIS");
              ("parameters", JObj [("mode", JStr "forced")])]).

(** An instance that stops and starts at once. *)
Definition healthy : Instance :=
  {| stop_outcome := fun _ _ => completed 0;
     stop_millis := fun _ _ => 1500;
     start_outcome := completed 0;
     start_millis := 3400;
     status_check_raises := false |}.

(** [str] and the formatting of a value, for the examples. *)
Definition sample_str (e : PyError) : string :=
  match e with
  | ValueError msg | TypeError msg | OSError msg | ConfigParserError msg
  | AttributeError msg | Exception msg => msg
  | KeyError _ => "key"
  | ValidationError _ => "validation error"
  end.

Definition sample_format (v : json) : string :=
  match v with JStr s => s | _ => "value" end.

End WrapperSpec.

(* ===================================================================== *)
(** ** Vocabulary for the message sender                                 *)
(* ===================================================================== *)

Module SenderSpec.
Import MessageSender.

Section Sender.
Variable network : nat -> Payload -> PostOutcome.

(** The request numbered [k] is answered with status 200. *)
Definition answered_ok (k : nat) (p : Payload) : bool :=
  match network k p with
  | response status_code => status_code =? 200
  | request_exception _ => false
  end.

(** Of the requests [ps], sent as numbers [k], [k+1], ..., those answered
    with status 200. *)
Fixpoint delivered (k : nat) (ps : list Payload) : list Payload :=
  match ps with
  | [] => []
  | p :: rest =>
      if answered_ok k p then p :: delivered (S k) rest else delivered (S k) rest
  end.

End Sender.

(** A network that refuses the first two requests with status 503 and
    answers 200 from then on, and one that refuses one message for ever. *)
Definition flaky (k : nat) (p : Payload) : PostOutcome :=
  if Nat.ltb k 2 then response 503 else response 200.

Definition license_error : ErrorMessage :=
  {| timestamp := "02/06/26-14:30:45:123"; process_id := 12345; severity := 2;
     category := "[Utility.Event]";
     message_text := "LMF Error: No valid license key" |}.

Definition journal_error : ErrorMessage :=
  {| timestamp := "02/06/26-14:31:02:517"; process_id := 23456; severity := 1;
     category := "[Generic.Event]";
     message_text := "Journal file is full" |}.

Definition refuses_license (k : nat) (p : Payload) : PostOutcome :=
  if String.eqb (payload_message p) "LMF Error: No valid license key"
  then response 400 else response 200.

Definition backlog : World :=
  {| endpoint := "http://localhost:8080/messages"; timeout := 10;
     message_queue := [license_error; journal_error]; posted := [] |}.

End SenderSpec.

(* ===================================================================== *)
(** ** Vocabulary for the operating system agent                         *)
(* ===================================================================== *)

Module OSSpec.
Import OSAgent.

(** The errors pydantic reports when the agent builds its response from
    the keyword arguments of its [except] block: the resource type when it
    is not a string, and the two required fields no keyword is given
    for. *)
Definition response_errors (resource_type : json) : list ErrorDetails :=
  match resource_type with
  | JStr _ => []
  | _ => err "resource_type" "string_type"
  end ++ [ {| loc := "target_value"; type := "missing" |};
           {| loc := "actual_value"; type := "missing" |} ].

Definition permitted (host : Host) : bool :=
  match id_u host with Some uid => uid =? 0 | None => false end.

(** A machine run by root on which [sysctl] succeeds and the kernel
    allocates what it is asked for. *)
Definition root_host : Host :=
  {| id_u := Some 0;
     sysctl_outcome := fun _ => sysctl_completed 0 EmptyString;
     pages_after := fun target _ => Some target;
     within_tolerance := fun new_pages target_pages => 20 * new_pages >=? 19 * target_pages |}.

Definition memory_payload : option json :=
  Some (JObj [("command_id", JStr "550e8400-e29b-41d4-a716-446655440001");
              ("action_type", JStr "os_reconfig"); ("target", JStr "hugepages");
              ("parameters", JObj [("resource_type", JStr "memory");
                                   ("target_value", JNum 16384)])]).

Definition idle : World := {| nr_hugepages := Some 0; sysctl_calls := [] |}.

End OSSpec.

(* ===================================================================== *)
(** ** Vocabulary for the settings and the execution context             *)
(* ===================================================================== *)

Module SettingsSpec.
Import Settings.

(** A configuration whose budgets are out of order: the session budget is
    below the workflow budget. *)
Definition unordered : @Config unit :=
  {| openai := {| api_key := "sk-test"; model := "gpt-4o-2024-08-06";
                  fallback_model := "gpt-3.5-turbo"; timeout_seconds := 30;
                  max_retries := 3; retry_delay_seconds := 2 |};
     token_budget := {| per_workflow := 5000; per_session := 1000; per_day := 500000;
                        alert_threshold := tt |};
     external := {| message_endpoint := "http://localhost:8080/api/messages";
                    command_endpoint := "http://localhost:8080/api/commands" |};
     iris := {| cpf_path := "/usr/irissys/iris.cpf"; instance_name := "IRIS" |};
     logging := {| level := "INFO"; format := "json"; enable_trace_ids := true |};
     development := {| enable_llm_mocking := false; enable_dry_run := false |} |}.

End SettingsSpec.

Module ContextSpec.
Import Context.

(** The calls a workflow makes on the pending list. *)
Inductive Call :=
| add (command_id : UUID)
| remove (command_id : UUID).

Definition call (c : Call) (self : ExecutionContext) : ExecutionContext :=
  match c with
  | add command_id => add_pending_command command_id self
  | remove command_id => remove_pending_command command_id self
  end.

Definition run (calls : list Call) (self : ExecutionContext) : ExecutionContext :=
  fold_left (fun ctx c => call c ctx) calls self.

(** Whether [command_id] should be pending after [calls], given whether it
    was before: the last call that names it decides. *)
Definition pending_after (command_id : UUID) (calls : list Call) (before : bool) : bool :=
  fold_left (fun b c =>
               match c with
               | add x => if N.eqb x command_id then true else b
               | remove x => if N.eqb x command_id then false else b
               end) calls before.

Definition fresh_context : ExecutionContext :=
  {| workflow_id := 1%N; trace_id := "trace"; start_time := "2026-02-06T10:15:00";
     iris_instance_status := "unknown"; pending_commands := [];
     active_operations := ∅; metadata := ∅ |}.

End ContextSpec.

(* ===================================================================== *)
(** ** Vocabulary for the language model client                          *)
(* ===================================================================== *)

Module LLMSpec.
Import LLMClient.

(** Seconds slept before the attempt that follows [k] failed ones: the
    waits are [retry_delay], twice that, three times that, and so on. *)
Definition backoff (retry_delay k : Z) : Z := retry_delay * (k * (k + 1) / 2).

(** The call of [track_tokens] a completion gives rise to, if any. *)
Definition tracking {T} (model operation : string) (completion : Completion T)
  : list Tracked :=
  match usage completion with
  | Some used => [ {| tracked_model := model; input_tokens := prompt_tokens used;
                      output_tokens := completion_tokens used;
                      operation := operation |} ]
  | None => []
  end.

Definition chosen_model (self : Client) (use_fallback : bool) : string :=
  if use_fallback then fallback_model self else model self.

(** The client of the default configuration. *)
Definition default_client : Client :=
  {| model := "gpt-4o-2024-08-06"; fallback_model := "gpt-3.5-turbo";
     timeout := 30; max_retries := 3; retry_delay := 2 |}.

Definition rate_limited : PyError := Exception "Rate limit exceeded".

(** A service that is rate limited twice and then answers, and one that
    stays rate limited. *)
Definition recovering : World string :=
  {| api_replies := [inl rate_limited; inl rate_limited;
                     inr {| parsed := "config";
                            usage := Some {| prompt_tokens := 420;
                                             completion_tokens := 35 |} |}];
     api_calls := []; slept := 0; tracked := [] |}.

Definition overloaded : World string :=
  {| api_replies := [inl rate_limited; inl rate_limited; inl rate_limited;
                     inr {| parsed := "config"; usage := None |}];
     api_calls := []; slept := 0; tracked := [] |}.

End LLMSpec.

(* ===================================================================== *)
(** ** Theorems about the queue                                          *)
(* ===================================================================== *)

Module QueueFacts.
Import CommandReceiver QueueSpec.

Lemma priority_rank_cases p :
  priority_rank p = 0 \/ priority_rank p = 1 \/ priority_rank p = 2 \/ priority_rank p = 3.
Proof.
  unfold priority_rank, priority_order.
  repeat (case (String.eqb p _); [simpl; tauto|]). simpl; tauto.
Qed.

Lemma ahead_behind r l : l = ahead r l ++ behind r l.
Proof.
  induction l as [|x l IH]; simpl; [done|].
  destruct (r <? rank x); simpl; [done|]. by rewrite <- IH.
Qed.

Lemma ahead_le r l : Forall (fun x => rank x <= r) (ahead r l).
Proof.
  induction l as [|x l IH]; simpl; [constructor|].
  destruct (Z.ltb_spec r (rank x)); [constructor|]. constructor; [lia|done].
Qed.

Lemma behind_head r l :
  behind r l = [] \/ exists x rest, behind r l = x :: rest /\ r < rank x.
Proof.
  induction l as [|x l IH]; simpl; [by left|].
  destruct (Z.ltb_spec r (rank x)); [|done].
  right. eauto.
Qed.

Lemma behind_sorted r l :
  sorted_by_priority l -> Forall (fun x => r < rank x) (behind r l).
Proof.
  induction 1 as [|x l Hs IH Hx]; simpl; [constructor|].
  destruct (Z.ltb_spec r (rank x)); [|done].
  constructor; [done|].
  eapply Forall_impl; [exact Hx|]. simpl. intros; lia.
Qed.

Lemma insert_sorted c l :
  sorted_by_priority l ->
  sorted_by_priority (ahead (rank c) l ++ c :: behind (rank c) l).
Proof.
  intros Hs. pose proof (behind_sorted (rank c) l Hs) as Hb.
  pose proof (ahead_le (rank c) l) as Ha.
  assert (Hsplit := ahead_behind (rank c) l).
  unfold sorted_by_priority in *.
  rewrite Hsplit in Hs.
  apply StronglySorted_app in Hs as (H12 & Hs1 & Hs2).
  apply StronglySorted_app_2; [|done|].
  - intros x y Hx Hy. apply elem_of_cons in Hy as [->|Hy].
    + rewrite Forall_forall in Ha. by apply Ha.
    + by apply H12.
  - constructor; [done|]. eapply Forall_impl; [exact Hb|]. simpl; intros; lia.
Qed.

(** *** The two scans and the index lookup *)

Lemma find_insertion_point_holds q r i (l : list RemediationCommand) :
  (forall x, x ∈ l -> q !! command_id x = Some x) ->
  find_insertion_point q r i (command_id <$> l) =
    inr (match behind r l with
         | [] => None
         | _ :: _ => Some (i + length (ahead r l))%nat
         end).
Proof.
  revert i. induction l as [|a l IH]; intros i Hq; simpl; [done|].
  rewrite (Hq a) by (by left). fold (rank a).
  destruct (r <? rank a); simpl.
  - do 2 f_equal. lia.
  - rewrite IH by (intros; apply Hq; by right).
    destruct (behind r l); [done|]. do 2 f_equal. lia.
Qed.

Lemma scan_conflicts_holds q tgt (l : list RemediationCommand) :
  (forall x, x ∈ l -> q !! command_id x = Some x) ->
  exists found, scan_conflicts q tgt (command_id <$> l) = inr found /\
    is_not_none found = existsb (fun x => String.eqb (target x) tgt) l.
Proof.
  induction l as [|a l IH]; intros Hq; simpl; [by exists None|].
  rewrite (Hq a) by (by left).
  destruct (String.eqb (target a) tgt); simpl.
  - by exists (Some (command_id a)).
  - apply IH. intros; apply Hq; by right.
Qed.

Lemma list_index_middle x (l1 l2 : list UUID) :
  x ∉ l1 -> list_index x (l1 ++ x :: l2) = Some (length l1).
Proof.
  induction l1 as [|y l1 IH]; intros Hx; simpl.
  - by rewrite N.eqb_refl.
  - apply not_elem_of_cons in Hx as [Hne Hx].
    destruct (N.eqb_spec y x); [congruence|]. by rewrite IH.
Qed.

Lemma list_index_elem x (l : list UUID) :
  x ∈ l -> exists i, list_index x l = Some i.
Proof.
  induction l as [|y l IH]; intros Hx; [by apply elem_of_nil in Hx|].
  simpl. destruct (N.eqb_spec y x); [by eexists|].
  apply elem_of_cons in Hx as [->|Hx]; [done|].
  destruct (IH Hx) as [i ->]. by eexists.
Qed.

Lemma list_insert_at_middle {A} (x : A) (l1 l2 : list A) :
  list_insert_at (length l1) x (l1 ++ l2) = l1 ++ x :: l2.
Proof.
  unfold list_insert_at. by rewrite take_app_length, drop_app_length.
Qed.

Lemma insertion_index r (l : list RemediationCommand) :
  default (length (command_id <$> l))
    (match behind r l with
     | [] => None
     | _ :: _ => Some (0 + length (ahead r l))%nat
     end) = length (command_id <$> ahead r l).
Proof.
  rewrite !length_fmap.
  destruct (behind r l) eqn:E; simpl; [|done].
  rewrite (ahead_behind r l) at 1. rewrite E, app_nil_r. done.
Qed.

Lemma insert_at_rank c (l : list RemediationCommand) :
  list_insert_at (length (command_id <$> ahead (rank c) l)) (command_id c)
    (command_id <$> l)
  = command_id <$> (ahead (rank c) l ++ c :: behind (rank c) l).
Proof.
  rewrite fmap_app, fmap_cons, <- list_insert_at_middle, <- fmap_app.
  by rewrite <- ahead_behind.
Qed.

(** *** One accepted [receive_command] call *)

Lemma receive_valid fresh payload self (l0 l1 : list RemediationCommand) c :
  model_validate_json fresh payload = inr c ->
  command_order self = command_id <$> l0 ->
  (forall x, x ∈ l0 -> command_queue self !! command_id x = Some x) ->
  command_id <$> l1 = command_id <$> l0 ->
  (forall x, x ∈ l1 ->
             <[command_id c := c]> (command_queue self) !! command_id x = Some x) ->
  exists pos,
    list_index (command_id c)
      (command_id <$> (ahead (rank c) l1 ++ c :: behind (rank c) l1)) = Some pos /\
    receive fresh payload self =
      (accepted (command_id c) (pos + 1) (same_target c l0),
       {| command_queue := <[command_id c := c]> (command_queue self);
          command_order :=
            command_id <$> (ahead (rank c) l1 ++ c :: behind (rank c) l1) |}).
Proof.
  intros Hv Ho Hq0 Hids Hq1.
  destruct (list_index_elem (command_id c)
              (command_id <$> (ahead (rank c) l1 ++ c :: behind (rank c) l1)))
    as [pos Hpos].
  { rewrite fmap_app, fmap_cons. apply elem_of_app. right. by left. }
  exists pos. split; [done|].
  destruct (scan_conflicts_holds (command_queue self) (target c) l0 Hq0)
    as (found & Hscan & Hfound).
  unfold receive, receive_command, try_except, _check_conflicts, _insert_by_priority,
    index_of, lift, modify, gets, raise, mbind, Py_bind, mret, Py_ret.
  rewrite Hv. cbn beta iota. cbn [command_queue command_order fst snd].
  rewrite Ho, Hscan. cbn beta iota.
  rewrite <- Hids, find_insertion_point_holds by done.
  fold (rank c). rewrite insertion_index, insert_at_rank.
  cbn [command_order]. rewrite Hpos.
  unfold same_target. by rewrite Hfound.
Qed.

Lemma queue_holds_lookup self l x :
  queue_holds self l -> x ∈ l -> command_queue self !! command_id x = Some x.
Proof. intros (_ & _ & Hq) Hx. by apply Hq. Qed.

Lemma queue_holds_init : queue_holds init [].
Proof.
  split; [done|]. split; [constructor|].
  intros id c. simpl. rewrite lookup_empty. split; [done|].
  intros [Hc _]. by apply elem_of_nil in Hc.
Qed.

Lemma queue_holds_insert self l c :
  queue_holds self l ->
  command_id c ∉ command_id <$> l ->
  queue_holds
    {| command_queue := <[command_id c := c]> (command_queue self);
       command_order := command_id <$> (ahead (rank c) l ++ c :: behind (rank c) l) |}
    (ahead (rank c) l ++ c :: behind (rank c) l).
Proof.
  intros (Ho & Hnd & Hq) Hfresh.
  assert (Hperm : ahead (rank c) l ++ c :: behind (rank c) l ≡ₚ c :: l).
  { rewrite (ahead_behind (rank c) l) at 3. by rewrite Permutation_middle. }
  split; [done|]. split.
  - rewrite Hperm, fmap_cons. by apply NoDup_cons.
  - intros id x. cbn [command_queue]. rewrite Hperm, elem_of_cons.
    destruct (decide (command_id c = id)) as [<-|Hne].
    + rewrite lookup_insert_eq. split.
      * intros [= ->]. by split; [left|].
      * intros [[->|Hx] Hid]; [done|].
        exfalso. apply Hfresh. rewrite <- Hid. by apply list_elem_of_fmap_2.
    + rewrite lookup_insert_ne by done. rewrite Hq. split.
      * intros [Hx Hid]. by split; [right|].
      * intros [[->|Hx] Hid]; [done|by split].
Qed.

Lemma receive_fresh fresh payload self l c :
  queue_holds self l ->
  model_validate_json fresh payload = inr c ->
  command_id c ∉ command_id <$> l ->
  receive fresh payload self =
    (accepted (command_id c) (length (ahead (rank c) l) + 1) (same_target c l),
     {| command_queue := <[command_id c := c]> (command_queue self);
        command_order := command_id <$> (ahead (rank c) l ++ c :: behind (rank c) l) |}).
Proof.
  intros Hh Hv Hfresh. pose proof Hh as (Ho & Hnd & Hq).
  destruct (receive_valid fresh payload self l l c Hv Ho) as (pos & Hpos & ->); try done.
  - intros x Hx. by apply (queue_holds_lookup self l).
  - intros x Hx. rewrite lookup_insert_ne.
    + by apply (queue_holds_lookup self l).
    + intros Heq. apply Hfresh. rewrite Heq. by apply list_elem_of_fmap_2.
  - rewrite fmap_app, fmap_cons, list_index_middle in Hpos.
    + injection Hpos as <-. by rewrite length_fmap.
    + intros Hin. apply Hfresh. rewrite (ahead_behind (rank c) l), fmap_app.
      apply elem_of_app. by left.
Qed.

(** *** Dequeuing *)

Lemma get_next_holds self c l :
  queue_holds self (c :: l) ->
  get_next_command self =
    (inr (Some c),
     {| command_queue := delete (command_id c) (command_queue self);
        command_order := command_id <$> l |}) /\
  queue_holds {| command_queue := delete (command_id c) (command_queue self);
                 command_order := command_id <$> l |} l.
Proof.
  intros (Ho & Hnd & Hq). unfold get_next_command.
  rewrite Ho, fmap_cons.
  assert (Hc : command_queue self !! command_id c = Some c) by (apply Hq; by split; [left|]).
  rewrite Hc. split; [done|].
  rewrite fmap_cons in Hnd. apply NoDup_cons in Hnd as [Hc_l Hnd].
  split; [done|]. split; [done|].
  intros id x. cbn [command_queue].
  destruct (decide (command_id c = id)) as [<-|Hne].
  - rewrite lookup_delete_eq. split; [done|].
    intros [Hx Hid]. exfalso. apply Hc_l. rewrite <- Hid. by apply list_elem_of_fmap_2.
  - rewrite lookup_delete_ne by done. rewrite Hq, elem_of_cons. split.
    + intros [[->|Hx] Hid]; [done|by split].
    + intros [Hx Hid]. by split; [right|].
Qed.

Lemma get_next_empty self :
  queue_holds self [] -> get_next_command self = (inr None, self).
Proof. intros (Ho & _). unfold get_next_command. by rewrite Ho. Qed.

Lemma dequeue_n_holds l : forall self,
  queue_holds self l -> dequeue_n (length l) self = inr <$> l.
Proof.
  induction l as [|c l IH]; intros self Hh; [done|].
  destruct (get_next_holds self c l Hh) as [Hget Hh'].
  simpl. rewrite Hget. f_equal. by apply IH.
Qed.

Lemma dequeue_all_holds self l :
  queue_holds self l -> dequeue_all self = inr <$> l.
Proof.
  intros Hh. unfold dequeue_all. destruct Hh as (Ho & ?).
  rewrite Ho, length_fmap. apply dequeue_n_holds. by split.
Qed.

Lemma queue_holds_size self l :
  queue_holds self l ->
  size (command_queue self) = length (command_order self) /\
  length (command_order self) = length l.
Proof.
  intros (Ho & Hnd & Hq). rewrite Ho, length_fmap. split; [|done].
  rewrite <- size_dom, <- (length_fmap command_id l).
  rewrite <- (size_list_to_set (C := gset UUID) (command_id <$> l)) by done.
  f_equal. apply set_eq. intros id.
  rewrite elem_of_dom, elem_of_list_to_set, list_elem_of_fmap. split.
  - intros [c Hc]. apply Hq in Hc as [Hc Hid]. by exists c.
  - intros (c & -> & Hc). exists c. by apply Hq.
Qed.

(** *** Stable order *)

Lemma by_rank_nil r l :
  Forall (fun y => rank y <> r) l -> by_rank r l = [].
Proof.
  induction 1 as [|y l Hy _ IH]; [done|].
  unfold by_rank in *. simpl. destruct (Z.eqb_spec (rank y) r); [done|apply IH].
Qed.

Lemma by_rank_insert r c l :
  sorted_by_priority l ->
  by_rank r (ahead (rank c) l ++ c :: behind (rank c) l) = by_rank r (l ++ [c]).
Proof.
  intros Hs. pose proof (behind_sorted (rank c) l Hs) as Hb.
  rewrite (ahead_behind (rank c) l) at 3.
  unfold by_rank. rewrite !List.filter_app. simpl.
  destruct (Z.eqb_spec (rank c) r) as [Hr|Hr]; [|by rewrite app_nil_r].
  fold (by_rank r (behind (rank c) l)). rewrite by_rank_nil; [by rewrite app_nil_r|].
  eapply Forall_impl; [exact Hb|]. simpl. intros; lia.
Qed.

Lemma sorted_decompose l : sorted_by_priority l -> l = by_priority l.
Proof.
  induction 1 as [|x l Hs IH Hx]; [done|].
  assert (Hlow : forall r, r < rank x -> by_rank r l = []).
  { intros r Hr. apply by_rank_nil. eapply Forall_impl; [exact Hx|]. simpl. intros; lia. }
  unfold by_priority in *. unfold by_rank at 1 2 3 4. simpl.
  fold (by_rank 0 l) (by_rank 1 l) (by_rank 2 l) (by_rank 3 l).
  destruct (priority_rank_cases (priority x)) as [Hr|[Hr|[Hr|Hr]]];
    fold (rank x) in Hr; rewrite Hr in *; simpl.
  - by rewrite <- IH.
  - rewrite (Hlow 0) in * by lia. simpl in *. by rewrite <- IH.
  - rewrite (Hlow 0), (Hlow 1) in * by lia. simpl in *. by rewrite <- IH.
  - rewrite (Hlow 0), (Hlow 1), (Hlow 2) in * by lia. simpl in *. by rewrite <- IH.
Qed.

Lemma receive_all_cons f p rest self :
  receive_all ((f, p) :: rest) self =
    (fst (receive f p self) :: fst (receive_all rest (snd (receive f p self))),
     snd (receive_all rest (snd (receive f p self)))).
Proof.
  simpl. unfold receive. destruct (receive_command f p self) as [[e|r] self1]; simpl;
    by destruct (receive_all rest self1).
Qed.

Lemma receive_all_holds inputs : forall cs self l arrived,
  validate_all inputs cs ->
  queue_holds self l ->
  sorted_by_priority l ->
  (forall r, by_rank r l = by_rank r arrived) ->
  NoDup ((command_id <$> l) ++ (command_id <$> cs)) ->
  Forall (fun r => is_accepted r = true) (fst (receive_all inputs self)) /\
  exists l',
    queue_holds (snd (receive_all inputs self)) l' /\
    sorted_by_priority l' /\
    forall r, by_rank r l' = by_rank r (arrived ++ cs).
Proof.
  induction inputs as [|[f p] inputs IH]; intros cs self l arrived Hv Hh Hs Hr Hnd.
  - inversion Hv; subst. simpl. split; [constructor|].
    exists l. rewrite app_nil_r. done.
  - inversion Hv as [|? c ? cs' Hc Hv']; subst. simpl in Hc.
    rewrite receive_all_cons.
    assert (Hfresh : command_id c ∉ command_id <$> l).
    { apply NoDup_app in Hnd as (_ & Hdisj & _). intros Hin.
      apply (Hdisj _ Hin). rewrite fmap_cons. by left. }
    rewrite (receive_fresh f p self l c Hh Hc Hfresh). cbn [fst snd].
    set (l1 := ahead (rank c) l ++ c :: behind (rank c) l).
    assert (Hperm : l1 ≡ₚ c :: l).
    { unfold l1. rewrite (ahead_behind (rank c) l) at 3. by rewrite Permutation_middle. }
    destruct (IH cs'
                {| command_queue := <[command_id c := c]> (command_queue self);
                   command_order := command_id <$> l1 |}
                l1 (arrived ++ [c])) as [Hacc (l' & Hh' & Hs' & Hr')].
    + done.
    + by apply queue_holds_insert.
    + by apply insert_sorted.
    + intros r. unfold l1. rewrite by_rank_insert by done.
      unfold by_rank. rewrite !List.filter_app. f_equal. apply Hr.
    + rewrite Hperm, fmap_cons. simpl.
      rewrite fmap_cons in Hnd.
      eapply NoDup_Permutation_proper; [|exact Hnd].
      rewrite <- Permutation_middle. done.
    + split; [by constructor|].
      exists l'. split; [done|]. split; [done|].
      intros r. rewrite Hr'. by rewrite <- app_assoc.
Qed.

Lemma by_priority_perm cs : by_priority cs ≡ₚ cs.
Proof.
  induction cs as [|x cs IH]; [done|].
  unfold by_priority, by_rank in *. simpl.
  destruct (priority_rank_cases (priority x)) as [Hr|[Hr|[Hr|Hr]]];
    fold (rank x) in Hr; rewrite Hr; simpl.
  - by rewrite IH.
  - by rewrite <- Permutation_middle, IH.
  - by rewrite (app_assoc _ _ (x :: _)), <- Permutation_middle, <- app_assoc, IH.
  - by rewrite !(app_assoc _ _ (x :: _)), <- Permutation_middle, <- !app_assoc, IH.
Qed.

Lemma receive_all_distinct inputs cs :
  validate_all inputs cs ->
  NoDup (command_id <$> cs) ->
  Forall (fun r => is_accepted r = true) (fst (receive_all inputs init)) /\
  queue_holds (snd (receive_all inputs init)) (by_priority cs).
Proof.
  intros Hv Hnd.
  destruct (receive_all_holds inputs cs init [] [] Hv queue_holds_init)
    as [Hacc (l' & Hh & Hs & Hr)]; [constructor|done|done|].
  split; [done|].
  replace (by_priority cs) with l'; [done|].
  rewrite (sorted_decompose l' Hs). unfold by_priority. by rewrite !Hr.
Qed.

(** *** Reachable states *)

Lemma receive_invalid fresh payload self e :
  model_validate_json fresh payload = inl e ->
  receive fresh payload self = (rejected e, self).
Proof.
  intros Hv. unfold receive, receive_command, try_except, lift, raise,
    mbind, Py_bind, mret, Py_ret. by rewrite Hv.
Qed.

Lemma reachable_holds self :
  reachable self -> exists l, queue_holds self l /\ sorted_by_priority l.
Proof.
  induction 1 as [|self fresh payload c _ (l & Hh & Hs) Hv Hfresh
                  |self fresh payload e _ IH Hv
                  |self _ (l & Hh & Hs)].
  - exists []. split; [apply queue_holds_init|constructor].
  - assert (Hfresh' : command_id c ∉ command_id <$> l)
      by (destruct Hh as (<- & _); done).
    rewrite (receive_fresh fresh payload self l c Hh Hv Hfresh'). cbn [snd].
    eexists. split; [by apply queue_holds_insert|by apply insert_sorted].
  - by rewrite (receive_invalid fresh payload self e Hv).
  - destruct l as [|c l].
    + rewrite (get_next_empty self Hh). by exists [].
    + destruct (get_next_holds self c l Hh) as [-> Hh']. cbn [snd].
      exists l. split; [done|]. by inversion Hs.
Qed.

(** *** Dequeuing from a queue whose list and map disagree *)

Lemma dequeue_n_cons n q x rest :
  dequeue_n (S n) {| command_queue := q; command_order := x :: rest |} =
    match q !! x with
    | None => inl (KeyError x) :: dequeue_n n {| command_queue := q; command_order := rest |}
    | Some c =>
        inr c :: dequeue_n n {| command_queue := delete x q; command_order := rest |}
    end.
Proof. simpl. unfold get_next_command. simpl. by destruct (q !! x). Qed.

Lemma dequeue_missing id order : forall q,
  id ∈ order -> q !! id = None ->
  In (inl (KeyError id))
     (dequeue_n (length order) {| command_queue := q; command_order := order |}).
Proof.
  induction order as [|x rest IH]; intros q Hin Hq; [by apply elem_of_nil in Hin|].
  cbn [length]. rewrite dequeue_n_cons.
  destruct (decide (x = id)) as [->|Hne].
  - rewrite Hq. by left.
  - apply elem_of_cons in Hin as [->|Hin]; [done|].
    destruct (q !! x); right; apply IH; try done.
    by rewrite lookup_delete_ne.
Qed.

Lemma dequeue_twice id (front : list UUID) : forall back q,
  id ∈ front ++ back ->
  In (inl (KeyError id))
     (dequeue_n (length (front ++ id :: back))
        {| command_queue := q; command_order := front ++ id :: back |}).
Proof.
  induction front as [|x front IH]; intros back q Hin.
  - cbn [app length]. rewrite dequeue_n_cons. simpl in Hin.
    destruct (q !! id); [|by left].
    right. apply dequeue_missing; [done|]. by rewrite lookup_delete_eq.
  - cbn [app length]. rewrite dequeue_n_cons.
    destruct (decide (x = id)) as [->|Hne].
    + destruct (q !! id) eqn:Hq; [|by left].
      right. apply dequeue_missing; [|by rewrite lookup_delete_eq].
      apply elem_of_app. right. by left.
    + assert (id ∈ front ++ back).
      { change ((x :: front) ++ back) with (x :: (front ++ back)) in Hin.
        apply elem_of_cons in Hin as [->|Hin]; done. }
      destruct (q !! x); right; by apply IH.
Qed.

Lemma dequeue_returns_stored c n : forall q order,
  In (inr c) (dequeue_n n {| command_queue := q; command_order := order |}) ->
  exists k, q !! k = Some c.
Proof.
  induction n as [|n IH]; intros q order Hin; [done|].
  destruct order as [|x rest]; [done|].
  rewrite dequeue_n_cons in Hin.
  destruct (q !! x) eqn:Hq; destruct Hin as [Heq|Hin]; try done.
  - injection Heq as ->. by exists x.
  - destruct (IH _ _ Hin) as [k Hk]. exists k.
    destruct (decide (x = k)) as [->|Hne].
    + by rewrite lookup_delete_eq in Hk.
    + by rewrite lookup_delete_ne in Hk.
  - by apply (IH _ _ Hin).
Qed.

(** *** A command that reuses a queued id *)

Lemma receive_reused fresh payload self l c :
  queue_holds self l ->
  model_validate_json fresh payload = inr c ->
  command_id c ∈ command_id <$> l ->
  exists pos front back,
    command_order self = front ++ back /\
    receive fresh payload self =
      (accepted (command_id c) pos (same_target c l),
       {| command_queue := <[command_id c := c]> (command_queue self);
          command_order := front ++ command_id c :: back |}).
Proof.
  intros Hh Hv Hin. pose proof Hh as (Ho & Hnd & Hq).
  set (l1 := replace_by c <$> l).
  assert (Hids : command_id <$> l1 = command_id <$> l).
  { unfold l1. rewrite <- list_fmap_compose. apply list_fmap_ext.
    intros i x _. unfold replace_by. simpl. by case_decide. }
  destruct (receive_valid fresh payload self l l1 c Hv Ho) as (pos & Hpos & Hr); try done.
  - intros x Hx. by apply (queue_holds_lookup self l).
  - intros x Hx. unfold l1 in Hx. apply list_elem_of_fmap in Hx as (y & -> & Hy).
    unfold replace_by. case_decide as Hid.
    + by rewrite lookup_insert_eq.
    + rewrite lookup_insert_ne by done. by apply (queue_holds_lookup self l).
  - exists (pos + 1)%nat, (command_id <$> ahead (rank c) l1),
      (command_id <$> behind (rank c) l1).
    split.
    + by rewrite Ho, <- Hids, <- fmap_app, <- ahead_behind.
    + by rewrite Hr, fmap_app, fmap_cons.
Qed.

End QueueFacts.

(* ===================================================================== *)
(** ** The queue claims                                                  *)
(* ===================================================================== *)

Module QueueClaims.
Import CommandReceiver QueueSpec QueueFacts.

(** C1 (as amended).  For every sequence of payloads that validate to
    commands with pairwise distinct ids, submitted to an empty queue: all
    are accepted, and the consumer receives all critical commands in
    arrival order, then the high, the medium and the low ones, with no
    error.  Each insertion puts the command immediately before the first
    queued entry of strictly greater rank (at the end if there is none),
    each [get_next_command] removes the front, and three commands arriving
    with priorities low, critical, medium leave in the order critical,
    medium, low. *)
Theorem dequeue_order_distinct_ids :
  (forall inputs cs,
      validate_all inputs cs ->
      NoDup (command_id <$> cs) ->
      Forall (fun r => is_accepted r = true) (fst (receive_all inputs init)) /\
      dequeue_all (snd (receive_all inputs init)) = inr <$> by_priority cs) /\
  (forall fresh payload self l c,
      queue_holds self l ->
      model_validate_json fresh payload = inr c ->
      command_id c ∉ command_id <$> l ->
      exists l1 l2,
        l = l1 ++ l2 /\
        Forall (fun x => rank x <= rank c) l1 /\
        (l2 = [] \/ exists x rest, l2 = x :: rest /\ rank c < rank x) /\
        queue_holds (snd (receive fresh payload self)) (l1 ++ c :: l2)) /\
  (forall self c l,
      queue_holds self (c :: l) ->
      exists self', get_next_command self = (inr (Some c), self') /\ queue_holds self' l) /\
  (forall inputs c1 c2 c3,
      validate_all inputs [c1; c2; c3] ->
      NoDup (command_id <$> [c1; c2; c3]) ->
      priority c1 = "low" -> priority c2 = "critical" -> priority c3 = "medium" ->
      dequeue_all (snd (receive_all inputs init)) = [inr c2; inr c3; inr c1]).
Proof.
  assert (Hmain : forall inputs cs,
             validate_all inputs cs ->
             NoDup (command_id <$> cs) ->
             Forall (fun r => is_accepted r = true) (fst (receive_all inputs init)) /\
             dequeue_all (snd (receive_all inputs init)) = inr <$> by_priority cs).
  { intros inputs cs Hv Hnd.
    destruct (receive_all_distinct inputs cs Hv Hnd) as [Hacc Hh].
    split; [done|]. by apply dequeue_all_holds. }
  split; [exact Hmain|]. split; [|split].
  - intros fresh payload self l c Hh Hv Hfresh.
    exists (ahead (rank c) l), (behind (rank c) l).
    split; [apply ahead_behind|]. split; [apply ahead_le|]. split; [apply behind_head|].
    rewrite (receive_fresh fresh payload self l c Hh Hv Hfresh). simpl.
    by apply queue_holds_insert.
  - intros self c l Hh. destruct (get_next_holds self c l Hh). eauto.
  - intros inputs c1 c2 c3 Hv Hnd H1 H2 H3.
    destruct (Hmain inputs _ Hv Hnd) as [_ ->].
    unfold by_priority, by_rank, rank. simpl. by rewrite H1, H2, H3.
Qed.

Lemma dequeue_order_distinct_ids_witness :
  dequeue_all
    (snd (receive_all [(0%N, payload id1 "low" "test1");
                       (0%N, payload id2 "critical" "test2");
                       (0%N, payload id3 "medium" "test3")] init))
  = [inr (command_of id2 "critical" "test2");
     inr (command_of id3 "medium" "test3");
     inr (command_of id1 "low" "test1")].
Proof.
  apply (proj2 (proj2 (proj2 dequeue_order_distinct_ids))
           [(0%N, payload id1 "low" "test1"); (0%N, payload id2 "critical" "test2");
            (0%N, payload id3 "medium" "test3")]).
  - repeat constructor.
  - apply (@bool_decide_unpack _ (NoDup_dec _)). vm_compute. exact I.
  - reflexivity.
  - reflexivity.
  - reflexivity.
Defined.

(** Counterexample to C1 as stated, without the distinct ids: a low
    command and then a critical command carrying the same [command_id] are
    both accepted, yet the consumer gets the critical command and then a
    [KeyError]; the low command is never returned. *)
Lemma dequeue_order_fails_on_reused_id :
  let inputs := [(0%N, payload id1 "low" "test1"); (0%N, payload id1 "critical" "test2")] in
  let c1 := command_of id1 "low" "test1" in
  let c2 := command_of id1 "critical" "test2" in
  validate_all inputs [c1; c2] /\
  Forall (fun r => is_accepted r = true) (fst (receive_all inputs init)) /\
  dequeue_all (snd (receive_all inputs init)) = [inr c2; inl (KeyError (command_id c1))] /\
  dequeue_all (snd (receive_all inputs init)) <> inr <$> by_priority [c1; c2].
Proof.
  cbv zeta. split; [repeat constructor|]. split; [|split].
  - vm_compute. repeat constructor.
  - vm_compute. reflexivity.
  - vm_compute. discriminate.
Qed.

(** C4.  A payload that fails validation is answered with [rejected] and
    the validation error, and the receiver is left exactly as it was: same
    order list, same command map, same queue size.  In particular a
    [config_change] payload whose parameters lack one of [section], [key],
    [value] is rejected that way. *)
Theorem rejection_is_atomic :
  (forall fresh payload self e,
      model_validate_json fresh payload = inl e ->
      receive_command fresh payload self = (inr (rejected e), self)) /\
  (forall fresh fields params self,
      dict_get "action_type" fields = Some (JStr "config_change") ->
      dict_get "parameters" fields = Some (JObj params) ->
      dict_has "section" params && dict_has "key" params && dict_has "value" params = false ->
      exists e,
        receive_command fresh (Some (JObj fields)) self = (inr (rejected e), self) /\
        get_queue_size (snd (receive_command fresh (Some (JObj fields)) self))
        = get_queue_size self).
Proof.
  assert (Hrej : forall fresh payload self e,
             model_validate_json fresh payload = inl e ->
             receive_command fresh payload self = (inr (rejected e), self)).
  { intros fresh payload self e Hv.
    unfold receive_command, try_except, lift, raise, mbind, Py_bind, mret, Py_ret.
    by rewrite Hv. }
  split; [exact Hrej|].
  intros fresh fields params self Ha Hp Hmissing.
  assert (exists e, model_validate_json fresh (Some (JObj fields)) = inl e) as [e He].
  { assert (Ha' : validate_literal "action_type"
                      ["config_change"; "os_reconfig"; "restart"] None fields
                    = inr "config_change")
      by (unfold validate_literal; by rewrite Ha).
    assert (Hp' : validate_parameters (Some "config_change") fields
                  = inl (err "parameters" "value_error")).
    { unfold validate_parameters, validate_parameters_by_action. rewrite Hp.
      change (String.eqb "config_change" "config_change") with true. cbv iota.
      by rewrite Hmissing. }
    unfold model_validate_json. rewrite Ha'. cbn [value_of]. rewrite Hp'.
    destruct (validate_command_id fresh fields), (validate_target fields);
      destruct (validate_literal "priority" _ _ fields), (validate_requester fields);
      by eexists. }
  exists e. by rewrite (Hrej _ _ _ _ He).
Qed.

Lemma rejection_is_atomic_witness :
  let incomplete :=
    Some (JObj [("action_type", JStr "config_change"); ("target", JStr "iris.cpf");
                ("parameters", JObj [("section", JStr "Startup"); ("key", JStr "globals")])]) in
  let self := snd (receive_all [(0%N, payload id1 "high" "iris.cpf")] init) in
  exists e, receive_command 7%N incomplete self = (inr (rejected e), self) /\
            get_queue_size (snd (receive_command 7%N incomplete self)) = get_queue_size self.
Proof.
  cbv zeta.
  apply (proj2 rejection_is_atomic 7%N _
           [("section", JStr "Startup"); ("key", JStr "globals")]);
    reflexivity.
Defined.

(** C5 (as amended).  In a queue all of whose accepted commands arrived
    with an id not queued at that moment: when a command is accepted while
    a command with exactly the same target string is queued, the response
    carries [conflicts = true] and the command is enqueued all the same;
    both commands are then in the queue, and the consumer receives the
    queue front to back in priority order, one command per call and with
    no error.  The flag is the result of scanning the queue as it is
    before the insertion, so it is set exactly when a queued command has
    that target, and a command never conflicts with itself. *)
Theorem same_target_conflict_distinct_ids :
  (forall fresh payload self c1 c2,
      reachable self ->
      command_queue self !! command_id c1 = Some c1 ->
      model_validate_json fresh payload = inr c2 ->
      target c2 = target c1 ->
      command_id c2 ∉ command_order self ->
      exists pos self' l',
        receive fresh payload self = (accepted (command_id c2) pos true, self') /\
        dequeue_all self' = inr <$> l' /\
        sorted_by_priority l' /\
        c1 ∈ l' /\ c2 ∈ l') /\
  (forall fresh payload self l c,
      queue_holds self l ->
      model_validate_json fresh payload = inr c ->
      command_id c ∉ command_id <$> l ->
      conflict_flag (fst (receive fresh payload self)) = Some (same_target c l)) /\
  (forall fresh payload c,
      model_validate_json fresh payload = inr c ->
      conflict_flag (fst (receive fresh payload init)) = Some false).
Proof.
  assert (Hflag : forall fresh payload self l c,
             queue_holds self l ->
             model_validate_json fresh payload = inr c ->
             command_id c ∉ command_id <$> l ->
             conflict_flag (fst (receive fresh payload self)) = Some (same_target c l)).
  { intros fresh payload self l c Hh Hv Hfresh.
    by rewrite (receive_fresh fresh payload self l c Hh Hv Hfresh). }
  split; [|split; [exact Hflag|]].
  - intros fresh payload self c1 c2 Hreach Hc1 Hv Ht Hfresh.
    destruct (reachable_holds self Hreach) as (l & Hh & Hs).
    pose proof Hh as (Ho & _ & Hq).
    apply Hq in Hc1 as [Hc1 _]. rewrite Ho in Hfresh.
    rewrite (receive_fresh fresh payload self l c2 Hh Hv Hfresh).
    assert (Hsame : same_target c2 l = true).
    { unfold same_target. apply existsb_exists. exists c1.
      split; [by apply list_elem_of_In|]. rewrite Ht. apply String.eqb_refl. }
    rewrite Hsame.
    assert (Hperm : ahead (rank c2) l ++ c2 :: behind (rank c2) l ≡ₚ c2 :: l).
    { rewrite (ahead_behind (rank c2) l) at 3. by rewrite Permutation_middle. }
    eexists _, _, (ahead (rank c2) l ++ c2 :: behind (rank c2) l).
    split; [reflexivity|].
    pose proof (queue_holds_insert self l c2 Hh Hfresh) as Hh'.
    split; [by apply dequeue_all_holds|]. split; [by apply insert_sorted|].
    split; [rewrite Hperm; by right|rewrite Hperm; by left].
  - intros fresh payload c Hv.
    rewrite (Hflag fresh payload init [] c queue_holds_init Hv); [done|].
    apply not_elem_of_nil.
Qed.

Lemma same_target_conflict_distinct_ids_witness :
  let self := snd (receive 0%N (payload id1 "medium" "iris.cpf") init) in
  exists pos self' l',
    receive 0%N (payload id2 "high" "iris.cpf") self
    = (accepted (command_id (command_of id2 "high" "iris.cpf")) pos true, self') /\
    dequeue_all self' = inr <$> l' /\
    sorted_by_priority l' /\
    command_of id1 "medium" "iris.cpf" ∈ l' /\
    command_of id2 "high" "iris.cpf" ∈ l'.
Proof.
  cbv zeta.
  apply (proj1 same_target_conflict_distinct_ids 0%N (payload id2 "high" "iris.cpf")).
  - apply (reachable_receive init 0%N (payload id1 "medium" "iris.cpf")
             (command_of id1 "medium" "iris.cpf") reachable_init).
    + reflexivity.
    + apply not_elem_of_nil.
  - reflexivity.
  - reflexivity.
  - reflexivity.
  - intros Hin. apply list_elem_of_In in Hin. vm_compute in Hin.
    destruct Hin as [Hin|[]]. discriminate Hin.
Defined.

(** Counterexample to C5 as stated, for every pair of accepted commands:
    two accepted commands with the same target and the same [command_id]
    get the conflict flag on the second, but the consumer gets the second
    command and then a [KeyError]; the first is not retrievable. *)
Lemma same_target_pair_reused_id :
  let inputs := [(0%N, payload id1 "low" "iris.cpf"); (0%N, payload id1 "high" "iris.cpf")] in
  let c1 := command_of id1 "low" "iris.cpf" in
  let c2 := command_of id1 "high" "iris.cpf" in
  validate_all inputs [c1; c2] /\
  target c1 = target c2 /\
  fst (receive_all inputs init)
  = [accepted (command_id c1) 1 false; accepted (command_id c2) 1 true] /\
  dequeue_all (snd (receive_all inputs init)) = [inr c2; inl (KeyError (command_id c1))] /\
  ~ In (inr c1) (dequeue_all (snd (receive_all inputs init))).
Proof.
  cbv zeta. split; [repeat constructor|]. split; [reflexivity|]. split; [|split].
  - vm_compute. reflexivity.
  - vm_compute. reflexivity.
  - vm_compute. intros [H|[H|[]]]; discriminate H.
Qed.



End QueueClaims.

(* ===================================================================== *)
(** ** Theorems about the configuration store                            *)
(* ===================================================================== *)

Module StoreFacts.
Import ConfigStore StoreSpec.

(** *** Inversion of the monad's operations *)

Lemma bind_ok {W A B} (m : Py W A) (k : A -> Py W B) w a w1 :
  m w = (inr a, w1) -> (m ≫= k) w = k a w1.
Proof. intros Hm. unfold mbind, Py_bind. by rewrite Hm. Qed.

Lemma bind_raise {W A B} (m : Py W A) (k : A -> Py W B) w e w1 :
  m w = (inl e, w1) -> (m ≫= k) w = (inl e, w1).
Proof. intros Hm. unfold mbind, Py_bind. by rewrite Hm. Qed.

Section Store.
Context `{ConfigParserLib}.

Lemma log_event_eq ev w : log_event ev w = (inr tt, set_log (log w ++ [ev]) w).
Proof. done. Qed.

(** *** [restore_backup] *)

Lemma restore_backup_eq path w :
  restore_backup path w =
    match backups w !! path with
    | Some text =>
        if cpf_writable w
        then (inr true,
              set_log (log w ++ [cpf_restore_success path]) (set_cpf_file (Some text) w))
        else (inr false,
              set_log (log w ++ [cpf_restore_failed path (OSError "Permission denied")]) w)
    | None =>
        (inr false,
         set_log (log w ++ [cpf_restore_failed path (OSError "No such file or directory")]) w)
    end.
Proof.
  unfold restore_backup, try_except, copy_from_backup, mbind, Py_bind.
  destruct (backups w !! path); [|done]. by destruct (cpf_writable w).
Qed.

Lemma restore_backup_total path w :
  exists (outcome : bool) ev,
    restore_backup path w
    = (inr outcome, set_log (log w ++ [ev])
                      (if outcome then set_cpf_file (backups w !! path) w else w)) /\
    restore_event path ev /\
    (outcome = true <-> is_Some (backups w !! path) /\ cpf_writable w = true).
Proof.
  rewrite restore_backup_eq.
  destruct (backups w !! path) as [text|] eqn:Hb; [destruct (cpf_writable w) eqn:Hw|].
  - exists true, (cpf_restore_success path). split; [done|]. split; [by left|].
    split; [eauto|done].
  - exists false, (cpf_restore_failed path (OSError "Permission denied")).
    split; [done|]. split; [right; eauto|]. split; [done|]. by intros [_ ?].
  - exists false, (cpf_restore_failed path (OSError "No such file or directory")).
    split; [done|]. split; [right; eauto|]. split; [done|].
    intros [[? ?] _]. done.
Qed.

(** *** Reading and validating touch only the log *)

Lemma read_setting_eq section key w :
  exists ev,
    read_setting section key w
    = (inr (read_value section key (cpf_file w)), set_log (log w ++ [ev]) w).
Proof.
  unfold read_setting, read_value, try_except, read_config, lift, log_event, modify,
    raise, mbind, Py_bind, mret, Py_ret.
  destruct (cpf_file w) as [text|]; [destruct (parse text new_parser) as [e|config]|];
    repeat case_match; simplify_eq; by eexists.
Qed.

Lemma validate_cpf_eq w :
  exists ev,
    validate_cpf w = (inr (well_formed (cpf_file w)), set_log (log w ++ [ev]) w).
Proof.
  unfold validate_cpf, well_formed, try_except, read_config, log_event, modify,
    mbind, Py_bind, mret, Py_ret.
  destruct (cpf_file w) as [text|]; [destruct (parse text new_parser) as [e|config]|];
    by eexists.
Qed.

(** *** [create_backup] and the steps after it *)

Lemma create_backup_eq self w :
  create_backup self w =
    match cpf_file w with
    | None => (inl (OSError "No such file or directory"), w)
    | Some text =>
        if backups_writable w
        then (inr (backup_path_of self w),
              set_backups (<[backup_path_of self w := text]> (backups w)) w)
        else (inl (OSError "Permission denied"), w)
    end.
Proof.
  unfold create_backup, copy_to_backup, backup_path_of, gets, mbind, Py_bind, mret, Py_ret.
  destruct (cpf_file w); [|done]. by destruct (backups_writable w).
Qed.

Lemma create_backup_raises self w e w1 :
  create_backup self w = (inl e, w1) -> w1 = w.
Proof.
  rewrite create_backup_eq. repeat case_match; by intros [= <- <-].
Qed.

Lemma backup_path_truthy self w : truthy (Some (backup_path_of self w)) = true.
Proof.
  unfold truthy, backup_path_of. destruct (backup_dir self); [done|done].
Qed.

Lemma write_steps_raises section key value bp w e w' :
  write_steps section key value bp w = (inl e, w') ->
  w' = w \/ (cpf_writable w = true /\ exists text, w' = set_cpf_file (Some text) w).
Proof.
  unfold write_steps, read_config, write_file, lift, log_event, modify, raise,
    mbind, Py_bind, mret, Py_ret.
  repeat case_match; simplify_eq; try done; intros [= <- <-]; eauto.
Qed.

Lemma write_steps_returns section key value bp w r w' :
  write_steps section key value bp w = (inr r, w') ->
  r = (true, bp) /\ cpf_writable w = true /\
  exists config old,
    w' = set_log (log w ++ [cpf_write_success section key old value bp])
           (set_cpf_file (Some (write config)) w).
Proof.
  unfold write_steps, read_config, write_file, lift, log_event, modify, raise,
    mbind, Py_bind, mret, Py_ret.
  repeat case_match; simplify_eq; intros [= <- <-]; eauto.
Qed.

(** *** [write_setting] *)

Lemma write_setting_no_backup self section key value w e w1 :
  create_backup self w = (inl e, w1) ->
  write_setting self section key value true w
  = (inr (false, None), set_log (log w ++ [cpf_write_failed section key value e]) w).
Proof.
  intros Hb. pose proof (create_backup_raises self w e w1 Hb) as ->.
  unfold write_setting, take_backup. rewrite (bind_raise _ _ _ _ _ Hb).
  done.
Qed.

Lemma write_failed_with_backup self section key value w0 e w :
  write_failed section key value (Some (backup_path_of self w0)) e w
  = (inr (false, Some (backup_path_of self w0)),
     snd (restore_backup (backup_path_of self w0)
            (set_log (log w ++ [cpf_write_failed section key value e]) w))).
Proof.
  unfold write_failed. rewrite backup_path_truthy.
  unfold log_event, modify, mbind, Py_bind, mret, Py_ret.
  destruct (restore_backup_total (backup_path_of self w0)
              (set_log (log w ++ [cpf_write_failed section key value e]) w))
    as (outcome & ev & -> & _). done.
Qed.

Lemma write_setting_after_backup self section key value w path w1 :
  create_backup self w = (inr path, w1) ->
  path = backup_path_of self w /\
  write_setting self section key value true w =
    match write_steps section key value (Some path)
            (set_log (log w1 ++ [cpf_backup_created path]) w1) with
    | (inr r, w2) => (inr r, w2)
    | (inl e, w2) =>
        (inr (false, Some path),
         snd (restore_backup path
                (set_log (log w2 ++ [cpf_write_failed section key value e]) w2)))
    end.
Proof.
  intros Hb.
  assert (Hpath : path = backup_path_of self w).
  { rewrite create_backup_eq in Hb. repeat case_match; by simplify_eq. }
  split; [done|]. subst path.
  unfold write_setting, take_backup. rewrite (bind_ok _ _ _ _ _ Hb).
  unfold log_event, modify, mbind, Py_bind, mret, Py_ret, try_except.
  destruct (write_steps _ _ _ _ _) as [[e|r] w2]; [|done].
  apply write_failed_with_backup.
Qed.

End Store.

End StoreFacts.

(* ===================================================================== *)
(** ** The configuration store claims                                    *)
(* ===================================================================== *)

Module StoreClaims.
Import ConfigStore StoreSpec StoreFacts.

Section Store.
Context `{ConfigParserLib}.

(** C2.  [write_setting] with [create_backup=True] is rollback-safe.  When
    the snapshot itself raises, the call returns [(False, None)], logs the
    failure and changes nothing else: the live file and the backups are
    untouched and no restore is attempted.  When the snapshot was taken
    and a later step (read, modify, persist) raises, [restore_backup] is
    called with the path of that snapshot before [(False, path)] is
    returned, and the live file holds what it held before the call.  The
    call itself never raises. *)
Theorem write_setting_rollback_safe :
  (forall self section key value w e w1,
      create_backup self w = (inl e, w1) ->
      write_setting self section key value true w
      = (inr (false, None), set_log (log w ++ [cpf_write_failed section key value e]) w)) /\
  (forall self section key value w path w1 e w2,
      create_backup self w = (inr path, w1) ->
      write_steps section key value (Some path)
        (set_log (log w1 ++ [cpf_backup_created path]) w1) = (inl e, w2) ->
      exists outcome ev w',
        restore_backup path (set_log (log w2 ++ [cpf_write_failed section key value e]) w2)
        = (inr outcome, w') /\
        write_setting self section key value true w = (inr (false, Some path), w') /\
        log w' = log w ++ [cpf_backup_created path; cpf_write_failed section key value e; ev] /\
        restore_event path ev /\
        cpf_file w' = cpf_file w) /\
  (forall self section key value w,
      exists ok bp w',
        write_setting self section key value true w = (inr (ok, bp), w')).
Proof.
  split; [|split].
  - intros self section key value w e w1. apply write_setting_no_backup.
  - intros self section key value w path w1 e w2 Hb Hsteps.
    destruct (write_setting_after_backup self section key value w path w1 Hb) as [Hpath Hw].
    rewrite Hsteps in Hw.
    destruct (restore_backup_total path
                (set_log (log w2 ++ [cpf_write_failed section key value e]) w2))
      as (outcome & ev & Hr & Hev & Hout).
    eexists outcome, ev, _. split; [exact Hr|].
    rewrite Hr in Hw. split; [exact Hw|]. split; [|split; [done|]].
    + rewrite create_backup_eq in Hb.
      destruct (cpf_file w) as [text|] eqn:Hfile; [|by simplify_eq].
      destruct (backups_writable w); simplify_eq.
      apply write_steps_raises in Hsteps as [->|(_ & partial & ->)];
        simpl; by rewrite <- !app_assoc.
    + rewrite create_backup_eq in Hb.
      destruct (cpf_file w) as [text|] eqn:Hfile; [|by simplify_eq].
      destruct (backups_writable w); simplify_eq.
      apply write_steps_raises in Hsteps as [->|(Hwritable & partial & ->)].
      * destruct outcome; simpl; [|done]. by rewrite lookup_insert_eq.
      * assert (outcome = true) as ->.
        { apply Hout. simpl. rewrite lookup_insert_eq. split; [eauto|done]. }
        simpl. by rewrite lookup_insert_eq.
  - intros self section key value w.
    destruct (create_backup self w) as [[e|path] w1] eqn:Hb.
    + rewrite (write_setting_no_backup _ _ _ _ _ _ _ Hb). by eexists _, _, _.
    + destruct (write_setting_after_backup self section key value w path w1 Hb) as [_ ->].
      destruct (write_steps _ _ _ _ _) as [[e|r] w2] eqn:Hsteps.
      * by eexists _, _, _.
      * apply write_steps_returns in Hsteps as (-> & _). by eexists _, _, _.
Qed.

Lemma string_in_In s l : string_in s l = true <-> In s l.
Proof.
  unfold string_in. rewrite existsb_exists. split.
  - intros (x & Hx & Heq). apply String.eqb_eq in Heq. by subst.
  - intros Hin. exists s. split; [done|apply String.eqb_refl].
Qed.

(** C7.  [requires_restart] is a pure function of two static sets: in
    every world it returns the same answer and only adds one log entry,
    and the answer is [True] exactly when the section is [Startup] or
    [config] or the lower-cased key is one of [globals], [routines],
    [gmheap], [locksiz], [genericheap], [wijdir], [database]; every other
    pair gives [False].  So ("Startup", "anything") and ("config",
    "anything") and ("Other", "globals") require a restart, also with the
    key spelled in capitals, and ("Other", "unrelated") does not. *)
Theorem requires_restart_rule :
  (forall section key w,
      exists (b : bool) ev,
        requires_restart section key w = (inr b, set_log (log w ++ [ev]) w) /\
        (b = true <-> restart_rule section key)) /\
  (forall section key w w',
      fst (requires_restart section key w) = fst (requires_restart section key w')) /\
  (forall w,
      fst (requires_restart "Startup" "anything" w) = inr true /\
      fst (requires_restart "config" "anything" w) = inr true /\
      fst (requires_restart "Other" "globals" w) = inr true /\
      fst (requires_restart "Other" "GLOBALS" w) = inr true /\
      fst (requires_restart "Other" "unrelated" w) = inr false).
Proof.
  split; [|split].
  - intros section key w. unfold requires_restart, restart_rule.
    destruct (string_in section restart_sections) eqn:Hs.
    + exists true, (restart_required_section section key). split; [done|].
      split; [|done]. intros _. left. by apply string_in_In.
    + destruct (string_in (lower key) restart_keys) eqn:Hk.
      * exists true, (restart_required_key section key). split; [done|].
        split; [|done]. intros _. right. by apply string_in_In.
      * exists false, (restart_not_required section key). split; [done|].
        split; [done|]. intros [Hin|Hin]; apply string_in_In in Hin.
        -- unfold restart_sections in Hs. congruence.
        -- unfold restart_keys in Hk. congruence.
  - intros section key w w'. unfold requires_restart.
    by destruct (string_in section restart_sections),
         (string_in (lower key) restart_keys).
  - intros w. by repeat split.
Qed.

(** C3.  Rollback round trip of the handler.  For a [config_change]
    whose [write_setting] succeeds and whose following [validate_cpf]
    fails, the handler restores the backup that write has just created
    (the restore succeeds), returns a failure response with the message
    "CPF validation failed, changes rolled back", the old value and the
    backup path, and leaves the live file as it was before the call: a
    following [read_setting] of the same section and key returns the
    pre-write value. *)
Theorem config_handler_rollback self fresh input w command section key value bp w2 w3 :
  model_validate_json fresh input = inr command ->
  dict_get "section" (parameters command) = Some (JStr section) ->
  dict_get "key" (parameters command) = Some (JStr key) ->
  dict_get "value" (parameters command) = Some (JStr value) ->
  write_setting self section key value true (before_write section key value w)
  = (inr (true, bp), w2) ->
  validate_cpf w2 = (inr false, w3) ->
  exists path w',
    bp = Some path /\
    _execute_impl self fresh input w
    = (inr {| success := false; section := section; key := key;
              old_value := read_value section key (cpf_file w);
              new_value := value; requires_restart_flag := false;
              backup_path := Some path;
              error_message := Some "CPF validation failed, changes rolled back" |},
       w') /\
    log w' = log w3 ++ [cpf_restore_success path] /\
    cpf_file w' = cpf_file w /\
    fst (read_setting section key w') = fst (read_setting section key w) /\
    fst (read_setting section key w') = inr (read_value section key (cpf_file w)).
Proof.
  intros Hv Hs Hk Hval Hwrite Hvalid.
  unfold before_write in Hwrite. rewrite log_event_eq in Hwrite. cbn [snd] in Hwrite.
  set (w0 := set_log (log w ++ [config_change_start section key value]) w) in *.
  destruct (read_setting_eq section key w0) as [ev0 Hread].
  rewrite Hread in Hwrite. cbn [snd] in Hwrite.
  set (wb := set_log (log w0 ++ [ev0]) w0) in *.
  destruct (create_backup self wb) as [[e|path] w1] eqn:Hb.
  { rewrite (write_setting_no_backup _ _ _ _ _ _ _ Hb) in Hwrite. by simplify_eq. }
  destruct (write_setting_after_backup self section key value wb path w1 Hb) as [Hpath Hw].
  rewrite Hw in Hwrite.
  destruct (write_steps _ _ _ _ _) as [[e|r] ws] eqn:Hsteps; [by simplify_eq|].
  apply write_steps_returns in Hsteps as (-> & Hwritable & config & old & ->).
  injection Hwrite as <- <-.
  rewrite create_backup_eq in Hb.
  destruct (cpf_file wb) as [text|] eqn:Hfile; [|by simplify_eq].
  destruct (backups_writable wb); [|by simplify_eq].
  injection Hb as _ <-. rewrite <- Hpath in *.
  match type of Hvalid with validate_cpf ?x = _ => set (wv := x) in * end.
  destruct (validate_cpf_eq wv) as [ev1 Hvalid'].
  rewrite Hvalid' in Hvalid.
  assert (Hwf : well_formed (cpf_file wv) = false) by by injection Hvalid.
  assert (Hw3 : w3 = set_log (log wv ++ [ev1]) wv) by by injection Hvalid.
  clear Hvalid. subst w3.
  assert (Htruthy : truthy (Some path) = true)
    by (rewrite Hpath; apply backup_path_truthy).
  assert (Hrestore : restore_backup path (set_log (log wv ++ [ev1]) wv)
                     = (inr true,
                        set_log (log (set_log (log wv ++ [ev1]) wv)
                                   ++ [cpf_restore_success path])
                          (set_cpf_file (Some text) (set_log (log wv ++ [ev1]) wv)))).
  { rewrite restore_backup_eq. cbn. rewrite lookup_insert_eq.
    cbn in Hwritable. by rewrite Hwritable. }
  assert (Hsame : cpf_file w = Some text) by exact Hfile.
  exists path. eexists. split; [done|]. split; [|split; [|split; [|split]]].
  - unfold _execute_impl, string_parameter, ConfigStore.lift.
    rewrite Hv. unfold mbind at 1, Py_bind at 1, mret at 1, Py_ret at 1.
    rewrite Hs. unfold mbind at 1, Py_bind at 1, mret at 1, Py_ret at 1.
    rewrite Hk. unfold mbind at 1, Py_bind at 1, mret at 1, Py_ret at 1.
    rewrite Hval. unfold mbind at 1, Py_bind at 1, mret at 1, Py_ret at 1.
    unfold mbind at 1, Py_bind at 1. rewrite log_event_eq. fold w0.
    unfold mbind at 1, Py_bind at 1. rewrite Hread. fold wb.
    unfold mbind at 1, Py_bind at 1. rewrite Hw.
    cbn [negb]. cbv iota.
    unfold mbind at 1, Py_bind at 1. change (validate_cpf _) with (validate_cpf wv).
    rewrite Hvalid', Hwf. cbn [negb]. cbv iota. rewrite Htruthy.
    unfold mbind at 1, Py_bind at 1. unfold mbind at 1, Py_bind at 1.
    rewrite Hrestore. reflexivity.
  - reflexivity.
  - by rewrite Hsame.
  - destruct (read_setting_eq section key w) as [eva ->].
    match goal with |- fst (read_setting _ _ ?x) = _ =>
      destruct (read_setting_eq section key x) as [evb ->] end.
    cbn [fst]. do 2 f_equal. by rewrite Hsame.
  - match goal with |- fst (read_setting _ _ ?x) = _ =>
      destruct (read_setting_eq section key x) as [evb ->] end.
    cbn [fst]. do 2 f_equal. by rewrite Hsame.
Qed.


End Store.

(** [write_setting_rollback_safe] on the sample file: [DEFAULT] is not a
    section name [add_section] accepts, so the modify step raises after
    the snapshot was taken. *)
Lemma write_setting_rollback_safe_witness :
  let w := Ini.sample_world in
  let path := "/usr/irissys/backups/iris.cpf.backup.20260206_101500" in
  let w1 := snd (create_backup Ini.manager w) in
  let w2 := set_log (log w1 ++ [cpf_backup_created path]) w1 in
  let e := ValueError "Invalid section name" in
  exists outcome ev w',
    restore_backup path
      (set_log (log w2 ++ [cpf_write_failed "DEFAULT" "globals" "20000" e]) w2)
    = (inr outcome, w') /\
    write_setting Ini.manager "DEFAULT" "globals" "20000" true w
    = (inr (false, Some path), w') /\
    log w' = log w ++ [cpf_backup_created path;
                       cpf_write_failed "DEFAULT" "globals" "20000" e; ev] /\
    restore_event path ev /\
    cpf_file w' = cpf_file w.
Proof.
  cbv zeta.
  apply (proj1 (proj2 write_setting_rollback_safe) Ini.manager "DEFAULT" "globals" "20000"
           Ini.sample_world _ (snd (create_backup Ini.manager Ini.sample_world))).
  - reflexivity.
  - reflexivity.
Defined.

(** [requires_restart_rule] on the sample machine, with the key in
    capitals. *)
Lemma requires_restart_rule_witness :
  exists (b : bool) ev,
    requires_restart "Other" "GLOBALS" Ini.sample_world
    = (inr b, set_log (log Ini.sample_world ++ [ev]) Ini.sample_world) /\
    (b = true <-> restart_rule "Other" "GLOBALS").
Proof.
  apply (proj1 requires_restart_rule "Other" "GLOBALS" Ini.sample_world).
Defined.

(** [config_handler_rollback] on the sample file: the new section name
    contains a line break, the file written with it does not parse, and
    the handler rolls back. *)
Lemma config_handler_rollback_witness :
  let input := Ini.config_change Ini.broken_section "globals" "20000" in
  let w := Ini.sample_world in
  let w2 := snd (write_setting Ini.manager Ini.broken_section "globals" "20000" true
                   (before_write Ini.broken_section "globals" "20000" w)) in
  let w3 := snd (validate_cpf w2) in
  exists path w',
    Some "/usr/irissys/backups/iris.cpf.backup.20260206_101500" = Some path /\
    _execute_impl Ini.manager 7%N input w
    = (inr {| success := false; section := Ini.broken_section; key := "globals";
              old_value := read_value Ini.broken_section "globals" (cpf_file w);
              new_value := "20000"; requires_restart_flag := false;
              backup_path := Some path;
              error_message := Some "CPF validation failed, changes rolled back" |},
       w') /\
    log w' = log w3 ++ [cpf_restore_success path] /\
    cpf_file w' = cpf_file w /\
    fst (read_setting Ini.broken_section "globals" w')
    = fst (read_setting Ini.broken_section "globals" w) /\
    fst (read_setting Ini.broken_section "globals" w')
    = inr (read_value Ini.broken_section "globals" (cpf_file w)).
Proof.
  cbv zeta.
  eapply (config_handler_rollback Ini.manager 7%N
            (Ini.config_change Ini.broken_section "globals" "20000") Ini.sample_world).
  - reflexivity.
  - reflexivity.
  - reflexivity.
  - reflexivity.
  - reflexivity.
  - reflexivity.
Defined.

End StoreClaims.

(* ===================================================================== *)
(** ** The router claims                                                 *)
(* ===================================================================== *)

Module RouterClaims.
Import Orchestrator RouterSpec.

Section Router.
Variable model_dump_json : RemediationCommand -> string.

(** C6.  The rule-based router implements the fixed table: [config_change]
    goes to agent [config] with risk [medium], [os_reconfig] to [os] with
    risk [high], [restart] to [restart] with risk [high], any other action
    type to [none] with risk [medium]; [requires_validation] is true
    exactly when the computed risk is not [low] (which it never is), and
    the rationale names the action type and the chosen agent. *)
Theorem rule_based_routing_table command :
  let r := _route_with_rules model_dump_json command in
  (action_type command = "config_change" ->
   agent_type r = "config" /\ estimated_risk r = "medium") /\
  (action_type command = "os_reconfig" ->
   agent_type r = "os" /\ estimated_risk r = "high") /\
  (action_type command = "restart" ->
   agent_type r = "restart" /\ estimated_risk r = "high") /\
  (~ In (action_type command) ["config_change"; "os_reconfig"; "restart"] ->
   agent_type r = "none" /\ estimated_risk r = "medium") /\
  (requires_validation r = true <-> estimated_risk r <> "low") /\
  requires_validation r = true /\
  rationale r = "Rule-based routing: " +:+ action_type command +:+ " maps to "
                  +:+ agent_type r +:+ " agent" /\
  command_str r = model_dump_json command.
Proof.
  cbv zeta. unfold _route_with_rules, agent_map, risk_map.
  cbn [agent_type estimated_risk requires_validation rationale command_str].
  split; [by intros ->|]. split; [by intros ->|]. split; [by intros ->|].
  split.
  { intros Hn.
    destruct (String.eqb_spec (action_type command) "config_change") as [Heq|_];
      [exfalso; apply Hn; rewrite Heq; simpl; tauto|].
    destruct (String.eqb_spec (action_type command) "os_reconfig") as [Heq|_];
      [exfalso; apply Hn; rewrite Heq; simpl; tauto|].
    destruct (String.eqb_spec (action_type command) "restart") as [Heq|_];
      [exfalso; apply Hn; rewrite Heq; simpl; tauto|].
    done. }
  assert (Hrisk : default "medium"
                    (if String.eqb (action_type command) "config_change" then Some "medium"
                     else if String.eqb (action_type command) "os_reconfig" then Some "high"
                     else if String.eqb (action_type command) "restart" then Some "high"
                     else None) <> "low").
  { by repeat case_match. }
  assert (Hvalid : (if negb (String.eqb
                              (default "medium"
                                 (if String.eqb (action_type command) "config_change"
                                  then Some "medium"
                                  else if String.eqb (action_type command) "os_reconfig"
                                       then Some "high"
                                       else if String.eqb (action_type command) "restart"
                                            then Some "high" else None)) "low")
                    then true else false) = true).
  { by repeat case_match. }
  split; [done|]. done.
Qed.

Lemma validate_action_type fresh fresh' input c :
  model_validate_json fresh input = inr c ->
  exists c', model_validate_json fresh' input = inr c' /\
             action_type c' = action_type c.
Proof.
  unfold model_validate_json.
  destruct input as [[| | | | |fields]|]; try done.
  assert (Hid : (exists u u', validate_command_id fresh fields = inr u /\
                              validate_command_id fresh' fields = inr u') \/
                (exists e, validate_command_id fresh fields = inl e)).
  { unfold validate_command_id. repeat case_match; eauto. }
  destruct Hid as [(u & u' & -> & ->)|[e ->]]; [|by repeat case_match].
  repeat case_match; try done. intros [= <-]. by eexists.
Qed.

Lemma execute_impl_fallback fresh input w command :
  model_validate_json fresh input = inr command ->
  classifier_raises w = true ->
  _execute_impl model_dump_json fresh input w
  = (inr (_route_with_rules model_dump_json command),
     {| llm_replies := tail (llm_replies w) |}).
Proof.
  intros Hv Hraises. unfold _execute_impl, try_except, _route_with_llm. rewrite Hv.
  unfold classifier_raises in Hraises. destruct w as [[|[e|r] rest]]; simpl in *; done.
Qed.

(** C9 (as amended).  Routing the same command twice gives the same agent
    type and the same risk both times whenever the advisory classifier
    raises at both calls, so that both decisions come from the rule table;
    for a restart command both are agent [restart] with risk [high]. *)
Theorem routing_idempotent_on_rule_path fresh1 fresh2 input w command :
  model_validate_json fresh1 input = inr command ->
  classifier_raises w = true ->
  classifier_raises (snd (_execute_impl model_dump_json fresh1 input w)) = true ->
  exists r1 r2 w',
    _execute_impl model_dump_json fresh1 input w
    = (inr r1, snd (_execute_impl model_dump_json fresh1 input w)) /\
    _execute_impl model_dump_json fresh2 input
      (snd (_execute_impl model_dump_json fresh1 input w)) = (inr r2, w') /\
    agent_type r1 = agent_type r2 /\
    estimated_risk r1 = estimated_risk r2 /\
    (action_type command = "restart" ->
     agent_type r1 = "restart" /\ estimated_risk r1 = "high" /\
     agent_type r2 = "restart" /\ estimated_risk r2 = "high").
Proof.
  intros Hv Hw Hw1.
  destruct (validate_action_type fresh1 fresh2 input command Hv) as (c2 & Hv2 & Hact).
  rewrite (execute_impl_fallback fresh1 input w command Hv Hw) in *. cbn [snd] in *.
  rewrite (execute_impl_fallback fresh2 input _ c2 Hv2 Hw1).
  eexists _, _, _. split; [done|]. split; [done|].
  unfold _route_with_rules. cbn [agent_type estimated_risk]. rewrite Hact.
  split; [done|]. split; [done|]. by intros ->.
Qed.

End Router.

(** [rule_based_routing_table] on a restart command. *)
Lemma rule_based_routing_table_witness :
  agent_type (_route_with_rules sample_dump
                {| command_id := 2%N; action_type := "restart"; target := "instance";
                   parameters := []; priority := "high"; requester := None |})
  = "restart" /\
  estimated_risk (_route_with_rules sample_dump
                    {| command_id := 2%N; action_type := "restart"; target := "instance";
                       parameters := []; priority := "high"; requester := None |})
  = "high".
Proof.
  apply (proj1 (proj2 (proj2 (rule_based_routing_table sample_dump
                                {| command_id := 2%N; action_type := "restart";
                                   target := "instance"; parameters := [];
                                   priority := "high"; requester := None |})))).
  reflexivity.
Defined.

(** [routing_idempotent_on_rule_path] on a restart command, with no
    classifier backend available. *)
Lemma routing_idempotent_on_rule_path_witness :
  let w := {| llm_replies := [] |} in
  exists r1 r2 w',
    _execute_impl sample_dump 0%N restart_payload w
    = (inr r1, snd (_execute_impl sample_dump 0%N restart_payload w)) /\
    _execute_impl sample_dump 0%N restart_payload
      (snd (_execute_impl sample_dump 0%N restart_payload w)) = (inr r2, w') /\
    agent_type r1 = agent_type r2 /\
    estimated_risk r1 = estimated_risk r2 /\
    ("restart" = "restart" ->
     agent_type r1 = "restart" /\ estimated_risk r1 = "high" /\
     agent_type r2 = "restart" /\ estimated_risk r2 = "high").
Proof.
  cbv zeta.
  apply (routing_idempotent_on_rule_path sample_dump 0%N 0%N restart_payload
           {| llm_replies := [] |}
           {| command_id := 113059749145936325402354257176981405698%N;
              action_type := "restart"; target := "instance";
              parameters := [("mode", JStr "graceful"); ("timeout_seconds", JNum 60)];
              priority := "high"; requester := None |}).
  - reflexivity.
  - reflexivity.
  - reflexivity.
Defined.

(** Counterexample to C9 as stated, on [_execute_impl]: when the classifier answers,
    its answer is the decision, and two answers for the same restart
    command need not agree nor be [restart]. *)
Lemma routing_not_idempotent_with_classifier :
  let w := {| llm_replies := [inr reply_config; inr reply_restart] |} in
  let first := _execute_impl sample_dump 0%N restart_payload w in
  let second := _execute_impl sample_dump 0%N restart_payload (snd first) in
  fst first = inr reply_config /\
  fst second = inr reply_restart /\
  agent_type reply_config <> agent_type reply_restart /\
  estimated_risk reply_config <> estimated_risk reply_restart /\
  agent_type reply_config <> "restart".
Proof. cbv zeta. by repeat split. Qed.

End RouterClaims.

(* ===================================================================== *)
(** ** The restart stage machine                                         *)
(* ===================================================================== *)

Module RestartClaims.
Import RestartAgent RestartSpec.

Section Agent.
Variable instance : Instance.

Lemma drain_connections_eq timeout_seconds w :
  0 <= timeout_seconds ->
  _drain_connections timeout_seconds w
  = (inr 5, {| clock := clock w + Z.min timeout_seconds 2 * 1000;
               log := log w ++ [connection_draining timeout_seconds] |}).
Proof.
  intros Ht. unfold _drain_connections, time_sleep, log_event, advance, modify,
    mbind, Py_bind, mret, Py_ret. simpl.
  destruct (Z.ltb_spec (Z.min timeout_seconds 2) 0); [lia|done].
Qed.

Lemma shutdown_instance_eq graceful timeout w :
  exists ev,
    _shutdown_instance instance graceful timeout w
    = (inr (shutdown_ok instance graceful timeout),
       {| clock := clock w + stop_millis instance graceful timeout;
          log := log w ++ [ev] |}) /\
    is_shutdown ev = true /\ is_drain ev = false /\
    is_startup ev = false /\ is_validation ev = false.
Proof.
  unfold _shutdown_instance, shutdown_ok, log_event, advance, modify,
    mbind, Py_bind, mret, Py_ret. simpl.
  destruct (stop_outcome instance graceful timeout); by eexists.
Qed.

Lemma startup_instance_eq w :
  exists ev millis,
    _startup_instance instance w
    = (inr (startup_ok instance),
       {| clock := clock w + millis; log := log w ++ [ev] |}) /\
    is_startup ev = true /\ is_drain ev = false /\
    is_shutdown ev = false /\ is_validation ev = false.
Proof.
  unfold _startup_instance, startup_ok, time_sleep, log_event, advance, modify,
    mbind, Py_bind, mret, Py_ret. simpl.
  destruct (start_outcome instance).
  - eexists _, (start_millis instance + 2 * 1000). by rewrite Z.add_assoc.
  - by eexists _, _.
Qed.

Lemma validate_operational_eq w :
  exists ev,
    _validate_operational instance w
    = (inr (if status_check_raises instance then "error" else "operational"),
       {| clock := clock w; log := log w ++ [ev] |}) /\
    is_validation ev = true /\ is_drain ev = false /\
    is_shutdown ev = false /\ is_startup ev = false.
Proof.
  unfold _validate_operational, log_event, modify, mbind, Py_bind, mret, Py_ret.
  destruct (status_check_raises instance); by eexists.
Qed.

Ltac finish_stages :=
  cbn [orb andb]; intuition (try discriminate; try reflexivity).

Ltac run_stage H :=
  unfold mbind at 1, Py_bind at 1; rewrite H.

Ltac read_clock :=
  unfold mbind at 1, Py_bind at 1; unfold time_time at 1, gets at 1.

Lemma forced_restart_stages w :
  exists result entries w',
    _forced_restart instance w = (inr result, w') /\
    log w' = log w ++ entries /\
    stages_respected instance false 10 result entries /\
    mode result = "forced" /\
    connections_drained result = 0 /\
    existsb is_drain entries = false.
Proof.
  unfold _forced_restart. read_clock.
  destruct (shutdown_instance_eq false 10 w) as (e1 & Hsd & Hs1 & Hd1 & Hu1 & Hv1).
  run_stage Hsd. read_clock.
  destruct (shutdown_ok instance false 10) eqn:Hok; cbn [negb].
  2:{ eexists _, [e1], _. split; [reflexivity|]. split; [reflexivity|].
      split; [|by cbn; rewrite Hd1].
      unfold stages_respected.
      cbn [existsb success operational_status startup_duration_seconds].
      rewrite Hs1, Hu1, Hv1, Hok. finish_stages. }
  cbv iota. read_clock. unfold mbind at 1, Py_bind at 1.
  match goal with |- context [_startup_instance instance ?x] =>
    destruct (startup_instance_eq x) as (e2 & ms & Hsu & Hu2 & Hd2 & Hs2 & Hv2) end.
  rewrite Hsu. read_clock.
  destruct (startup_ok instance) eqn:Hup; cbn [negb].
  2:{ eexists _, [e1; e2], _. split; [reflexivity|].
      split; [cbn; by rewrite <- app_assoc|].
      split; [|by cbn; rewrite Hd1, Hd2].
      unfold stages_respected.
      cbn [existsb success operational_status startup_duration_seconds].
      rewrite Hs1, Hu1, Hv1, Hu2, Hv2, Hok, Hup. finish_stages. }
  cbv iota. unfold mbind at 1, Py_bind at 1.
  match goal with |- context [_validate_operational instance ?x] =>
    destruct (validate_operational_eq x) as (e3 & Hva & Hv3 & Hd3 & Hs3 & Hu3) end.
  rewrite Hva.
  eexists _, [e1; e2; e3], _. split; [reflexivity|].
  split; [cbn; by rewrite <- !app_assoc|].
  split; [|by cbn; rewrite Hd1, Hd2, Hd3].
  unfold stages_respected.
  cbn [existsb success operational_status startup_duration_seconds].
  rewrite Hs1, Hu1, Hv1, Hu2, Hv2, Hv3, Hok, Hup. cbn [orb andb].
  destruct (status_check_raises instance); finish_stages.
Qed.

Lemma graceful_restart_stages timeout_seconds w :
  0 <= timeout_seconds ->
  exists result entries w',
    _graceful_restart instance timeout_seconds w = (inr result, w') /\
    log w' = log w ++ entries /\
    stages_respected instance true (timeout_seconds / 2) result entries /\
    mode result = "graceful" /\
    existsb is_drain entries = true.
Proof.
  intros Ht. assert (Hhalf : 0 <= timeout_seconds / 2) by (apply Z.div_pos; lia).
  unfold _graceful_restart. read_clock.
  run_stage (drain_connections_eq (timeout_seconds / 2) w Hhalf). read_clock.
  unfold mbind at 1, Py_bind at 1.
  match goal with |- context [_shutdown_instance instance true _ ?x] =>
    destruct (shutdown_instance_eq true (timeout_seconds / 2) x)
      as (e1 & Hsd & Hs1 & Hd1 & Hu1 & Hv1) end.
  rewrite Hsd. read_clock.
  destruct (shutdown_ok instance true (timeout_seconds / 2)) eqn:Hok; cbn [negb].
  2:{ eexists _, [connection_draining (timeout_seconds / 2); e1], _.
      split; [reflexivity|]. split; [cbn; by rewrite <- app_assoc|].
      split; [|done].
      unfold stages_respected.
      cbn [existsb success operational_status startup_duration_seconds
             is_shutdown is_startup is_validation].
      rewrite Hs1, Hu1, Hv1, Hok. finish_stages. }
  cbv iota. read_clock. unfold mbind at 1, Py_bind at 1.
  match goal with |- context [_startup_instance instance ?x] =>
    destruct (startup_instance_eq x) as (e2 & ms & Hsu & Hu2 & Hd2 & Hs2 & Hv2) end.
  rewrite Hsu. read_clock.
  destruct (startup_ok instance) eqn:Hup; cbn [negb].
  2:{ eexists _, [connection_draining (timeout_seconds / 2); e1; e2], _.
      split; [reflexivity|]. split; [cbn; by rewrite <- !app_assoc|].
      split; [|done].
      unfold stages_respected.
      cbn [existsb success operational_status startup_duration_seconds
             is_shutdown is_startup is_validation].
      rewrite Hs1, Hu1, Hv1, Hu2, Hv2, Hok, Hup. finish_stages. }
  cbv iota. unfold mbind at 1, Py_bind at 1.
  match goal with |- context [_validate_operational instance ?x] =>
    destruct (validate_operational_eq x) as (e3 & Hva & Hv3 & Hd3 & Hs3 & Hu3) end.
  rewrite Hva.
  eexists _, [connection_draining (timeout_seconds / 2); e1; e2; e3], _.
  split; [reflexivity|]. split; [cbn; by rewrite <- !app_assoc|].
  split; [|done].
  unfold stages_respected.
  cbn [existsb success operational_status startup_duration_seconds
         is_shutdown is_startup is_validation].
  rewrite Hs1, Hu1, Hv1, Hu2, Hv2, Hv3, Hok, Hup. cbn [orb andb].
  destruct (status_check_raises instance); finish_stages.
Qed.

End Agent.



End RestartClaims.

(* ===================================================================== *)
(** ** Further properties of the command intake                          *)
(* ===================================================================== *)

Module IntakeFacts.
Import CommandReceiver QueueSpec QueueFacts IntakeSpec QueueStatus.

Lemma string_in_In_iff s l : string_in s l = true <-> In s l.
Proof.
  unfold string_in. rewrite existsb_exists. split.
  - intros (x & Hx & Heq). apply String.eqb_eq in Heq. by subst.
  - intros Hin. exists s. split; [done|apply String.eqb_refl].
Qed.

Lemma validate_literal_In name allowed d fields s :
  validate_literal name allowed d fields = inr s ->
  In s allowed \/ (dict_get name fields = None /\ d = Some s).
Proof.
  unfold validate_literal. destruct (dict_get name fields) as [[| | |v| |]|]; try done.
  - destruct (string_in v allowed) eqn:E; [|done].
    intros [= <-]. left. by apply string_in_In_iff.
  - destruct d; [|done]. intros [= <-]. by right.
Qed.

Lemma validate_parameters_shape a fields p :
  validate_parameters (Some a) fields = inr p ->
  dict_get "parameters" fields = Some (JObj p) /\
  (a = "config_change" ->
   dict_has "section" p = true /\ dict_has "key" p = true /\ dict_has "value" p = true) /\
  (a = "os_reconfig" ->
   dict_has "resource_type" p = true /\ dict_has "target_value" p = true) /\
  (a = "restart" ->
   dict_get "mode" p = None \/ dict_get "mode" p = Some (JStr "graceful") \/
   dict_get "mode" p = Some (JStr "forced")).
Proof.
  unfold validate_parameters.
  destruct (dict_get "parameters" fields) as [[| | | | |v]|]; try done.
  unfold validate_parameters_by_action.
  destruct (String.eqb_spec a "config_change") as [->|Ha1].
  { destruct (dict_has "section" v) eqn:E1, (dict_has "key" v) eqn:E2,
      (dict_has "value" v) eqn:E3; try done.
    intros [= <-]. by repeat split. }
  destruct (String.eqb_spec a "os_reconfig") as [->|Ha2].
  { destruct (dict_has "resource_type" v) eqn:E1, (dict_has "target_value" v) eqn:E2;
      try done.
    intros [= <-]. by repeat split. }
  destruct (String.eqb_spec a "restart") as [->|Ha3].
  { destruct (dict_get "mode" v) as [[| | |m| |]|] eqn:Em; try done.
    - destruct (string_in m ["graceful"; "forced"]) eqn:Ein; [|done].
      intros [= <-]. split; [done|]. split; [done|]. split; [done|]. intros _.
      apply string_in_In_iff in Ein. rewrite Em.
      destruct Ein as [<-|[<-|[]]]; auto.
    - intros [= <-]. split; [done|]. split; [done|]. split; [done|]. auto. }
  intros [= <-]. by repeat split.
Qed.

Lemma model_validate_fields fresh input c :
  model_validate_json fresh input = inr c ->
  exists fields,
    input = Some (JObj fields) /\
    validate_command_id fresh fields = inr (command_id c) /\
    validate_literal "action_type" ["config_change"; "os_reconfig"; "restart"] None fields
      = inr (action_type c) /\
    validate_target fields = inr (target c) /\
    validate_parameters (Some (action_type c)) fields = inr (parameters c) /\
    validate_literal "priority" ["low"; "medium"; "high"; "critical"] (Some "medium") fields
      = inr (priority c) /\
    validate_requester fields = inr (requester c).
Proof.
  unfold model_validate_json. destruct input as [[| | | | |fields]|]; try done.
  intros Hv. exists fields. split; [done|].
  destruct (validate_command_id fresh fields) as [?|i]; [by repeat case_match|].
  destruct (validate_literal "action_type" _ None fields) as [?|a];
    [by repeat case_match|].
  destruct (validate_target fields) as [?|t]; [by repeat case_match|].
  cbn [value_of] in Hv.
  destruct (validate_parameters (Some a) fields) as [?|p] eqn:Ep;
    [by repeat case_match|].
  destruct (validate_literal "priority" _ (Some "medium") fields) as [?|pr];
    [by repeat case_match|].
  destruct (validate_requester fields) as [?|rq]; [done|].
  injection Hv as <-. simpl. by repeat split.
Qed.

Lemma model_validate_shape fresh input c :
  model_validate_json fresh input = inr c -> accepted_shape c.
Proof.
  intros Hv. destruct (model_validate_fields fresh input c Hv)
    as (fields & _ & _ & Ha & Ht & Hp & Hpr & _).
  apply validate_literal_In in Ha as [Ha|[_ ?]]; [|done].
  assert (Hpr' : In (priority c) ["low"; "medium"; "high"; "critical"]).
  { apply validate_literal_In in Hpr as [Hpr|[_ [= Hd]]]; [done|].
    rewrite <- Hd. simpl. auto. }
  apply validate_parameters_shape in Hp as (_ & Hp).
  split; [done|]. split; [done|]. split; [|done].
  unfold validate_target in Ht.
  destruct (dict_get "target" fields) as [[| | |s| |]|]; try done.
  destruct (Nat.ltb_spec (String.length s) 1); [done|].
  destruct (Nat.ltb_spec 100 (String.length s)); [done|].
  injection Ht as <-. lia.
Qed.

(** [receive_command] never raises: its handler turns every exception
    into a response. *)
Lemma receive_command_returns fresh payload self :
  receive_command fresh payload self
  = (inr (fst (receive fresh payload self)), snd (receive fresh payload self)).
Proof.
  unfold receive. destruct (receive_command fresh payload self) as [[e|r] s'] eqn:E;
    [exfalso|done].
  unfold receive_command, try_except in E.
  match type of E with
  | (match ?b with _ => _ end) = _ => destruct b as [[?|?] ?]
  end; discriminate.
Qed.

Lemma ahead_served_before r l :
  sorted_by_priority l -> ahead r l = served_before r l.
Proof.
  unfold served_before. induction 1 as [|x l Hs IH Hall]; [done|].
  cbn [ahead List.filter]. destruct (Z.ltb_spec r (rank x)) as [Hlt|Hge].
  - destruct (Z.leb_spec (rank x) r); [lia|].
    symmetry. clear IH Hs. induction Hall as [|y l Hy _ IH]; [done|].
    cbn [List.filter]. destruct (Z.leb_spec (rank y) r); [lia|done].
  - destruct (Z.leb_spec (rank x) r); [|lia]. by rewrite IH.
Qed.

Lemma behind_served_after r l :
  sorted_by_priority l -> behind r l = served_after r l.
Proof.
  unfold served_after. induction 1 as [|x l Hs IH Hall]; [done|].
  cbn [behind List.filter]. destruct (Z.ltb_spec r (rank x)) as [Hlt|Hge]; [|done].
  f_equal. clear IH Hs. induction Hall as [|y l Hy _ IH]; [done|].
  cbn [List.filter]. destruct (Z.ltb_spec r (rank y)); [by f_equal|lia].
Qed.

(** Every command held by the map of a reachable state went through
    validation. *)
Lemma reachable_shaped self :
  reachable self ->
  forall id c, command_queue self !! id = Some c -> accepted_shape c.
Proof.
  induction 1 as [|self fresh payload c Hr IH Hv Hfresh
                  |self fresh payload e _ IH Hv
                  |self Hr IH]; intros id x.
  - unfold init. cbn [command_queue]. by rewrite lookup_empty.
  - destruct (reachable_holds self Hr) as (l & Hh & _).
    assert (Hfresh' : command_id c ∉ command_id <$> l)
      by (destruct Hh as (<- & _); done).
    rewrite (receive_fresh fresh payload self l c Hh Hv Hfresh'). cbn [snd command_queue].
    destruct (decide (id = command_id c)) as [->|Hne].
    + rewrite lookup_insert_eq. intros [= <-]. by apply (model_validate_shape fresh payload).
    + rewrite lookup_insert_ne by done. apply IH.
  - rewrite (receive_invalid fresh payload self e Hv). apply IH.
  - unfold get_next_command. destruct (command_order self) as [|k rest]; [apply IH|].
    destruct (command_queue self !! k); cbn [snd command_queue]; [|apply IH].
    intros Hl. apply lookup_delete_Some in Hl as [_ Hl]. by apply (IH id).
Qed.

Lemma count_commands_holds (l : list RemediationCommand) : forall q pc ac,
  (forall x, x ∈ l -> q !! command_id x = Some x) ->
  (forall x, x ∈ l -> is_Some (pc !! priority x)) ->
  (forall x, x ∈ l -> is_Some (ac !! action_type x)) ->
  exists pc' ac',
    count_commands q (command_id <$> l) pc ac = inr (pc', ac') /\
    (forall p, pc' !! p = (fun n => n + count_priority p l)%nat <$> pc !! p) /\
    (forall a, ac' !! a = (fun n => n + count_action a l)%nat <$> ac !! a).
Proof.
  induction l as [|x l IH]; intros q pc ac Hq Hp Ha.
  - exists pc, ac. split; [done|]. unfold count_priority, count_action. simpl.
    split; intros k; [destruct (pc !! k)|destruct (ac !! k)]; simpl; try done;
      f_equal; lia.
  - cbn [fmap list_fmap count_commands].
    rewrite (Hq x) by apply list_elem_of_here.
    destruct (Hp x) as [n Hn]; [apply list_elem_of_here|].
    destruct (Ha x) as [m Hm]; [apply list_elem_of_here|].
    unfold increment. rewrite Hn, Hm.
    destruct (IH q (<[priority x := S n]> pc) (<[action_type x := S m]> ac))
      as (pc' & ac' & -> & Hpc & Hac).
    + intros y Hy. apply Hq. by apply list_elem_of_further.
    + intros y Hy. destruct (decide (priority y = priority x)) as [->|Hne].
      * rewrite lookup_insert_eq. by eexists.
      * rewrite lookup_insert_ne by done. apply Hp. by apply list_elem_of_further.
    + intros y Hy. destruct (decide (action_type y = action_type x)) as [->|Hne].
      * rewrite lookup_insert_eq. by eexists.
      * rewrite lookup_insert_ne by done. apply Ha. by apply list_elem_of_further.
    + exists pc', ac'. split; [done|]. split.
      * intros p. rewrite Hpc. unfold count_priority. cbn [List.filter].
        destruct (String.eqb_spec (priority x) p) as [<-|Hne].
        -- rewrite lookup_insert_eq, Hn. simpl. f_equal. lia.
        -- by rewrite lookup_insert_ne.
      * intros a. rewrite Hac. unfold count_action. cbn [List.filter].
        destruct (String.eqb_spec (action_type x) a) as [<-|Hne].
        -- rewrite lookup_insert_eq, Hm. simpl. f_equal. lia.
        -- by rewrite lookup_insert_ne.
Qed.

Lemma count_priority_total l :
  Forall accepted_shape l ->
  (count_priority "critical" l + count_priority "high" l + count_priority "medium" l
   + count_priority "low" l = length l)%nat.
Proof.
  unfold count_priority. induction 1 as [|x l (_ & Hp & _) _ IH]; [done|].
  cbn [List.filter length].
  destruct Hp as [<-|[<-|[<-|[<-|[]]]]]; simpl; lia.
Qed.

Lemma count_action_total l :
  Forall accepted_shape l ->
  (count_action "config_change" l + count_action "os_reconfig" l
   + count_action "restart" l = length l)%nat.
Proof.
  unfold count_action. induction 1 as [|x l (Ha & _) _ IH]; [done|].
  cbn [List.filter length].
  destruct Ha as [<-|[<-|[<-|[]]]]; simpl; lia.
Qed.

Lemma priority_counters_lookup p :
  (<["low" := O]> (<["medium" := O]> (<["high" := O]> (<["critical" := O]> ∅)))
     : gmap string nat) !! p
  = if string_in p ["critical"; "high"; "medium"; "low"] then Some O else None.
Proof.
  unfold string_in. cbn [existsb].
  destruct (String.eqb_spec p "critical") as [->|?]; [done|].
  destruct (String.eqb_spec p "high") as [->|?]; [done|].
  destruct (String.eqb_spec p "medium") as [->|?]; [done|].
  destruct (String.eqb_spec p "low") as [->|?]; [done|].
  by rewrite !lookup_insert_ne, lookup_empty.
Qed.

Lemma action_counters_lookup a :
  (<["restart" := O]> (<["os_reconfig" := O]> (<["config_change" := O]> ∅))
     : gmap string nat) !! a
  = if string_in a ["config_change"; "os_reconfig"; "restart"] then Some O else None.
Proof.
  unfold string_in. cbn [existsb].
  destruct (String.eqb_spec a "config_change") as [->|?]; [done|].
  destruct (String.eqb_spec a "os_reconfig") as [->|?]; [done|].
  destruct (String.eqb_spec a "restart") as [->|?]; [done|].
  by rewrite !lookup_insert_ne, lookup_empty.
Qed.

Lemma validate_parameters_fit c fields :
  accepted_shape c ->
  dict_get "parameters" fields = Some (JObj (parameters c)) ->
  validate_parameters (Some (action_type c)) fields = inr (parameters c).
Proof.
  intros (Ha & _ & _ & Hcc & Hos & Hrs) Hp.
  unfold validate_parameters, validate_parameters_by_action. rewrite Hp.
  destruct Ha as [Ha|[Ha|[Ha|[]]]]; rewrite <- Ha in *; cbn [String.eqb Ascii.eqb Bool.eqb].
  - destruct Hcc as (-> & -> & ->); done.
  - destruct Hos as (-> & ->); done.
  - destruct Hrs as [-> | [-> | ->]]; done.
Qed.

Lemma payload_accepted fresh fields c :
  accepted_shape c ->
  dict_get "action_type" fields = Some (JStr (action_type c)) ->
  dict_get "target" fields = Some (JStr (target c)) ->
  dict_get "parameters" fields = Some (JObj (parameters c)) ->
  (dict_get "priority" fields = Some (JStr (priority c)) \/
   (dict_get "priority" fields = None /\ priority c = "medium")) ->
  ((exists text, dict_get "command_id" fields = Some (JStr text) /\
                 parse_uuid text = Some (command_id c)) \/
   (dict_get "command_id" fields = None /\ command_id c = fresh)) ->
  ((exists who, dict_get "requester" fields = Some (JStr who) /\
                requester c = Some who) \/
   ((dict_get "requester" fields = None \/ dict_get "requester" fields = Some JNull) /\
    requester c = None)) ->
  model_validate_json fresh (Some (JObj fields)) = inr c.
Proof.
  intros Hshape Ha Ht Hp Hpr Hid Hrq.
  pose proof (validate_parameters_fit c fields Hshape Hp) as Hparams.
  destruct Hshape as (Hact & Hprio & Hlen & _).
  unfold model_validate_json.
  assert (Hv1 : validate_command_id fresh fields = inr (command_id c)).
  { unfold validate_command_id.
    destruct Hid as [(text & -> & ->)|(-> & ->)]; done. }
  assert (Hv2 : validate_literal "action_type" ["config_change"; "os_reconfig"; "restart"]
                  None fields = inr (action_type c)).
  { unfold validate_literal. rewrite Ha.
    by rewrite (proj2 (string_in_In_iff _ _) Hact). }
  assert (Hv3 : validate_target fields = inr (target c)).
  { unfold validate_target. rewrite Ht.
    destruct (Nat.ltb_spec (String.length (target c)) 1); [lia|].
    destruct (Nat.ltb_spec 100 (String.length (target c))); [lia|done]. }
  assert (Hv5 : validate_literal "priority" ["low"; "medium"; "high"; "critical"]
                  (Some "medium") fields = inr (priority c)).
  { unfold validate_literal. destruct Hpr as [->|[-> ->]]; [|done].
    by rewrite (proj2 (string_in_In_iff _ _) Hprio). }
  assert (Hv6 : validate_requester fields = inr (requester c)).
  { unfold validate_requester.
    destruct Hrq as [(who & -> & ->)|([Hr|Hr] & ->)]; by rewrite ?Hr. }
  rewrite Hv1, Hv2, Hv3, Hv5, Hv6. cbn [value_of]. rewrite Hparams.
  by destruct c.
Qed.

Lemma scan_conflicts_found q tgt (l1 : list RemediationCommand) more :
  (forall x, x ∈ l1 -> q !! command_id x = Some x) ->
  existsb (fun x => String.eqb (target x) tgt) l1 = true ->
  exists id, scan_conflicts q tgt ((command_id <$> l1) ++ more) = inr (Some id).
Proof.
  induction l1 as [|a l1 IH]; intros Hq Hex; [done|].
  cbn [fmap list_fmap app scan_conflicts]. rewrite (Hq a) by apply list_elem_of_here.
  cbn [existsb] in Hex. destruct (String.eqb (target a) tgt); [by eexists|].
  apply IH; [|done]. intros x Hx. apply Hq. by apply list_elem_of_further.
Qed.

Lemma scan_conflicts_stale q tgt (l1 : list RemediationCommand) stale rest :
  (forall x, x ∈ l1 -> q !! command_id x = Some x) ->
  existsb (fun x => String.eqb (target x) tgt) l1 = false ->
  q !! stale = None ->
  scan_conflicts q tgt ((command_id <$> l1) ++ stale :: rest) = inl (KeyError stale).
Proof.
  induction l1 as [|a l1 IH]; intros Hq Hex Hstale.
  - cbn [fmap list_fmap app scan_conflicts]. by rewrite Hstale.
  - cbn [fmap list_fmap app scan_conflicts]. rewrite (Hq a) by apply list_elem_of_here.
    cbn [existsb] in Hex. apply orb_false_iff in Hex as [-> Hex].
    apply IH; [|done|done]. intros x Hx. apply Hq. by apply list_elem_of_further.
Qed.

Lemma find_insertion_point_stale q r (l1 : list RemediationCommand) stale rest : forall i,
  (forall x, x ∈ l1 -> q !! command_id x = Some x) ->
  Forall (fun x => rank x <= r) l1 ->
  q !! stale = None ->
  find_insertion_point q r i ((command_id <$> l1) ++ stale :: rest) = inl (KeyError stale).
Proof.
  induction l1 as [|a l1 IH]; intros i Hq Hle Hstale.
  - cbn [fmap list_fmap app find_insertion_point]. by rewrite Hstale.
  - cbn [fmap list_fmap app find_insertion_point].
    rewrite (Hq a) by apply list_elem_of_here.
    inversion Hle as [|? ? Ha Hle']; subst. fold (rank a).
    destruct (Z.ltb_spec r (rank a)); [lia|].
    apply IH; [|done|done]. intros x Hx. apply Hq. by apply list_elem_of_further.
Qed.

(** A dequeue touches neither the map entry nor the absence from the
    order list of an id the order list does not name. *)
Lemma dequeue_keeps_unlisted id self :
  id ∉ command_order self ->
  (id ∉ command_order (snd (get_next_command self))) /\
  command_queue (snd (get_next_command self)) !! id = command_queue self !! id.
Proof.
  intros Hid. unfold get_next_command.
  destruct (command_order self) as [|k order] eqn:Ho.
  { cbn [snd]. by rewrite Ho. }
  apply not_elem_of_cons in Hid as [Hne Hid].
  destruct (command_queue self !! k); cbn [snd command_order command_queue];
    [|done].
  split; [done|]. by rewrite lookup_delete_ne.
Qed.

Lemma after_dequeues_keeps_unlisted id n self :
  id ∉ command_order self ->
  command_queue (after_dequeues n self) !! id = command_queue self !! id.
Proof.
  revert self. induction n as [|n IH]; intros self Hid; [done|].
  destruct (dequeue_keeps_unlisted id self Hid) as [Hid' Hq].
  cbn [after_dequeues]. by rewrite IH.
Qed.

Lemma dequeue_n_never_hands_out id n self :
  id ∉ command_order self ->
  keyed_by_id self ->
  never_handed_out id (dequeue_n n self).
Proof.
  unfold never_handed_out, keyed_by_id.
  revert self. induction n as [|n IH]; intros self Hid Hkeys; [constructor|].
  cbn [dequeue_n]. unfold get_next_command.
  destruct (command_order self) as [|k order] eqn:Ho; [constructor|].
  apply not_elem_of_cons in Hid as [Hne Hid].
  destruct (command_queue self !! k) as [x|] eqn:Hk.
  - constructor.
    + by rewrite (Hkeys k x Hk).
    + apply IH; [done|]. by apply map_Forall_delete.
  - constructor; [done|]. by apply IH.
Qed.

End IntakeFacts.

Module IntakeProperties.
Import CommandReceiver QueueSpec QueueFacts IntakeSpec QueueStatus IntakeFacts.

(** X1.  Where an accepted command lands.  In a state reached with fresh
    ids, a valid command whose id is not queued is accepted with
    [queue_position] one more than the number of queued commands of the
    same or a more urgent priority; the consumer then gets exactly those
    commands first, in their old order, then the new command, then the
    less urgent ones in their old order, so the new command is the
    [queue_position]-th one served, and the queue is one longer. *)
Theorem queue_position_is_service_position self fresh payload c :
  reachable self ->
  model_validate_json fresh payload = inr c ->
  command_id c ∉ command_order self ->
  exists l conflicts self',
    dequeue_all self = inr <$> l /\
    receive_command fresh payload self
    = (inr (accepted (command_id c) (S (length (served_before (rank c) l))) conflicts),
       self') /\
    dequeue_all self'
    = inr <$> (served_before (rank c) l ++ c :: served_after (rank c) l) /\
    dequeue_all self' !! length (served_before (rank c) l) = Some (inr c) /\
    get_queue_size self' = S (get_queue_size self).
Proof.
  intros Hr Hv Hfresh. destruct (reachable_holds self Hr) as (l & Hh & Hs).
  assert (Hfresh' : command_id c ∉ command_id <$> l)
    by (destruct Hh as (<- & _); done).
  pose proof (receive_fresh fresh payload self l c Hh Hv Hfresh') as Hrecv.
  pose proof (queue_holds_insert self l c Hh Hfresh') as Hh'.
  rewrite (ahead_served_before _ _ Hs), (behind_served_after _ _ Hs) in Hrecv, Hh'.
  exists l, (same_target c l). eexists.
  split; [by apply dequeue_all_holds|].
  split.
  { rewrite receive_command_returns, Hrecv. cbn [fst snd].
    by rewrite Nat.add_1_r. }
  split; [by apply dequeue_all_holds|].
  split.
  { rewrite (dequeue_all_holds _ _ Hh'), list_lookup_fmap.
    rewrite lookup_app_r by done. by rewrite Nat.sub_diag. }
  unfold get_queue_size. cbn [command_order].
  destruct Hh as (-> & _). rewrite !length_fmap, length_app. cbn [length].
  rewrite <- (ahead_served_before _ _ Hs), <- (behind_served_after _ _ Hs).
  rewrite (ahead_behind (rank c) l) at 3. rewrite length_app. lia.
Qed.

(** X2.  The statistics of [get_queue_status].  In every state reached
    with fresh ids the call returns (no [KeyError]); [total_commands] is the
    number of queued commands; [by_priority] has exactly the four priority
    keys and [by_action] exactly the three action keys, each holding the
    number of queued commands of that priority or action type; and both
    groups of counters add up to [total_commands]. *)
Theorem queue_status_counts self :
  reachable self ->
  exists l st,
    dequeue_all self = inr <$> l /\
    get_queue_status self = inr st /\
    total_commands st = length l /\
    (forall p, by_priority st !! p =
               if string_in p ["critical"; "high"; "medium"; "low"]
               then Some (count_priority p l) else None) /\
    (forall a, by_action st !! a =
               if string_in a ["config_change"; "os_reconfig"; "restart"]
               then Some (count_action a l) else None) /\
    (count_priority "critical" l + count_priority "high" l + count_priority "medium" l
     + count_priority "low" l = total_commands st)%nat /\
    (count_action "config_change" l + count_action "os_reconfig" l
     + count_action "restart" l = total_commands st)%nat.
Proof.
  intros Hr. destruct (reachable_holds self Hr) as (l & Hh & Hs).
  assert (Hshape : Forall accepted_shape l).
  { apply Forall_forall. intros x Hx.
    apply (reachable_shaped self Hr (command_id x)).
    by apply (queue_holds_lookup self l). }
  pose proof Hh as (Ho & _ & _).
  unfold get_queue_status. rewrite Ho.
  edestruct (count_commands_holds l (command_queue self)) as (pc & ac & -> & Hpc & Hac).
  - intros x Hx. by apply (queue_holds_lookup self l).
  - intros x Hx. rewrite priority_counters_lookup.
    rewrite Forall_forall in Hshape. destruct (Hshape x Hx) as (_ & Hp & _).
    destruct Hp as [<-|[<-|[<-|[<-|[]]]]]; by eexists.
  - intros x Hx. rewrite action_counters_lookup.
    rewrite Forall_forall in Hshape. destruct (Hshape x Hx) as (Ha & _).
    destruct Ha as [<-|[<-|[<-|[]]]]; by eexists.
  - exists l. eexists. split; [by apply dequeue_all_holds|]. split; [done|].
    cbn [total_commands by_priority by_action]. rewrite length_fmap.
    split; [done|]. split.
    { intros p. rewrite Hpc, priority_counters_lookup. by destruct (string_in p _). }
    split.
    { intros a. rewrite Hac, action_counters_lookup. by destruct (string_in a _). }
    split; [by apply count_priority_total|by apply count_action_total].
Qed.

(** X3.  A [rejected] answer does not always leave the receiver as it
    was.  Let the order list name, behind commands [l1] that are all in
    the map, an id [stale] that the map no longer holds.  A valid command
    with another id than these, which has the target of one of [l1] and is
    no more urgent than any of them, is answered [rejected] with the
    [KeyError] of [stale], yet it has been stored in the map, and the order
    list is as it was.  If the rest of the order list does not name its id
    either and every command of the map sits under its own id, the command
    stays in the map through any number of [get_next_command] calls, and
    none of them hands out a command with its id. *)
Theorem rejected_command_stays_in_map self fresh payload c l1 stale rest :
  model_validate_json fresh payload = inr c ->
  command_order self = (command_id <$> l1) ++ stale :: rest ->
  (forall x, x ∈ l1 -> command_queue self !! command_id x = Some x) ->
  command_queue self !! stale = None ->
  stale <> command_id c ->
  command_id c ∉ command_id <$> l1 ->
  same_target c l1 = true ->
  Forall (fun x => rank x <= rank c) l1 ->
  let self' := {| command_queue := <[command_id c := c]> (command_queue self);
                  command_order := command_order self |} in
  receive_command fresh payload self = (inr (rejected (KeyError stale)), self') /\
  (command_id c ∉ rest ->
   keyed_by_id self ->
   forall n,
     command_queue (after_dequeues n self') !! command_id c = Some c /\
     never_handed_out (command_id c) (dequeue_n n self')).
Proof.
  intros Hv Ho Hq Hstale Hne Hfresh Hsame Hle. cbv zeta. split.
  - destruct (scan_conflicts_found (command_queue self) (target c) l1 (stale :: rest)
                Hq Hsame) as [found Hscan].
    unfold receive_command, try_except, _check_conflicts, _insert_by_priority,
      index_of, lift, modify, gets, raise, mbind, Py_bind, mret, Py_ret.
    rewrite Hv. cbn beta iota. cbn [command_queue command_order fst snd].
    rewrite Ho, Hscan. cbn beta iota. fold (rank c).
    rewrite find_insertion_point_stale; [done| |done|].
    + intros x Hx. rewrite lookup_insert_ne; [by apply Hq|].
      intros Heq. apply Hfresh. rewrite Heq. by apply list_elem_of_fmap_2.
    + by rewrite lookup_insert_ne.
  - intros Hrest Hkeys n.
    assert (Hid : command_id c ∉ (command_id <$> l1) ++ stale :: rest).
    { rewrite elem_of_app, elem_of_cons. intros [?|[?|?]]; [done| |done].
      by apply Hne. }
    rewrite <- Ho in Hid. split.
    + rewrite after_dequeues_keeps_unlisted; [|done].
      cbn [command_queue]. apply lookup_insert_eq.
    + apply dequeue_n_never_hands_out; [done|].
      unfold keyed_by_id. cbn [command_queue]. by apply map_Forall_insert_2.
Qed.

(** X4.  A stale id blocks the intake.  With the order list as in X3, a
    valid command whose target differs from those of the commands in front
    of the stale id is rejected with the [KeyError] of that id, whatever
    its priority, and the receiver is left exactly as it was. *)
Theorem stale_id_blocks_intake self fresh payload c l1 stale rest :
  model_validate_json fresh payload = inr c ->
  command_order self = (command_id <$> l1) ++ stale :: rest ->
  (forall x, x ∈ l1 -> command_queue self !! command_id x = Some x) ->
  command_queue self !! stale = None ->
  same_target c l1 = false ->
  receive_command fresh payload self = (inr (rejected (KeyError stale)), self).
Proof.
  intros Hv Ho Hq Hstale Hsame.
  unfold receive_command, try_except, _check_conflicts, _insert_by_priority,
    index_of, lift, modify, gets, raise, mbind, Py_bind, mret, Py_ret.
  rewrite Hv. cbn beta iota. cbn [command_queue command_order fst snd].
  by rewrite Ho, scan_conflicts_stale.
Qed.

(** X5.  What validation guarantees.  A payload that validates is a JSON
    object; the command built from it has one of the three action types
    and one of the four priorities, a target of 1 to 100 characters and
    the parameters its action type requires; its parameters are the object
    under [parameters]; a payload without [priority] gives priority
    [medium], and one without [command_id] gets the generated id. *)
Theorem validated_command_shape fresh input c :
  model_validate_json fresh input = inr c ->
  accepted_shape c /\
  exists fields,
    input = Some (JObj fields) /\
    dict_get "parameters" fields = Some (JObj (parameters c)) /\
    dict_get "target" fields = Some (JStr (target c)) /\
    dict_get "action_type" fields = Some (JStr (action_type c)) /\
    (dict_get "priority" fields = None -> priority c = "medium") /\
    (dict_get "command_id" fields = None -> command_id c = fresh).
Proof.
  intros Hv. split; [by apply (model_validate_shape fresh input)|].
  destruct (model_validate_fields fresh input c Hv)
    as (fields & -> & Hid & Ha & Ht & Hp & Hpr & _).
  exists fields. split; [done|].
  apply validate_parameters_shape in Hp as (Hp & _). split; [done|].
  split.
  { unfold validate_target in Ht.
    destruct (dict_get "target" fields) as [[| | |s| |]|]; try done.
    repeat case_match; try done. by injection Ht as <-. }
  split.
  { unfold validate_literal in Ha.
    destruct (dict_get "action_type" fields) as [[| | |s| |]|]; try done.
    repeat case_match; try done. by injection Ha as <-. }
  split.
  - intros Hnone. unfold validate_literal in Hpr. rewrite Hnone in Hpr.
    by injection Hpr as <-.
  - intros Hnone. unfold validate_command_id in Hid. rewrite Hnone in Hid.
    by injection Hid as <-.
Qed.

(** X19.  Which payloads validation accepts.  A JSON object is accepted,
    and gives the command [c], when its [action_type], [target] and
    [parameters] are those of [c] and satisfy the constraints of the model
    (one of the three action types, a target of 1 to 100 characters, the
    parameters the action type requires), its [priority] is that of [c]
    and one of the four, or is absent with [c] having [medium], its
    [command_id] is a text form of the id of [c] or is absent with [c]
    having the generated id, and its [requester] is that of [c], absent or
    null standing for none.  Further keys of the object are ignored. *)
Theorem well_shaped_payload_is_accepted fresh fields c :
  accepted_shape c ->
  dict_get "action_type" fields = Some (JStr (action_type c)) ->
  dict_get "target" fields = Some (JStr (target c)) ->
  dict_get "parameters" fields = Some (JObj (parameters c)) ->
  (dict_get "priority" fields = Some (JStr (priority c)) \/
   (dict_get "priority" fields = None /\ priority c = "medium")) ->
  ((exists text, dict_get "command_id" fields = Some (JStr text) /\
                 parse_uuid text = Some (command_id c)) \/
   (dict_get "command_id" fields = None /\ command_id c = fresh)) ->
  ((exists who, dict_get "requester" fields = Some (JStr who) /\
                requester c = Some who) \/
   ((dict_get "requester" fields = None \/ dict_get "requester" fields = Some JNull) /\
    requester c = None)) ->
  model_validate_json fresh (Some (JObj fields)) = inr c.
Proof. apply payload_accepted. Qed.

Lemma well_shaped_payload_is_accepted_witness :
  model_validate_json 7%N
    (Some (JObj [("action_type", JStr "os_reconfig"); ("target", JStr "hugepages");
                 ("parameters", JObj [("resource_type", JStr "memory");
                                      ("target_value", JNum 16384)]);
                 ("requester", JNull); ("note", JStr "not a field")]))
  = inr {| command_id := 7%N; action_type := "os_reconfig"; target := "hugepages";
           parameters := [("resource_type", JStr "memory"); ("target_value", JNum 16384)];
           priority := "medium"; requester := None |}.
Proof.
  apply well_shaped_payload_is_accepted.
  - unfold accepted_shape. cbn. repeat split; auto; try discriminate; lia.
  - reflexivity.
  - reflexivity.
  - reflexivity.
  - right. split; reflexivity.
  - right. split; reflexivity.
  - right. split; [right|]; reflexivity.
Defined.

Lemma queue_position_is_service_position_witness :
  let self := snd (receive 0%N (payload id1 "medium" "iris.cpf") init) in
  let c := command_of id2 "high" "hugepages" in
  exists l conflicts self',
    dequeue_all self = inr <$> l /\
    receive_command 0%N (payload id2 "high" "hugepages") self
    = (inr (accepted (command_id c) (S (length (served_before (rank c) l))) conflicts),
       self') /\
    dequeue_all self'
    = inr <$> (served_before (rank c) l ++ c :: served_after (rank c) l) /\
    dequeue_all self' !! length (served_before (rank c) l) = Some (inr c) /\
    get_queue_size self' = S (get_queue_size self).
Proof.
  cbv zeta.
  apply (queue_position_is_service_position _ 0%N (payload id2 "high" "hugepages")).
  - apply (reachable_receive init 0%N (payload id1 "medium" "iris.cpf")
             (command_of id1 "medium" "iris.cpf") reachable_init).
    + reflexivity.
    + apply not_elem_of_nil.
  - reflexivity.
  - intros Hin. apply list_elem_of_In in Hin. vm_compute in Hin.
    destruct Hin as [Hin|[]]. discriminate Hin.
Defined.

Lemma queue_status_counts_witness :
  let self := snd (receive 0%N (payload id1 "medium" "iris.cpf") init) in
  exists l st,
    dequeue_all self = inr <$> l /\
    get_queue_status self = inr st /\
    total_commands st = length l /\
    (forall p, by_priority st !! p =
               if string_in p ["critical"; "high"; "medium"; "low"]
               then Some (count_priority p l) else None) /\
    (forall a, by_action st !! a =
               if string_in a ["config_change"; "os_reconfig"; "restart"]
               then Some (count_action a l) else None) /\
    (count_priority "critical" l + count_priority "high" l + count_priority "medium" l
     + count_priority "low" l = total_commands st)%nat /\
    (count_action "config_change" l + count_action "os_reconfig" l
     + count_action "restart" l = total_commands st)%nat.
Proof.
  cbv zeta. apply queue_status_counts.
  apply (reachable_receive init 0%N (payload id1 "medium" "iris.cpf")
           (command_of id1 "medium" "iris.cpf") reachable_init).
  - reflexivity.
  - apply not_elem_of_nil.
Defined.

Lemma rejected_command_stays_in_map_witness :
  let c := command_of id3 "low" "hugepages" in
  let self' := {| command_queue := <[command_id c := c]> (command_queue stale_state);
                  command_order := command_order stale_state |} in
  receive_command 0%N (payload id3 "low" "hugepages") stale_state
  = (inr (rejected (KeyError (default 0%N (parse_uuid id1)))), self') /\
  command_queue (after_dequeues 3 self') !! command_id c = Some c /\
  never_handed_out (command_id c) (dequeue_n 3 self').
Proof.
  cbv zeta.
  pose proof (rejected_command_stays_in_map stale_state 0%N
                (payload id3 "low" "hugepages") (command_of id3 "low" "hugepages")
                [command_of id2 "medium" "hugepages"]
                (default 0%N (parse_uuid id1)) []) as Hx3.
  cbv zeta in Hx3. destruct Hx3 as [Hrejected Hkept].
  - reflexivity.
  - vm_compute. reflexivity.
  - intros x Hx. apply list_elem_of_In in Hx. destruct Hx as [<-|[]].
    vm_compute. reflexivity.
  - vm_compute. reflexivity.
  - vm_compute. discriminate.
  - intros Hin. apply list_elem_of_In in Hin. vm_compute in Hin.
    destruct Hin as [Hin|[]]. discriminate Hin.
  - reflexivity.
  - repeat constructor. vm_compute. discriminate.
  - split; [exact Hrejected|]. apply Hkept.
    + apply not_elem_of_nil.
    + unfold keyed_by_id. apply map_Forall_to_list. vm_compute.
      repeat constructor.
Defined.

Lemma stale_id_blocks_intake_witness :
  receive_command 0%N (payload id3 "critical" "license") stale_state
  = (inr (rejected (KeyError (default 0%N (parse_uuid id1)))), stale_state).
Proof.
  apply (stale_id_blocks_intake stale_state 0%N (payload id3 "critical" "license")
           (command_of id3 "critical" "license") [command_of id2 "medium" "hugepages"]
           (default 0%N (parse_uuid id1)) []).
  - reflexivity.
  - vm_compute. reflexivity.
  - intros x Hx. apply list_elem_of_In in Hx. destruct Hx as [<-|[]].
    vm_compute. reflexivity.
  - vm_compute. reflexivity.
  - reflexivity.
Defined.

Lemma validated_command_shape_witness :
  let input :=
    Some (JObj [("action_type", JStr "restart"); ("target", JStr "instance");
                ("parameters", JObj [("mode", JStr "forced")])]) in
  let c := {| command_id := 7%N; action_type := "restart"; target := "instance";
              parameters := [("mode", JStr "forced")]; priority := "medium";
              requester := None |} in
  accepted_shape c /\
  exists fields,
    input = Some (JObj fields) /\
    dict_get "parameters" fields = Some (JObj (parameters c)) /\
    dict_get "target" fields = Some (JStr (target c)) /\
    dict_get "action_type" fields = Some (JStr (action_type c)) /\
    (dict_get "priority" fields = None -> priority c = "medium") /\
    (dict_get "command_id" fields = None -> command_id c = 7%N).
Proof.
  cbv zeta. apply (validated_command_shape 7%N). reflexivity.
Defined.

End IntakeProperties.

(* ===================================================================== *)
(** ** Dumping a command and reading it back                             *)
(* ===================================================================== *)

Module DumpFacts.
Import CommandDump IntakeSpec IntakeFacts.

Lemma hex_digit_hex_char d : (d < 16)%N -> hex_digit (hex_char d) = Some d.
Proof.
  intros Hd.
  assert (Hcases : (d = 0 \/ d = 1 \/ d = 2 \/ d = 3 \/ d = 4 \/ d = 5 \/ d = 6 \/ d = 7 \/
                    d = 8 \/ d = 9 \/ d = 10 \/ d = 11 \/ d = 12 \/ d = 13 \/ d = 14 \/
                    d = 15)%N) by lia.
  repeat (destruct Hcases as [->|Hcases]; [reflexivity|]). by subst.
Qed.

Lemma hex_value_app s1 : forall acc s2,
  hex_value acc (s1 +:+ s2)
  = match hex_value acc s1 with Some a => hex_value a s2 | None => None end.
Proof.
  induction s1 as [|c s1 IH]; intros acc s2; [done|].
  simpl. destruct (hex_digit c); [apply IH|done].
Qed.

Lemma hex_value_hex_string n : forall u acc,
  hex_value acc (hex_string n u) = Some (acc * 16 ^ N.of_nat n + u mod 16 ^ N.of_nat n)%N.
Proof.
  induction n as [|n IH]; intros u acc.
  - cbn [hex_string hex_value]. f_equal. rewrite N.mod_1_r. cbn. lia.
  - cbn [hex_string]. rewrite hex_value_app, IH. cbn [hex_value].
    rewrite hex_digit_hex_char by (apply N.mod_lt; lia). f_equal.
    rewrite Nat2N.inj_succ, N.pow_succ_r', (N.Div0.mod_mul_r u 16). lia.
Qed.

Lemma length_append s1 s2 :
  String.length (s1 +:+ s2) = (String.length s1 + String.length s2)%nat.
Proof. induction s1 as [|c s1 IH]; [done|]. simpl. f_equal. apply IH. Qed.

Lemma length_hex_string n : forall u, String.length (hex_string n u) = n.
Proof.
  induction n as [|n IH]; intros u; [done|].
  cbn [hex_string]. rewrite length_append, IH. cbn. lia.
Qed.

(** The hyphenated form of 32 characters is read as these characters. *)
Lemma parse_hyphenated hex :
  String.length hex = 32%nat ->
  parse_uuid (substring 0 8 hex +:+ "-" +:+ substring 8 4 hex +:+ "-"
                +:+ substring 12 4 hex +:+ "-" +:+ substring 16 4 hex +:+ "-"
                +:+ substring 20 12 hex)
  = hex_value 0%N hex.
Proof.
  intros Hlen.
  do 32 (destruct hex as [|? hex]; [discriminate Hlen|]).
  destruct hex; [|discriminate Hlen]. reflexivity.
Qed.

Lemma parse_uuid_str u : (u < 2 ^ 128)%N -> parse_uuid (uuid_str u) = Some u.
Proof.
  intros Hu. unfold uuid_str. rewrite parse_hyphenated by apply length_hex_string.
  rewrite hex_value_hex_string. f_equal.
  change (16 ^ N.of_nat 32)%N with (2 ^ 128)%N.
  rewrite N.mod_small by done. lia.
Qed.

Lemma hex_value_bound s : forall acc v,
  hex_value acc s = Some v -> (v < (acc + 1) * 16 ^ N.of_nat (String.length s))%N.
Proof.
  induction s as [|c s IH]; intros acc v Hv.
  - injection Hv as <-. cbn. lia.
  - cbn [hex_value] in Hv. destruct (hex_digit c) as [d|] eqn:Hd; [|done].
    assert (Hd16 : (d < 16)%N).
    { unfold hex_digit in Hd. cbv zeta in Hd.
      repeat match type of Hd with
             | context [(?a <=? ?b)%N] => destruct (N.leb_spec a b)
             end; cbn [andb] in Hd; simplify_eq; lia. }
    apply IH in Hv. cbn [String.length]. rewrite Nat2N.inj_succ, N.pow_succ_r'. nia.
Qed.

Lemma length_substring m : forall n s, (String.length (substring n m s) <= m)%nat.
Proof.
  intros n s. revert n m. induction s as [|c s IH]; intros [|n] [|m]; cbn; try lia.
  - specialize (IH 0%nat m). lia.
  - apply (IH n 0%nat).
  - apply (IH n (S m)).
Qed.

Lemma parse_uuid_bound text u : parse_uuid text = Some u -> (u < 2 ^ 128)%N.
Proof.
  unfold parse_uuid. destruct (Nat.eqb_spec (String.length text) 32) as [Hlen|_].
  - intros Hv. apply hex_value_bound in Hv. rewrite Hlen in Hv.
    change (16 ^ N.of_nat 32)%N with (2 ^ 128)%N in Hv. lia.
  - destruct (_ && _); [|done]. intros Hv. apply hex_value_bound in Hv.
    rewrite !length_append in Hv.
    pose proof (length_substring 8 0 text). pose proof (length_substring 4 9 text).
    pose proof (length_substring 4 14 text). pose proof (length_substring 4 19 text).
    pose proof (length_substring 12 24 text).
    eapply N.lt_le_trans; [exact Hv|].
    change (2 ^ 128)%N with (16 ^ N.of_nat 32)%N. rewrite N.add_0_l, N.mul_1_l.
    apply N.pow_le_mono_r; lia.
Qed.

(** A command of the accepted shape with a 128-bit id is read back from
    its dump. *)
Lemma validate_dump fresh c :
  accepted_shape c ->
  (command_id c < 2 ^ 128)%N ->
  model_validate_json fresh (Some (model_dump c)) = inr c.
Proof.
  intros Hshape Hid. apply payload_accepted; try done.
  - by left.
  - left. exists (uuid_str (command_id c)). split; [done|by apply parse_uuid_str].
  - cbn. destruct (requester c) as [who|]; [left; by exists who|right; auto].
Qed.

Lemma validated_id_bound fresh input c :
  (fresh < 2 ^ 128)%N ->
  model_validate_json fresh input = inr c ->
  (command_id c < 2 ^ 128)%N.
Proof.
  intros Hfresh Hv.
  destruct (model_validate_fields fresh input c Hv) as (fields & _ & Hid & _).
  unfold validate_command_id in Hid.
  destruct (dict_get "command_id" fields) as [[| | |text| |]|]; try done.
  - destruct (parse_uuid text) as [u|] eqn:Hu; [|done]. injection Hid as <-.
    by apply (parse_uuid_bound text).
  - by injection Hid as <-.
Qed.

End DumpFacts.

Module DumpProperties.
Import CommandDump IntakeSpec IntakeFacts DumpFacts.

(** X20.  Dump and validation round trip.  With 128-bit generated ids, a
    command that came out of validation is read back unchanged from its
    own dump: validating the dumped document gives the same id, action
    type, target, parameters, priority and requester, and the id generated
    for the second validation is not used. *)
Theorem dump_validate_round_trip fresh fresh' input c :
  (fresh < 2 ^ 128)%N ->
  model_validate_json fresh input = inr c ->
  model_validate_json fresh' (Some (model_dump c)) = inr c.
Proof.
  intros Hfresh Hv. apply validate_dump.
  - by apply (model_validate_shape fresh input).
  - by apply (validated_id_bound fresh input).
Qed.

Lemma dump_validate_round_trip_witness :
  model_validate_json 0%N
    (Some (model_dump (QueueSpec.command_of CommandReceiver.id1 "high" "iris.cpf")))
  = inr (QueueSpec.command_of CommandReceiver.id1 "high" "iris.cpf").
Proof.
  apply (dump_validate_round_trip 7%N 0%N
           (CommandReceiver.payload CommandReceiver.id1 "high" "iris.cpf")).
  - reflexivity.
  - reflexivity.
Defined.

End DumpProperties.

(* ===================================================================== *)
(** ** Further properties of the configuration store                     *)
(* ===================================================================== *)

Module WriteFacts.
Import ConfigStore StoreSpec StoreFacts WriteSpec.

Section Store.
Context `{ConfigParserLib}.

Lemma write_steps_eq section key value bp w :
  write_steps section key value bp w =
    match updated_config section key value (cpf_file w) with
    | inl e => (inl e, w)
    | inr (old, config) =>
        if cpf_writable w then
          match write_error config with
          | Some e => (inl e, set_cpf_file (Some (write config)) w)
          | None =>
              (inr (true, bp),
               set_log (log w ++ [cpf_write_success section key old value bp])
                 (set_cpf_file (Some (write config)) w))
          end
        else (inl (OSError "Permission denied"), w)
    end.
Proof.
  unfold write_steps, updated_config, read_config, write_file, lift, log_event, modify,
    raise, mbind, Py_bind, mret, Py_ret.
  cbv beta.
  destruct (cpf_file w) as [text|];
    [destruct (parse text new_parser) as [e|config]; [done|]|];
    cbv beta iota.
  - destruct (has_option config section key);
      [destruct (get config section key) as [e|v]; [done|]|];
      cbv beta iota;
      (destruct (has_section config section);
       [|destruct (add_section config section) as [e1|c1]; [done|]]);
      cbv beta iota;
      (destruct (set _ section key value) as [e2|c2]; [done|]);
      cbv beta iota;
      (destruct (cpf_writable w); [|done]); by destruct (write_error c2).
  - destruct (has_option new_parser section key);
      [destruct (get new_parser section key) as [e|v]; [done|]|];
      cbv beta iota;
      (destruct (has_section new_parser section);
       [|destruct (add_section new_parser section) as [e1|c1]; [done|]]);
      cbv beta iota;
      (destruct (set _ section key value) as [e2|c2]; [done|]);
      cbv beta iota;
      (destruct (cpf_writable w); [|done]); by destruct (write_error c2).
Qed.

(** [write_setting] without a backup. *)
Lemma write_setting_plain self section key value w :
  write_setting self section key value false w =
    match write_steps section key value None w with
    | (inr r, w2) => (inr r, w2)
    | (inl e, w2) =>
        (inr (false, None), set_log (log w2 ++ [cpf_write_failed section key value e]) w2)
    end.
Proof.
  unfold write_setting, take_backup, try_except, write_failed, log_event, modify,
    mbind, Py_bind, mret, Py_ret.
  by destruct (write_steps section key value None w) as [[e|r] w2].
Qed.

Lemma write_setting_backup_cases self section key value w :
  exists ok bp w',
    write_setting self section key value true w = (inr (ok, bp), w') /\
    cpf_writable w' = cpf_writable w /\
    (ok = false -> cpf_file w' = cpf_file w) /\
    (ok = true ->
     exists text old config,
       cpf_file w = Some text /\
       updated_config section key value (Some text) = inr (old, config) /\
       write_error config = None /\
       cpf_writable w = true /\
       bp = Some (backup_path_of self w) /\
       cpf_file w' = Some (write config) /\
       backups w' = <[backup_path_of self w := text]> (backups w) /\
       log w' = log w ++ [cpf_backup_created (backup_path_of self w);
                          cpf_write_success section key old value bp]).
Proof.
  destruct (create_backup self w) as [[e|path] w1] eqn:Hb.
  { rewrite (write_setting_no_backup _ _ _ _ _ _ _ Hb).
    eexists false, None, _. split; [done|]. split; [done|]. split; [done|]. done. }
  destruct (write_setting_after_backup self section key value w path w1 Hb) as [-> ->].
  rewrite create_backup_eq in Hb.
  destruct (cpf_file w) as [text|] eqn:Hfile; [|done].
  destruct (backups_writable w) eqn:Hbw; [|done].
  injection Hb as <-. rewrite write_steps_eq. cbn [cpf_file set_log set_backups].
  rewrite Hfile.
  destruct (updated_config section key value (Some text)) as [e|[old config]] eqn:Hu.
  { rewrite restore_backup_eq. cbn. rewrite lookup_insert_eq.
    destruct (cpf_writable w) eqn:Hw; eexists false, _, _;
      (split; [done|]); cbn; by rewrite ?Hfile. }
  cbn [cpf_writable set_log set_backups]. destruct (cpf_writable w) eqn:Hw.
  - destruct (write_error config) as [e|] eqn:He; cbv beta iota.
    + rewrite restore_backup_eq. cbn. rewrite lookup_insert_eq, Hw.
      eexists false, _, _. split; [done|]. cbn. by rewrite ?Hfile, ?Hw.
    + eexists true, _, _. split; [done|]. split; [done|]. split; [done|].
      intros _. exists text, old, config. cbn.
      rewrite <- app_assoc. by repeat split.
  - rewrite restore_backup_eq. cbn. rewrite lookup_insert_eq, Hw.
    eexists false, _, _. split; [done|]. cbn. by rewrite ?Hfile, ?Hw.
Qed.

Lemma requires_restart_eq section key w :
  exists ev,
    requires_restart section key w
    = (inr (string_in section restart_sections || string_in (lower key) restart_keys),
       set_log (log w ++ [ev]) w).
Proof.
  unfold requires_restart.
  destruct (string_in section restart_sections); [by eexists|].
  destruct (string_in (lower key) restart_keys); by eexists.
Qed.

Lemma restart_rule_iff section key :
  string_in section restart_sections || string_in (lower key) restart_keys = true
  <-> restart_rule section key.
Proof.
  unfold restart_rule. rewrite orb_true_iff.
  by rewrite !IntakeFacts.string_in_In_iff.
Qed.

End Store.

End WriteFacts.

Module StoreProperties.
Import ConfigStore StoreSpec StoreFacts WriteSpec WriteFacts.

Section Store.
Context `{ConfigParserLib}.

(** X6.  What a successful [write_setting] with backup has done.  When the
    call returns [(True, path)], the live file existed and was writable
    before the call; [path] is the backup path for the current timestamp,
    and the backup directory now holds the pre-write content under it, its
    other files untouched; the live file holds what the parser writes after
    the old content was parsed, the section added if it was missing and the
    option set; the log gained the backup entry and the success entry with
    the old value. *)
Theorem write_setting_success_effects self section key value w bp w' :
  write_setting self section key value true w = (inr (true, bp), w') ->
  exists text old config,
    cpf_file w = Some text /\
    cpf_writable w = true /\
    updated_config section key value (Some text) = inr (old, config) /\
    bp = Some (backup_path_of self w) /\
    cpf_file w' = Some (write config) /\
    backups w' = <[backup_path_of self w := text]> (backups w) /\
    log w' = log w ++ [cpf_backup_created (backup_path_of self w);
                       cpf_write_success section key old value bp].
Proof.
  intros Hws.
  destruct (write_setting_backup_cases self section key value w)
    as (ok & bp0 & w0 & Heq & _ & _ & Hok).
  rewrite Heq in Hws. injection Hws as -> -> ->.
  destruct Hok as (text & old & config & ? & ? & ? & ? & ? & ? & ? & ?); [done|].
  exists text, old, config. by repeat split.
Qed.

(** X7.  [write_setting] with [create_backup=False] has no rollback.  It
    always returns, with [None] as backup path; it never touches the
    backup directory and logs exactly one entry, the success or the
    failure of the write.  When it reports success the live file holds the
    updated configuration.  When it reports failure the live file is
    either untouched or, if the parser raised while writing, left with the
    part written so far. *)
Theorem write_without_backup_not_rolled_back self section key value w :
  exists ok w' ev,
    write_setting self section key value false w = (inr (ok, None), w') /\
    backups w' = backups w /\
    log w' = log w ++ [ev] /\
    write_event section key value ev /\
    (ok = true ->
     exists old config,
       updated_config section key value (cpf_file w) = inr (old, config) /\
       cpf_file w' = Some (write config)) /\
    (ok = false ->
     cpf_file w' = cpf_file w \/
     exists old config e,
       updated_config section key value (cpf_file w) = inr (old, config) /\
       write_error config = Some e /\
       cpf_file w' = Some (write config)).
Proof.
  rewrite write_setting_plain, write_steps_eq.
  destruct (updated_config section key value (cpf_file w)) as [e|[old config]] eqn:Hu.
  { eexists false, _, _. split; [done|]. split; [done|]. split; [done|].
    split; [right; by eexists|]. split; [done|]. by left. }
  destruct (cpf_writable w).
  - destruct (write_error config) as [e|] eqn:He.
    + eexists false, _, _. split; [done|]. split; [done|]. split; [done|].
      split; [right; by eexists|]. split; [done|]. intros _. right. by exists old, config, e.
    + eexists true, _, _. split; [done|]. split; [done|]. split; [done|].
      split; [left; by eexists _, _|]. split; [|done]. intros _. by exists old, config.
  - eexists false, _, _. split; [done|]. split; [done|]. split; [done|].
    split; [right; by eexists|]. split; [done|]. by left.
Qed.

(** X8.  Backup and restore round trip.  With an existing live file and
    both places writable, [create_backup] returns a path; whatever a
    following [write_setting] without backup does to the live file, be it
    a success or a failure, [restore_backup] of that path then succeeds and the
    live file again holds exactly what it held when the backup was taken,
    so that [read_setting] gives what it gave before. *)
Theorem backup_restore_round_trip self section key value w text :
  cpf_file w = Some text ->
  cpf_writable w = true ->
  backups_writable w = true ->
  exists path w1 r w2 w3,
    create_backup self w = (inr path, w1) /\
    write_setting self section key value false w1 = (inr r, w2) /\
    restore_backup path w2 = (inr true, w3) /\
    cpf_file w3 = Some text /\
    forall s k, fst (read_setting s k w3) = fst (read_setting s k w).
Proof.
  intros Hfile Hw Hbw.
  set (path := backup_path_of self w).
  set (w1 := set_backups (<[path := text]> (backups w)) w).
  assert (Hb : create_backup self w = (inr path, w1))
    by (by rewrite create_backup_eq, Hfile, Hbw).
  assert (Hws : exists r w2,
            write_setting self section key value false w1 = (inr r, w2) /\
            backups w2 = backups w1 /\ cpf_writable w2 = true).
  { rewrite write_setting_plain, write_steps_eq.
    subst w1. cbn [cpf_file cpf_writable set_backups]. rewrite Hfile, Hw.
    destruct (updated_config section key value (Some text)) as [e|[old config]];
      [by eexists _, _|].
    destruct (write_error config); by eexists _, _. }
  destruct Hws as (r & w2 & Hws & Hb2 & Hw2).
  exists path, w1, r, w2.
  rewrite restore_backup_eq, Hb2. subst w1. cbn [backups set_backups].
  rewrite lookup_insert_eq, Hw2.
  eexists. split; [done|]. split; [done|]. split; [done|]. split; [done|].
  intros s k.
  match goal with |- fst (read_setting s k ?x) = _ =>
    destruct (read_setting_eq s k x) as [? ->] end.
  destruct (read_setting_eq s k w) as [? ->]. cbn [fst]. by rewrite Hfile.
Qed.

(** X9.  A manager whose live file does not exist.  [validate_cpf]
    returns [True].  [write_setting] with backup fails: the backup cannot
    be taken, the answer is [(False, None)], and neither the file nor a
    backup is created.  [write_setting] without backup, in the same
    situation, creates the file whenever the parser accepts the section and
    the option and the place is writable. *)
Theorem missing_file_behaviour self section key value w :
  cpf_file w = None ->
  fst (validate_cpf w) = inr true /\
  create_backup self w = (inl (OSError "No such file or directory"), w) /\
  (exists w',
      write_setting self section key value true w = (inr (false, None), w') /\
      cpf_file w' = None /\ backups w' = backups w) /\
  (forall old config,
      updated_config section key value None = inr (old, config) ->
      write_error config = None ->
      cpf_writable w = true ->
      exists w',
        write_setting self section key value false w = (inr (true, None), w') /\
        cpf_file w' = Some (write config)).
Proof.
  intros Hfile.
  assert (Hb : create_backup self w = (inl (OSError "No such file or directory"), w))
    by (by rewrite create_backup_eq, Hfile).
  split.
  { destruct (validate_cpf_eq w) as [ev ->]. by rewrite Hfile. }
  split; [done|]. split.
  { rewrite (write_setting_no_backup _ _ _ _ _ _ _ Hb). by eexists. }
  intros old config Hu He Hw.
  rewrite write_setting_plain, write_steps_eq, Hfile, Hu, Hw, He. by eexists.
Qed.

(** X10.  The configuration change handler is all or nothing.  For a valid
    command whose [section], [key] and [value] parameters are strings the
    handler returns a response, whatever the state of the files; the
    response repeats the section, the key and the new value and carries the
    value read before the change.  If it reports failure, the live file
    holds what it held before the call, [requires_restart] is false and an
    error message is given.  If it reports success, the live file existed
    before the call and now holds the updated configuration, which
    [validate_cpf] accepts; the backup path is the one for the current
    timestamp and that backup holds the content from before the call;
    [requires_restart] is true exactly when the restart rule applies; and
    there is no error message. *)
Theorem config_handler_all_or_nothing self fresh input w command section key value :
  model_validate_json fresh input = inr command ->
  dict_get "section" (parameters command) = Some (JStr section) ->
  dict_get "key" (parameters command) = Some (JStr key) ->
  dict_get "value" (parameters command) = Some (JStr value) ->
  exists resp w',
    _execute_impl self fresh input w = (inr resp, w') /\
    ConfigStore.section resp = section /\
    ConfigStore.key resp = key /\
    new_value resp = value /\
    old_value resp = read_value section key (cpf_file w) /\
    (success resp = false ->
     cpf_file w' = cpf_file w /\
     requires_restart_flag resp = false /\
     is_Some (error_message resp)) /\
    (success resp = true ->
     exists text old config,
       cpf_file w = Some text /\
       updated_config section key value (Some text) = inr (old, config) /\
       cpf_file w' = Some (write config) /\
       well_formed (Some (write config)) = true /\
       backup_path resp = Some (backup_path_of self w) /\
       backups w' !! backup_path_of self w = Some text /\
       (requires_restart_flag resp = true <-> restart_rule section key) /\
       error_message resp = None).
Proof.
  intros Hv Hs Hk Hval.
  set (w0 := set_log (log w ++ [config_change_start section key value]) w).
  destruct (read_setting_eq section key w0) as [ev0 Hread].
  set (wb := set_log (log w0 ++ [ev0]) w0) in *.
  destruct (write_setting_backup_cases self section key value wb)
    as (ok & bp & w2 & Hws & Hw2 & Hfail & Hok).
  assert (Hstart : _execute_impl self fresh input w =
            (let '(ok, backup_path) := (ok, bp) in
             if negb ok then
               mret {| success := false; section := section; key := key;
                       old_value := read_value section key (cpf_file w);
                       new_value := value; requires_restart_flag := false;
                       backup_path := backup_path;
                       error_message := Some "Failed to write configuration setting" |}
             else
               valid ← validate_cpf;
               if negb valid then
                 match backup_path with
                 | Some p =>
                     if truthy backup_path then restore_backup p;; mret tt else mret tt
                 | None => mret tt
                 end;;
                 mret {| success := false; section := section; key := key;
                         old_value := read_value section key (cpf_file w);
                         new_value := value; requires_restart_flag := false;
                         backup_path := backup_path;
                         error_message :=
                           Some "CPF validation failed, changes rolled back" |}
               else
                 restart ← requires_restart section key;
                 log_event (config_change_success section key
                              (read_value section key (cpf_file w)) value restart);;
                 mret {| success := true; section := section; key := key;
                         old_value := read_value section key (cpf_file w);
                         new_value := value; requires_restart_flag := restart;
                         backup_path := backup_path;
                         error_message := None |}) w2).
  { unfold _execute_impl, string_parameter, ConfigStore.lift.
    rewrite Hv. unfold mbind at 1, Py_bind at 1, mret at 1, Py_ret at 1.
    rewrite Hs. unfold mbind at 1, Py_bind at 1, mret at 1, Py_ret at 1.
    rewrite Hk. unfold mbind at 1, Py_bind at 1, mret at 1, Py_ret at 1.
    rewrite Hval. unfold mbind at 1, Py_bind at 1, mret at 1, Py_ret at 1.
    unfold mbind at 1, Py_bind at 1. rewrite log_event_eq. fold w0.
    unfold mbind at 1, Py_bind at 1. rewrite Hread. fold wb.
    unfold mbind at 1, Py_bind at 1. rewrite Hws. reflexivity. }
  rewrite Hstart. clear Hstart. cbv beta iota.
  destruct ok; cbn [negb]; cbv iota.
  2:{ eexists _, _. split; [reflexivity|]. cbn.
      do 4 (split; [done|]). split; [|intros [=]].
      intros _. split; [by rewrite Hfail|]. split; [done|by eexists]. }
  destruct Hok as (text & old & config & Hfile & Hu & He & Hw & -> & Hfile2 & Hb2 & Hlog2);
    [done|].
  destruct (validate_cpf_eq w2) as [ev1 Hvalid].
  unfold mbind at 1, Py_bind at 1. rewrite Hvalid, Hfile2.
  destruct (well_formed (Some (write config))) eqn:Hwf; cbn [negb]; cbv iota.
  - destruct (requires_restart_eq section key (set_log (log w2 ++ [ev1]) w2))
      as [ev2 Hrr].
    unfold mbind at 1, Py_bind at 1. rewrite Hrr.
    unfold mbind at 1, Py_bind at 1. rewrite log_event_eq.
    eexists _, _. split; [reflexivity|]. cbn.
    do 4 (split; [done|]). split; [intros [=]|]. intros _.
    exists text, old, config. split; [done|]. split; [done|]. split; [done|].
    split; [done|]. split; [done|]. split; [by rewrite Hb2, lookup_insert_eq|].
    split; [apply restart_rule_iff|done].
  - rewrite backup_path_truthy.
    unfold mbind at 1, Py_bind at 1. unfold mbind at 1, Py_bind at 1.
    rewrite restore_backup_eq. cbn [backups set_log cpf_writable].
    rewrite Hb2, lookup_insert_eq, Hw2, Hw.
    eexists _, _. split; [reflexivity|]. cbn.
    do 4 (split; [done|]). split; [|intros [=]].
    intros _. split; [done|]. split; [done|by eexists].
Qed.

End Store.

Lemma write_setting_success_effects_witness :
  let w := Ini.sample_world in
  let bp := Some "/usr/irissys/backups/iris.cpf.backup.20260206_101500" in
  let w' := snd (write_setting Ini.manager "Startup" "globals" "20000" true w) in
  exists text old config,
    cpf_file w = Some text /\
    cpf_writable w = true /\
    updated_config "Startup" "globals" "20000" (Some text) = inr (old, config) /\
    bp = Some (backup_path_of Ini.manager w) /\
    cpf_file w' = Some (write config) /\
    backups w' = <[backup_path_of Ini.manager w := text]> (backups w) /\
    log w' = log w ++ [cpf_backup_created (backup_path_of Ini.manager w);
                       cpf_write_success "Startup" "globals" old "20000" bp].
Proof.
  cbv zeta.
  apply (write_setting_success_effects Ini.manager "Startup" "globals" "20000").
  reflexivity.
Defined.

Lemma backup_restore_round_trip_witness :
  exists path w1 r w2 w3,
    create_backup Ini.manager Ini.sample_world = (inr path, w1) /\
    write_setting Ini.manager "Startup" "globals" "99999" false w1 = (inr r, w2) /\
    restore_backup path w2 = (inr true, w3) /\
    cpf_file w3 = Some Ini.sample_text /\
    forall s k, fst (read_setting s k w3) = fst (read_setting s k Ini.sample_world).
Proof.
  apply (backup_restore_round_trip Ini.manager "Startup" "globals" "99999"
           Ini.sample_world Ini.sample_text); reflexivity.
Defined.

Lemma missing_file_behaviour_witness :
  let w := IniSamples.missing_world in
  fst (validate_cpf w) = inr true /\
  create_backup Ini.manager w = (inl (OSError "No such file or directory"), w) /\
  (exists w',
      write_setting Ini.manager "Startup" "globals" "20000" true w
      = (inr (false, None), w') /\
      cpf_file w' = None /\ backups w' = backups w) /\
  (forall old config,
      updated_config "Startup" "globals" "20000" None = inr (old, config) ->
      write_error config = None ->
      cpf_writable w = true ->
      exists w',
        write_setting Ini.manager "Startup" "globals" "20000" false w
        = (inr (true, None), w') /\
        cpf_file w' = Some (write config)).
Proof.
  cbv zeta.
  apply (missing_file_behaviour Ini.manager "Startup" "globals" "20000"). reflexivity.
Defined.

Lemma config_handler_all_or_nothing_witness :
  let input := Ini.config_change "Startup" "globals" "20000" in
  let w := Ini.sample_world in
  exists resp w',
    _execute_impl Ini.manager 7%N input w = (inr resp, w') /\
    ConfigStore.section resp = "Startup" /\
    ConfigStore.key resp = "globals" /\
    new_value resp = "20000" /\
    old_value resp = read_value "Startup" "globals" (cpf_file w) /\
    (success resp = false ->
     cpf_file w' = cpf_file w /\
     requires_restart_flag resp = false /\
     is_Some (error_message resp)) /\
    (success resp = true ->
     exists text old config,
       cpf_file w = Some text /\
       updated_config "Startup" "globals" "20000" (Some text) = inr (old, config) /\
       cpf_file w' = Some (write config) /\
       well_formed (Some (write config)) = true /\
       backup_path resp = Some (backup_path_of Ini.manager w) /\
       backups w' !! backup_path_of Ini.manager w = Some text /\
       (requires_restart_flag resp = true <-> restart_rule "Startup" "globals") /\
       error_message resp = None).
Proof.
  cbv zeta.
  eapply (config_handler_all_or_nothing Ini.manager 7%N
            (Ini.config_change "Startup" "globals" "20000") Ini.sample_world);
    reflexivity.
Defined.

End StoreProperties.

(* ===================================================================== *)
(** ** Further properties of the restart agent                           *)
(* ===================================================================== *)

Module WrapperFacts.
Import RestartAgent RestartSpec RestartWrapper WrapperSpec.

Lemma init_as_kwargs result :
  RestartResponse.init (as_kwargs result)
  = inl (ValidationError missing_response_fields).
Proof. destruct result as [? ? ? ? ? ? [msg|]]; reflexivity. Qed.

Lemma init_failure_kwargs mode status message :
  RestartResponse.init (failure_kwargs mode status message)
  = inl (ValidationError missing_response_fields).
Proof. reflexivity. Qed.

(** A stage function followed by the construction of the response, inside
    the [try] block of [_execute_restart]. *)
Lemma respond_after (stage : Py World RestartResult) mode str w :
  try_except
    (result ← stage; CommandReceiver.lift (RestartResponse.init (as_kwargs result)))
    (fun e => CommandReceiver.lift
                (RestartResponse.init (failure_kwargs mode "error" (str e)))) w
  = (inl (ValidationError missing_response_fields), snd (stage w)).
Proof.
  unfold try_except, mbind, Py_bind.
  destruct (stage w) as [[e|result] w1]; cbn [snd]; cbv beta iota.
  - by rewrite init_failure_kwargs.
  - rewrite init_as_kwargs. cbn [CommandReceiver.lift]. unfold raise. cbv beta iota.
    by rewrite init_failure_kwargs.
Qed.

End WrapperFacts.

(* ===================================================================== *)
(** ** The restart claim at the agent's entry point                      *)
(* ===================================================================== *)

Module RestartDefect.
Import RestartAgent RestartSpec RestartWrapper WrapperSpec WrapperFacts.

(** C8.  A forced restart command at [execute].  The forced restart is
    carried out and its result is what the stage machine promises:
    [connections_drained = 0], no drain stage in the log, [success] exactly
    when validation reported [operational].  The response is then built
    from that result, whose keys [mode] and [operational_status] are not
    the fields [restart_mode] and [instance_status] of
    [RestartAgentResponse] and which has no [validation_passed]; the
    handler of the resulting [ValidationError] builds a response from the
    same keys.  So the call raises and no response is returned, whatever
    the instance does. *)
Theorem forced_restart_returns_no_response instance str format fresh w :
  exists result entries w',
    _forced_restart instance w = (inr result, w') /\
    log w' = log w ++ entries /\
    stages_respected instance false 10 result entries /\
    connections_drained result = 0 /\
    existsb is_drain entries = false /\
    RestartResponse.init (as_kwargs result)
    = inl (ValidationError missing_response_fields) /\
    execute instance str format fresh forced_payload w
    = (inl (ValidationError missing_response_fields), w').
Proof.
  destruct (RestartClaims.forced_restart_stages instance w)
    as (result & entries & w' & Hrun & Hlog & Hstages & _ & Hdrained & Hdrain).
  exists result, entries, w'.
  do 5 (split; [done|]). split; [apply init_as_kwargs|].
  set (command := {| command_id := fresh; action_type := "restart"; target := "IRIS";
                     parameters := [("mode", JStr "forced")]; priority := "medium";
                     requester := None |}).
  assert (Hv : model_validate_json fresh forced_payload = inr command) by reflexivity.
  unfold execute, CommandReceiver.lift. rewrite Hv.
  unfold mbind at 1, Py_bind at 1, mret at 1, Py_ret at 1.
  unfold _execute_restart. cbn [parameters command].
  change (dict_get "mode" [("mode", JStr "forced")]) with (Some (JStr "forced")).
  cbv [default from_option id equals_str].
  change (String.eqb "forced" "graceful") with false.
  change (String.eqb "forced" "forced") with true. cbv iota.
  rewrite respond_after. by rewrite Hrun.
Qed.

End RestartDefect.

Module RestartProperties.
Import RestartAgent RestartSpec RestartWrapper WrapperSpec WrapperFacts.

Section Agent.
Variable instance : Instance.
Variable str : PyError -> string.
Variable format : json -> string.

(** X11.  [_execute_restart] never returns a response.  Every
    [RestartAgentResponse] it builds lacks the required fields
    [restart_mode], [instance_status] and [validation_passed], so the call
    always ends in the [ValidationError] naming these three, for every
    command and every instance.  The restart itself has been carried out
    by then: the world is the one the graceful or the forced restart
    leaves, and it is untouched only for an unknown mode. *)
Theorem execute_restart_never_returns command w :
  let mode := default (JStr "graceful") (dict_get "mode" (parameters command)) in
  let timeout_seconds :=
    default (JNum 60) (dict_get "timeout_seconds" (parameters command)) in
  _execute_restart instance str format command w
  = (inl (ValidationError missing_response_fields),
     if equals_str mode "graceful"
     then snd (graceful_restart_with instance timeout_seconds w)
     else if equals_str mode "forced" then snd (_forced_restart instance w)
          else w).
Proof.
  cbv zeta. unfold _execute_restart.
  destruct (equals_str _ "graceful"); [apply respond_after|].
  destruct (equals_str _ "forced"); [apply respond_after|].
  unfold try_except. by rewrite init_failure_kwargs.
Qed.

(** X12.  [execute] does not look at the action type.  A valid command
    that names neither [mode] nor [timeout_seconds], a configuration
    change for instance, makes the restart agent run a graceful restart
    with a timeout of 60 seconds; the call then raises the
    [ValidationError] of the response. *)
Theorem execute_restarts_for_any_action fresh input command w :
  model_validate_json fresh input = inr command ->
  dict_get "mode" (parameters command) = None ->
  dict_get "timeout_seconds" (parameters command) = None ->
  execute instance str format fresh input w
  = (inl (ValidationError missing_response_fields),
     snd (_graceful_restart instance 60 w)).
Proof.
  intros Hv Hmode Htimeout. unfold execute, CommandReceiver.lift.
  rewrite Hv. unfold mbind at 1, Py_bind at 1, mret at 1, Py_ret at 1.
  unfold _execute_restart. rewrite Hmode, Htimeout. cbn [default equals_str String.eqb].
  apply respond_after.
Qed.



(** X21.  [restart_instance] never returns either.  With a mode other
    than [graceful] and [forced] the command cannot be built: the call
    raises the [ValidationError] of the [parameters] field and nothing is
    done.  With one of the two modes the command is built, dumped and read
    back unchanged by [execute], the restart of that mode is carried out
    with the given timeout, and the call raises the [ValidationError] of
    the response. *)
Theorem restart_instance_never_returns fresh mode timeout_seconds w :
  (fresh < 2 ^ 128)%N ->
  restart_instance instance str format fresh mode timeout_seconds w
  = if string_in mode ["graceful"; "forced"]
    then (inl (ValidationError missing_response_fields),
          if String.eqb mode "graceful"
          then snd (_graceful_restart instance timeout_seconds w)
          else snd (_forced_restart instance w))
    else (inl (ValidationError (err "parameters" "value_error")), w).
Proof.
  intros Hfresh. unfold restart_instance.
  set (params := [("mode", JStr mode); ("timeout_seconds", JNum timeout_seconds)]).
  set (c := {| command_id := fresh; action_type := "restart"; target := "instance";
               parameters := params; priority := "medium"; requester := None |}).
  assert (Hbuild : model_validate_json fresh
                     (Some (JObj [("action_type", JStr "restart");
                                  ("target", JStr "instance");
                                  ("parameters", JObj params)]))
                   = if string_in mode ["graceful"; "forced"] then inr c
                     else inl (ValidationError (err "parameters" "value_error"))).
  { unfold model_validate_json, validate_parameters, validate_parameters_by_action.
    cbn. by destruct (String.eqb mode "graceful" || (String.eqb mode "forced" || false)). }
  rewrite Hbuild. clear Hbuild.
  destruct (string_in mode ["graceful"; "forced"]) eqn:Hmode; [|done].
  cbn [CommandReceiver.lift]. unfold mbind at 1, Py_bind at 1, mret at 1, Py_ret at 1.
  assert (Hshape : IntakeSpec.accepted_shape c).
  { unfold IntakeSpec.accepted_shape. cbn.
    split; [auto|]. split; [auto|]. split; [lia|].
    split; [discriminate|]. split; [discriminate|]. intros _.
    apply IntakeFacts.string_in_In_iff in Hmode. destruct Hmode as [<-|[<-|[]]]; auto. }
  unfold execute. rewrite (DumpFacts.validate_dump fresh c Hshape Hfresh).
  cbn [CommandReceiver.lift]. unfold mbind at 1, Py_bind at 1, mret at 1, Py_ret at 1.
  unfold _execute_restart. cbn [parameters c].
  change (dict_get "mode" params) with (Some (JStr mode)).
  change (dict_get "timeout_seconds" params) with (Some (JNum timeout_seconds)).
  cbv [default from_option id equals_str graceful_restart_with].
  destruct (String.eqb mode "graceful") eqn:Hg; [apply respond_after|].
  assert (Hf : String.eqb mode "forced" = true).
  { unfold string_in in Hmode. cbn [existsb] in Hmode. rewrite Hg in Hmode.
    by rewrite orb_false_l, orb_false_r in Hmode. }
  rewrite Hf. apply respond_after.
Qed.

End Agent.

Lemma restart_instance_never_returns_witness :
  restart_instance healthy sample_str sample_format 7%N "forced" 60 boot
  = if string_in "forced" ["graceful"; "forced"]
    then (inl (ValidationError missing_response_fields),
          if String.eqb "forced" "graceful"
          then snd (_graceful_restart healthy 60 boot)
          else snd (_forced_restart healthy boot))
    else (inl (ValidationError (err "parameters" "value_error")), boot).
Proof.
  apply (restart_instance_never_returns healthy sample_str sample_format 7%N "forced" 60
           boot).
  reflexivity.
Defined.

Lemma execute_restarts_for_any_action_witness :
  execute healthy sample_str sample_format 7%N config_payload boot
  = (inl (ValidationError missing_response_fields),
     snd (_graceful_restart healthy 60 boot)).
Proof.
  eapply (execute_restarts_for_any_action healthy sample_str sample_format 7%N
            config_payload); reflexivity.
Defined.



End RestartProperties.

(* ===================================================================== *)
(** ** Properties of the message sender                                  *)
(* ===================================================================== *)

Module SenderFacts.
Import MessageSender SenderSpec.

Section Sender.
Variable network : nat -> Payload -> PostOutcome.

Lemma send_message_eq error w :
  send_message network error w =
    (if answered_ok network (length (posted w)) (payload_of error)
     then (send_success (endpoint w) 200, record_post (payload_of error) w)
     else (fst (send_message network error w),
           append_to_queue error (record_post (payload_of error) w))) /\
  (answered_ok network (length (posted w)) (payload_of error) = false ->
   is_success (fst (send_message network error w)) = false).
Proof.
  unfold send_message, answered_ok.
  destruct (network (length (posted w)) (payload_of error)) as [code|msg]; [|done].
  destruct (Z.eqb_spec code 200) as [->|Hne]; done.
Qed.

Lemma delivered_elem p ps : forall k,
  p ∈ delivered network k ps -> exists j, answered_ok network j p = true.
Proof.
  induction ps as [|q ps IH]; intros k Hin; [by apply elem_of_nil in Hin|].
  cbn [delivered] in Hin. destruct (answered_ok network k q) eqn:Hok.
  - apply elem_of_cons in Hin as [->|Hin]; [by exists k|by apply (IH (S k))].
  - by apply (IH (S k)).
Qed.

(** What the loop of [retry_queued_messages] has done when it ends:
    [added] are the messages queued again on the way. *)
Lemma retry_loop_result fuel : forall i sc fc rem w sc' fc' rem' w',
  (i <= length (message_queue w))%nat ->
  retry_loop network fuel i sc fc rem w = Some (sc', fc', rem', w') ->
  exists added,
    message_queue w' = message_queue w ++ added /\
    rem' = rem ++ added /\
    fc' = (fc + length added)%nat /\
    (sc' + fc' = sc + fc + (length (message_queue w') - i))%nat /\
    (forall m, m ∈ added -> m ∈ drop i (message_queue w)) /\
    posted w' = posted w ++ (payload_of <$> drop i (message_queue w')) /\
    delivered network (length (posted w)) (payload_of <$> drop i (message_queue w'))
      ++ (payload_of <$> added)
    ≡ₚ payload_of <$> drop i (message_queue w') /\
    endpoint w' = endpoint w /\ timeout w' = timeout w.
Proof.
  induction fuel as [|fuel IH]; intros i sc fc rem w sc' fc' rem' w' Hi Hloop; [done|].
  cbn [retry_loop] in Hloop.
  destruct (message_queue w !! i) as [error|] eqn:Hget.
  2:{ injection Hloop as <- <- <- <-. exists [].
      apply lookup_ge_None in Hget.
      rewrite !app_nil_r, drop_ge by lia. cbn.
      repeat split; try done; try lia; by rewrite app_nil_r. }
  pose proof (lookup_lt_Some _ _ _ Hget) as Hlt.
  destruct (send_message_eq error w) as [Hsend Hfail]. rewrite Hsend in Hloop.
  destruct (answered_ok network (length (posted w)) (payload_of error)) eqn:Hok.
  - cbn [is_success] in Hloop.
    apply IH in Hloop as (added & Hq & Hrem & Hfc & Hcount & Hin & Hposted & Hperm & He & Ht);
      [|cbn; lia].
    cbn [message_queue record_post posted endpoint timeout] in *.
    rewrite length_app in Hperm. cbn [length] in Hperm.
    rewrite Nat.add_1_r in Hperm.
    assert (Hdrop : drop i (message_queue w') = error :: drop (S i) (message_queue w')).
    { apply drop_S. rewrite Hq. by apply lookup_app_l_Some. }
    exists added. rewrite Hdrop. cbn [fmap list_fmap delivered]. rewrite Hok.
    split; [done|]. split; [done|]. split; [done|]. split.
    { rewrite Hq, length_app in *. lia. }
    split.
    { intros m Hm. rewrite (drop_S _ _ _ Hget). right. by apply Hin. }
    split; [by rewrite Hposted, <- app_assoc|].
    split; [|done]. cbn. by rewrite Hperm.
  - rewrite (Hfail eq_refl) in Hloop.
    apply IH in Hloop as (added & Hq & Hrem & Hfc & Hcount & Hin & Hposted & Hperm & He & Ht);
      [|cbn; rewrite length_app; cbn; lia].
    cbn [message_queue append_to_queue record_post posted endpoint timeout] in *.
    rewrite length_app in Hperm. cbn [length] in Hperm.
    rewrite Nat.add_1_r in Hperm.
    assert (Hdrop : drop i (message_queue w') = error :: drop (S i) (message_queue w')).
    { apply drop_S. rewrite Hq, <- app_assoc. by apply lookup_app_l_Some. }
    exists (error :: added). rewrite Hdrop. cbn [fmap list_fmap delivered]. rewrite Hok.
    split; [by rewrite Hq, <- app_assoc|]. split; [by rewrite Hrem, <- app_assoc|].
    split; [cbn; lia|]. split.
    { rewrite Hq, !length_app in *. cbn in *. lia. }
    split.
    { intros m Hm. rewrite (drop_S _ _ _ Hget).
      apply elem_of_cons in Hm as [->|Hm]; [by left|].
      apply Hin in Hm. rewrite drop_app_le in Hm by lia.
      apply elem_of_app in Hm as [Hm|Hm]; [by right|].
      apply list_elem_of_singleton in Hm as ->. by left. }
    split; [by rewrite Hposted, <- app_assoc|].
    split; [|done]. cbn.
    rewrite <- Permutation_middle. by rewrite Hperm.
Qed.

(** With an endpoint that answers 200 from request [K] on, the loop ends,
    and it queues again at most the messages sent before request [K]. *)
Lemma retry_loop_ends K :
  (forall k p, (K <= k)%nat -> answered_ok network k p = true) ->
  forall n i sc fc rem w,
    (length (message_queue w) - i + (K - length (posted w)) <= n)%nat ->
    exists sc' fc' rem' w',
      retry_loop network (S n) i sc fc rem w = Some (sc', fc', rem', w') /\
      (fc' <= fc + (K - length (posted w)))%nat.
Proof.
  intros HK. induction n as [|n IH]; intros i sc fc rem w Hn.
  - cbn [retry_loop]. rewrite (proj2 (lookup_ge_None _ _)) by lia.
    eexists _, _, _, _. split; [done|]. lia.
  - cbn [retry_loop]. destruct (message_queue w !! i) as [error|] eqn:Hget.
    2:{ eexists _, _, _, _. split; [done|]. lia. }
    pose proof (lookup_lt_Some _ _ _ Hget) as Hlt.
    destruct (send_message_eq error w) as [Hsend Hfail]. rewrite Hsend.
    destruct (answered_ok network (length (posted w)) (payload_of error)) eqn:Hok.
    + cbn [is_success].
      destruct (IH (S i) (S sc) fc rem (record_post (payload_of error) w))
        as (sc' & fc' & rem' & w' & Hloop & Hle).
      { cbn. rewrite length_app. cbn. lia. }
      exists sc', fc', rem', w'. split; [exact Hloop|].
      cbn in Hle. rewrite length_app in Hle. cbn in Hle. lia.
    + rewrite (Hfail eq_refl).
      assert (Hbefore : (length (posted w) < K)%nat).
      { destruct (Nat.lt_ge_cases (length (posted w)) K) as [?|Hge]; [done|].
        rewrite (HK _ _ Hge) in Hok. discriminate. }
      destruct (IH (S i) sc (S fc) (rem ++ [error])
                  (append_to_queue error (record_post (payload_of error) w)))
        as (sc' & fc' & rem' & w' & Hloop & Hle).
      { cbn. rewrite !length_app. cbn. lia. }
      exists sc', fc', rem', w'. split; [exact Hloop|].
      cbn in Hle. rewrite length_app in Hle. cbn in Hle. lia.
Qed.

End Sender.

End SenderFacts.

Module SenderProperties.
Import MessageSender SenderSpec SenderFacts.

Section Sender.
Variable network : nat -> Payload -> PostOutcome.

(** X15.  What a finished retry has done.  Whenever
    [retry_queued_messages] returns on a non-empty queue, [success_count]
    is the length the queue had at the call, whatever the endpoint
    answered, and [failed_count] and [remaining_queue] are both the length
    of the new queue.  The new queue holds one entry per refused request,
    all of them messages of the old queue; and every message of the old
    queue, those left in the new queue included, has been answered with
    status 200 during the call. *)
Theorem retry_returns_after_delivering_all fuel w r w' :
  message_queue w <> [] ->
  retry_queued_messages network fuel w = Some (r, w') ->
  exists failed requests,
    r = retry_completed (length (message_queue w)) failed failed /\
    get_queue_size w' = failed /\
    (forall m, m ∈ message_queue w' -> m ∈ message_queue w) /\
    posted w' = posted w ++ requests /\
    length requests = (length (message_queue w) + failed)%nat /\
    delivered network (length (posted w)) requests
    ≡ₚ payload_of <$> message_queue w.
Proof.
  intros Hne Hretry. unfold retry_queued_messages in Hretry.
  destruct (message_queue w) as [|m0 q0] eqn:Hq; [done|]. rewrite <- Hq in *.
  destruct (retry_loop network fuel 0 0 0 [] w) as [[[[sc fc] rem] w1]|] eqn:Hloop;
    [|done].
  injection Hretry as <- <-.
  apply retry_loop_result in Hloop
    as (added & Hq1 & Hrem & Hfc & Hcount & Hin & Hposted & Hperm & _); [|lia].
  cbn [app] in Hrem. subst rem. rewrite drop_0 in *.
  cbn [message_queue set_message_queue posted].
  rewrite Hq1, length_app, Nat.sub_0_r in Hcount.
  exists (length added), (payload_of <$> message_queue w1).
  split; [f_equal; lia|]. split; [done|]. split; [done|]. split; [done|].
  split; [by rewrite length_fmap, Hq1, length_app|].
  rewrite Hq1, fmap_app in Hperm. rewrite Hq1, fmap_app.
  by apply Permutation_app_inv_r in Hperm.
Qed.

(** X16.  One message the endpoint never accepts keeps the retry from
    returning.  If the queue holds a message whose requests are never
    answered with status 200, then no number of iterations lets
    [retry_queued_messages] finish: each refusal queues the message again
    at the end of the list the loop is running over. *)
Theorem retry_never_returns_on_refused_message w m :
  m ∈ message_queue w ->
  (forall k, answered_ok network k (payload_of m) = false) ->
  forall fuel, retry_queued_messages network fuel w = None.
Proof.
  intros Hm Hrefused fuel.
  destruct (retry_queued_messages network fuel w) as [[r w']|] eqn:Hretry; [|done].
  exfalso. unfold retry_queued_messages in Hretry.
  destruct (message_queue w) as [|m0 q0] eqn:Hq; [by apply elem_of_nil in Hm|].
  rewrite <- Hq in *.
  destruct (retry_loop network fuel 0 0 0 [] w) as [[[[sc fc] rem] w1]|] eqn:Hloop;
    [|done].
  apply retry_loop_result in Hloop
    as (added & Hq1 & _ & _ & _ & _ & _ & Hperm & _); [|lia].
  rewrite drop_0, Hq1, fmap_app in Hperm.
  apply Permutation_app_inv_r in Hperm.
  assert (Hin : payload_of m ∈ payload_of <$> message_queue w)
    by (by apply list_elem_of_fmap_2).
  rewrite <- Hperm in Hin. apply delivered_elem in Hin as [j Hj].
  by rewrite Hrefused in Hj.
Qed.

(** X17.  A retry ends once the endpoint has recovered.  If every request
    from the [K]-th on is answered with status 200, [retry_queued_messages]
    returns; on a non-empty queue it reports as many successes as the queue
    was long, and it leaves at most as many messages queued as requests
    could still be refused, none when the endpoint accepts everything. *)
Theorem retry_ends_once_endpoint_accepts K w :
  (forall k p, (K <= k)%nat -> answered_ok network k p = true) ->
  exists fuel r w',
    retry_queued_messages network fuel w = Some (r, w') /\
    (message_queue w = [] -> r = no_messages /\ w' = w) /\
    (message_queue w <> [] ->
     exists failed,
       r = retry_completed (length (message_queue w)) failed failed /\
       get_queue_size w' = failed /\
       (failed <= K - length (posted w))%nat).
Proof.
  intros HK.
  destruct (retry_loop_ends network K HK
              (length (message_queue w) - 0 + (K - length (posted w))) 0 0 0 [] w)
    as (sc & fc & rem & w1 & Hloop & Hle); [lia|].
  eexists (S _). unfold retry_queued_messages.
  destruct (message_queue w) as [|m0 q0] eqn:Hq.
  { eexists _, _. split; [done|]. split; [done|]. by intros []. }
  rewrite <- Hq in *. rewrite Hloop.
  eexists _, _. split; [done|]. split; [by rewrite Hq|]. intros _.
  apply retry_loop_result in Hloop
    as (added & Hq1 & Hrem & Hfc & Hcount & _); [|lia].
  cbn [app] in Hrem. subst rem.
  rewrite Hq1, length_app, Nat.sub_0_r in Hcount.
  cbn [message_queue set_message_queue].
  exists (length added). split; [f_equal; lia|]. split; [done|]. lia.
Qed.

End Sender.

Lemma retry_returns_after_delivering_all_witness :
  let w' := set_message_queue [license_error; journal_error]
              (record_post (payload_of journal_error)
                 (record_post (payload_of license_error)
                    (record_post (payload_of journal_error)
                       (record_post (payload_of license_error) backlog)))) in
  exists failed requests,
    retry_completed 2 2 2
    = retry_completed (length (message_queue backlog)) failed failed /\
    get_queue_size w' = failed /\
    (forall m, m ∈ message_queue w' -> m ∈ message_queue backlog) /\
    posted w' = posted backlog ++ requests /\
    length requests = (length (message_queue backlog) + failed)%nat /\
    delivered flaky (length (posted backlog)) requests
    ≡ₚ payload_of <$> message_queue backlog.
Proof.
  cbv zeta.
  apply (retry_returns_after_delivering_all flaky 5 backlog).
  - discriminate.
  - reflexivity.
Defined.

Lemma retry_never_returns_on_refused_message_witness :
  retry_queued_messages refuses_license 1000 backlog = None.
Proof.
  apply (retry_never_returns_on_refused_message refuses_license backlog license_error).
  - apply list_elem_of_here.
  - intros k. reflexivity.
Defined.

Lemma retry_ends_once_endpoint_accepts_witness :
  exists fuel r w',
    retry_queued_messages flaky fuel backlog = Some (r, w') /\
    (message_queue backlog = [] -> r = no_messages /\ w' = backlog) /\
    (message_queue backlog <> [] ->
     exists failed,
       r = retry_completed (length (message_queue backlog)) failed failed /\
       get_queue_size w' = failed /\
       (failed <= 2 - length (posted backlog))%nat).
Proof.
  apply (retry_ends_once_endpoint_accepts flaky 2 backlog).
  intros k p Hk. unfold answered_ok, flaky.
  destruct (Nat.ltb_spec k 2); [lia|reflexivity].
Defined.

End SenderProperties.

(* ===================================================================== *)
(** ** A further property of the router                                  *)
(* ===================================================================== *)

Module RouterProperties.
Import Orchestrator RouterSpec IntakeSpec.

Section Router.
Variable model_dump_json : RemediationCommand -> string.

(** X18.  What the router does with each reply of the classifier.  A
    payload that does not validate makes [_execute_impl] raise the
    validation error before the classifier is asked, so no reply is used
    up.  For a valid payload one reply is used up.  A response the
    classifier returns is handed on as it is, whatever agent it names.
    When the classifier raises, the decision is that of the rule table,
    and its agent is [config], [os] or [restart], never [none].  When the
    classifier returns [None], nothing catches it: reading
    [response.agent_type] behind the [try] block raises [AttributeError],
    the rule table is not asked and no decision is returned. *)
Theorem router_decision_by_classifier_reply fresh input w :
  match model_validate_json fresh input with
  | inl e => OrchestratorAgent._execute_impl model_dump_json fresh input w = (inl e, w)
  | inr command =>
      let w' := {| OrchestratorAgent.parse_replies :=
                     tail (OrchestratorAgent.parse_replies w) |} in
      match OrchestratorAgent.parse_replies w with
      | inr (Some reply) :: _ =>
          OrchestratorAgent._execute_impl model_dump_json fresh input w = (inr reply, w')
      | inr None :: _ =>
          OrchestratorAgent._execute_impl model_dump_json fresh input w
          = (inl (AttributeError "'NoneType' object has no attribute 'agent_type'"), w')
      | _ =>
          OrchestratorAgent._execute_impl model_dump_json fresh input w
          = (inr (_route_with_rules model_dump_json command), w') /\
          In (agent_type (_route_with_rules model_dump_json command))
             ["config"; "os"; "restart"]
      end
  end.
Proof.
  destruct (model_validate_json fresh input) as [e|command] eqn:Hv.
  { unfold OrchestratorAgent._execute_impl, CommandReceiver.lift. by rewrite Hv. }
  assert (Hagent : In (agent_type (_route_with_rules model_dump_json command))
                      ["config"; "os"; "restart"]).
  { destruct (IntakeFacts.model_validate_shape fresh input command Hv) as (Ha & _).
    unfold _route_with_rules, agent_map. cbn [agent_type].
    destruct Ha as [<-|[<-|[<-|[]]]]; simpl; auto. }
  unfold OrchestratorAgent._execute_impl, CommandReceiver.lift. rewrite Hv.
  unfold mbind at 1, Py_bind at 1, mret at 1, Py_ret at 1.
  unfold try_except, OrchestratorAgent._route_with_llm, mbind, Py_bind.
  destruct w as [[|[e|[reply|]] rest]]; cbn [OrchestratorAgent.parse_replies tail];
    done.
Qed.

End Router.

End RouterProperties.

Module RouterSDKProperties.
Import Orchestrator.

Section Router.
Variable model_dump_json : RemediationCommand -> string.
Variable json_dumps : list (string * json) -> string.

(** X22.  The two routers agree on valid commands.  For a command that
    came out of validation the rule table of [OrchestratorAgentSDK] gives
    the agent type, the risk and the validation flag that the rule table of
    [OrchestratorAgent] gives (the two differ in the rationale and in the
    serialized command, and on action types validation never lets
    through).  [route_command] of the SDK router never raises: it returns
    the response of the agent run when the run produced one, and the
    decision of its rule table in every other case. *)
Theorem sdk_router_agrees_on_valid_commands fresh input command :
  model_validate_json fresh input = inr command ->
  let a := Orchestrator._route_with_rules model_dump_json command in
  let b := OrchestratorSDK._route_with_rules json_dumps command in
  agent_type a = agent_type b /\
  estimated_risk a = estimated_risk b /\
  requires_validation a = requires_validation b /\
  forall w, exists r,
    OrchestratorSDK.route_command json_dumps command w
    = (inr r, {| OrchestratorSDK.runs := tail (OrchestratorSDK.runs w) |}) /\
    match OrchestratorSDK.runs w with
    | OrchestratorSDK.final_response response :: _ => r = response
    | OrchestratorSDK.final_text (inr response) :: _ => r = response
    | _ => r = b
    end.
Proof.
  intros Hv. cbv zeta.
  destruct (IntakeFacts.model_validate_shape fresh input command Hv) as (Ha & _).
  unfold Orchestrator._route_with_rules, OrchestratorSDK._route_with_rules,
    agent_map, risk_map, OrchestratorSDK.routing_map.
  split; [|split; [|split]].
  - destruct Ha as [<-|[<-|[<-|[]]]]; reflexivity.
  - destruct Ha as [<-|[<-|[<-|[]]]]; reflexivity.
  - destruct Ha as [<-|[<-|[<-|[]]]]; reflexivity.
  - intros [[|[response|[e|response]| | |e] rest]]; by eexists.
Qed.

End Router.

Lemma sdk_router_agrees_on_valid_commands_witness :
  let command :=
    {| command_id := 113059749145936325402354257176981405698%N; action_type := "restart";
       target := "instance";
       parameters := [("mode", JStr "graceful"); ("timeout_seconds", JNum 60)];
       priority := "high"; requester := None |} in
  let a := Orchestrator._route_with_rules RouterSpec.sample_dump command in
  let b := OrchestratorSDK._route_with_rules (fun _ => "{}") command in
  agent_type a = agent_type b /\
  estimated_risk a = estimated_risk b /\
  requires_validation a = requires_validation b /\
  forall w, exists r,
    OrchestratorSDK.route_command (fun _ => "{}") command w
    = (inr r, {| OrchestratorSDK.runs := tail (OrchestratorSDK.runs w) |}) /\
    match OrchestratorSDK.runs w with
    | OrchestratorSDK.final_response response :: _ => r = response
    | OrchestratorSDK.final_text (inr response) :: _ => r = response
    | _ => r = b
    end.
Proof.
  cbv zeta.
  apply (sdk_router_agrees_on_valid_commands RouterSpec.sample_dump (fun _ => "{}") 0%N
           RouterSpec.restart_payload).
  vm_compute. reflexivity.
Defined.

End RouterSDKProperties.

(* ===================================================================== *)
(** ** A property of the operating system agent                          *)
(* ===================================================================== *)

Module OSFacts.
Import OSAgent OSSpec.

Lemma strings_of_fmap l : OSResponse.strings_of (JStr <$> l) = Some l.
Proof. induction l as [|s l IH]; [done|]. cbn. by rewrite IH. Qed.

Lemma os_init_result_dict success resource_type old_value new_value commands passed message :
  OSResponse.init
    (result_dict success resource_type old_value new_value commands passed message)
  = inl (ValidationError (response_errors (JStr resource_type))).
Proof.
  unfold OSResponse.init, result_dict, OSResponse.validate_str_list.
  change (dict_get "commands_executed" _) with (Some (JArr (JStr <$> commands))).
  cbv iota. rewrite strings_of_fmap. by destruct message.
Qed.

Lemma os_init_failure_kwargs resource_type target_value message :
  OSResponse.init (failure_kwargs resource_type target_value message)
  = inl (ValidationError (response_errors resource_type)).
Proof. by destruct resource_type. Qed.

End OSFacts.

Module OSProperties.
Import OSAgent OSSpec OSFacts.

Section Agent.
Variable host : Host.
Variable str : PyError -> string.
Variable format : json -> string.

(** X23.  The operating system agent never returns a response.  Every
    [OSAgentResponse] it builds is given [old_value] and [new_value] where
    the model requires [target_value] and [actual_value], so for every
    valid command the call ends in the [ValidationError] raised in its
    [except] block, which names these two fields (and the resource type
    when that is not a string).  The change has been attempted by then:
    with sufficient permissions and resource type [memory] the world is
    the one [_configure_memory] leaves, so a numeric target of [n]
    megabytes has made [sysctl] set the counter to [n // 2] pages unless
    running the command raised. *)
Theorem os_agent_never_returns fresh input command w :
  model_validate_json fresh input = inr command ->
  let resource_type := default JNull (dict_get "resource_type" (parameters command)) in
  let target_value := default JNull (dict_get "target_value" (parameters command)) in
  let w' := if permitted host && RestartWrapper.equals_str resource_type "memory"
            then snd (_configure_memory host target_value w) else w in
  _execute_impl host str format fresh input w
  = (inl (ValidationError (response_errors resource_type)), w') /\
  (permitted host = true ->
   resource_type = JStr "memory" ->
   forall n,
     target_value = JNum n ->
     (forall e, sysctl_outcome host (n / 2) <> sysctl_raises e) ->
     sysctl_calls w' = sysctl_calls w ++ [n / 2] /\
     nr_hugepages w' = pages_after host (n / 2) (nr_hugepages w)).
Proof.
  intros Hv. cbv zeta. split.
  - unfold _execute_impl, CommandReceiver.lift.
    rewrite Hv. unfold mbind at 1, Py_bind at 1, mret at 1, Py_ret at 1.
    unfold try_except, _check_permissions.
    unfold mbind at 1, Py_bind at 1, mret at 1, Py_ret at 1.
    fold (permitted host). destruct (permitted host); cbn [negb andb].
    2:{ rewrite os_init_failure_kwargs. unfold raise. cbv beta iota.
        by rewrite os_init_failure_kwargs. }
    destruct (RestartWrapper.equals_str _ "memory") eqn:Hmem.
    { unfold mbind at 1, Py_bind at 1.
      destruct (_configure_memory host _ w) as [[e|result] w1] eqn:Hmemory; cbn [snd].
      - by rewrite os_init_failure_kwargs.
      - assert (Hresult : exists s r o n c p m, result = result_dict s r o n c p m).
        { unfold _configure_memory, _get_huge_pages, run_sysctl, gets, raise,
            mbind, Py_bind, mret, Py_ret in Hmemory.
          repeat case_match; simplify_eq; by eexists _, _, _, _, _, _, _. }
        destruct Hresult as (s & r & o & n & c & p & m & ->).
        rewrite os_init_result_dict. unfold raise. cbv beta iota.
        by rewrite os_init_failure_kwargs. }
    destruct (RestartWrapper.equals_str _ "cpu").
    { unfold _configure_cpu. unfold mbind at 1, Py_bind at 1, mret at 1, Py_ret at 1.
      rewrite os_init_result_dict. unfold raise. cbv beta iota.
      by rewrite os_init_failure_kwargs. }
    rewrite os_init_failure_kwargs. unfold raise. cbv beta iota.
    by rewrite os_init_failure_kwargs.
  - intros -> -> n -> Hruns. cbn [andb RestartWrapper.equals_str String.eqb Ascii.eqb
      Bool.eqb].
    unfold _configure_memory, _get_huge_pages, run_sysctl, gets, raise,
      mbind, Py_bind, mret, Py_ret.
    destruct (sysctl_outcome host (n / 2)) as [rc stderr| |e] eqn:Hout.
    + by destruct (negb (rc =? 0)).
    + done.
    + by destruct (Hruns e).
Qed.

End Agent.

Lemma os_agent_never_returns_witness :
  let resource_type := JStr "memory" in
  let target_value := JNum 16384 in
  let w' := if permitted root_host && RestartWrapper.equals_str resource_type "memory"
            then snd (_configure_memory root_host target_value idle) else idle in
  _execute_impl root_host WrapperSpec.sample_str WrapperSpec.sample_format 7%N
    memory_payload idle
  = (inl (ValidationError (response_errors resource_type)), w') /\
  (permitted root_host = true ->
   resource_type = JStr "memory" ->
   forall n,
     target_value = JNum n ->
     (forall e, sysctl_outcome root_host (n / 2) <> sysctl_raises e) ->
     sysctl_calls w' = sysctl_calls idle ++ [n / 2] /\
     nr_hugepages w' = pages_after root_host (n / 2) (nr_hugepages idle)).
Proof.
  cbv zeta.
  apply (os_agent_never_returns root_host WrapperSpec.sample_str WrapperSpec.sample_format
           7%N memory_payload
           {| command_id := 113059749145936325402354257176981405697%N;
              action_type := "os_reconfig"; target := "hugepages";
              parameters := [("resource_type", JStr "memory");
                             ("target_value", JNum 16384)];
              priority := "medium"; requester := None |}).
  vm_compute. reflexivity.
Defined.

End OSProperties.

(* ===================================================================== *)
(** ** Properties of the settings and of the execution context           *)
(* ===================================================================== *)

Module SettingsProperties.
Import Settings.

Section Config.
Context {float : Type} {Environ : Type}.
Variable Config_init : Environ -> PyError + @Config float.

(** X24.  An invalid configuration is reported once only.  [validate]
    finds nothing wrong exactly when the API key is not empty and the
    budgets satisfy [0 < per_workflow <= per_session <= per_day].  On the
    first call of [get_config] a configuration that loads is stored in the
    global before it is validated: if it is invalid the call raises
    [ValueError], but every later call returns that same invalid
    configuration without any error, whatever the environment has become;
    if it is valid the first call returns it and it stays cached
    likewise. *)
Theorem invalid_config_is_reported_once w config :
  _config w = None ->
  Config_init (environ w) = inr config ->
  (validate config = [] <->
   api_key (openai config) <> EmptyString /\
   0 < per_workflow (token_budget config) /\
   per_workflow (token_budget config) <= per_session (token_budget config) /\
   per_session (token_budget config) <= per_day (token_budget config)) /\
  exists result,
    get_config Config_init w = (result, {| environ := environ w; _config := Some config |}) /\
    (validate config = [] -> result = inr config) /\
    (validate config <> [] -> exists message, result = inl (ValueError message)) /\
    forall env,
      get_config Config_init {| environ := env; _config := Some config |}
      = (inr config, {| environ := env; _config := Some config |}).
Proof.
  intros Hnone Hload. split.
  - unfold validate.
    destruct (String.eqb_spec (api_key (openai config)) EmptyString) as [Hk|Hk];
      destruct (Z.leb_spec (per_workflow (token_budget config)) 0);
      destruct (Z.ltb_spec (per_session (token_budget config))
                  (per_workflow (token_budget config)));
      destruct (Z.ltb_spec (per_day (token_budget config))
                  (per_session (token_budget config)));
      cbn; split; try discriminate; try (intros (? & ? & ? & ?); done || lia);
      intros _; repeat split; try done; lia.
  - unfold get_config. rewrite Hnone, Hload.
    destruct (validate config) as [|first rest] eqn:Hvalid.
    + eexists. split; [done|]. split; [done|]. split; [done|]. done.
    + eexists. split; [done|]. split; [done|]. split; [by eexists|]. done.
Qed.

End Config.

Lemma invalid_config_is_reported_once_witness :
  let w := {| environ := tt; _config := None |} in
  let config := SettingsSpec.unordered in
  (validate config = [] <->
   api_key (openai config) <> EmptyString /\
   0 < per_workflow (token_budget config) /\
   per_workflow (token_budget config) <= per_session (token_budget config) /\
   per_session (token_budget config) <= per_day (token_budget config)) /\
  exists result,
    get_config (fun _ : unit => inr config) w
    = (result, {| environ := environ w; _config := Some config |}) /\
    (validate config = [] -> result = inr config) /\
    (validate config <> [] -> exists message, result = inl (ValueError message)) /\
    forall env,
      get_config (fun _ : unit => inr config) {| environ := env; _config := Some config |}
      = (inr config, {| environ := env; _config := Some config |}).
Proof.
  cbv zeta.
  apply (invalid_config_is_reported_once (fun _ : unit => inr SettingsSpec.unordered)
           {| environ := tt; _config := None |} SettingsSpec.unordered);
    reflexivity.
Defined.

End SettingsProperties.

Module ContextFacts.
Import Context ContextSpec.

Lemma list_remove_elem x l id :
  NoDup l -> (id ∈ list_remove x l <-> id <> x /\ id ∈ l).
Proof.
  induction 1 as [|y l Hy Hnd IH]; cbn [list_remove].
  - split; [intros Hin; by apply elem_of_nil in Hin|intros [_ Hin]; done].
  - destruct (N.eqb_spec y x) as [->|Hne].
    + rewrite elem_of_cons. split.
      * intros Hin. split; [|by right]. by intros ->.
      * intros [Hid [->|Hin]]; done.
    + rewrite !elem_of_cons, IH. split.
      * intros [->|[? ?]]; [split; [done|by left]|split; [done|by right]].
      * intros [Hid [->|Hin]]; [by left|by right].
Qed.

Lemma list_remove_NoDup x l : NoDup l -> NoDup (list_remove x l).
Proof.
  induction 1 as [|y l Hy Hnd IH]; cbn [list_remove]; [constructor|].
  destruct (N.eqb_spec y x); [done|].
  constructor; [|done]. rewrite list_remove_elem by done. by intros [_ ?].
Qed.

Lemma call_pending c self id :
  NoDup (pending_commands self) ->
  NoDup (pending_commands (call c self)) /\
  bool_decide (id ∈ pending_commands (call c self))
  = match c with
    | add x => if N.eqb x id then true else bool_decide (id ∈ pending_commands self)
    | remove x => if N.eqb x id then false else bool_decide (id ∈ pending_commands self)
    end.
Proof.
  intros Hnd. destruct c as [x|x]; cbn [call].
  - unfold add_pending_command.
    destruct (bool_decide_reflect (x ∈ pending_commands self)) as [Hin|Hout].
    + split; [done|]. destruct (N.eqb_spec x id) as [->|Hne]; [|done].
      by apply bool_decide_eq_true.
    + cbn [pending_commands set_pending_commands]. split.
      * apply NoDup_app. split; [done|]. split; [|apply NoDup_singleton].
        intros y Hy Hy'. apply list_elem_of_singleton in Hy' as ->. done.
      * destruct (N.eqb_spec x id) as [->|Hne].
        -- apply bool_decide_eq_true. apply elem_of_app. right. by left.
        -- apply bool_decide_ext. rewrite elem_of_app, list_elem_of_singleton.
           split; [intros [?|?]; done|by left].
  - unfold remove_pending_command.
    destruct (bool_decide_reflect (x ∈ pending_commands self)) as [Hin|Hout].
    + cbn [pending_commands set_pending_commands].
      split; [by apply list_remove_NoDup|].
      destruct (N.eqb_spec x id) as [->|Hne].
      * apply bool_decide_eq_false. rewrite list_remove_elem by done. by intros [? _].
      * apply bool_decide_ext. rewrite list_remove_elem by done.
        split; [by intros [_ ?]|]. intros Hid. split; [|done]. by intros ->.
    + split; [done|]. destruct (N.eqb_spec x id) as [->|Hne]; [|done].
      by apply bool_decide_eq_false.
Qed.

End ContextFacts.

Module ContextProperties.
Import Context ContextSpec ContextFacts.

(** X25.  The pending list is a set.  Starting from a context whose
    pending list holds no id twice (a new context has an empty one), any
    sequence of [add_pending_command] and [remove_pending_command] calls
    leaves a list without repetitions, in which an id is pending exactly
    when the last call naming it was an [add], or when no call named it
    and it was pending before. *)
Theorem pending_commands_form_a_set calls : forall self,
  NoDup (pending_commands self) ->
  NoDup (pending_commands (run calls self)) /\
  forall id,
    bool_decide (id ∈ pending_commands (run calls self))
    = pending_after id calls (bool_decide (id ∈ pending_commands self)).
Proof.
  induction calls as [|c calls IH]; intros self Hnd; [done|].
  cbn [run pending_after fold_left].
  destruct (IH (call c self)) as [Hnd' Hmem].
  { by apply (call_pending c self 0%N). }
  split; [exact Hnd'|]. intros id.
  unfold run in Hmem. rewrite Hmem. unfold pending_after. f_equal.
  by apply call_pending.
Qed.

Lemma pending_commands_form_a_set_witness :
  let calls := [add 1%N; add 2%N; add 1%N; remove 1%N; remove 3%N] in
  NoDup (pending_commands (run calls fresh_context)) /\
  forall id,
    bool_decide (id ∈ pending_commands (run calls fresh_context))
    = pending_after id calls (bool_decide (id ∈ pending_commands fresh_context)).
Proof.
  cbv zeta. apply pending_commands_form_a_set. constructor.
Defined.

End ContextProperties.

(* ===================================================================== *)
(** ** Properties of the language model client                           *)
(* ===================================================================== *)

Module LLMFacts.
Import LLMClient LLMSpec.

Lemma triangle k : 0 <= k -> 2 * (k * (k + 1) / 2) = k * (k + 1).
Proof.
  intros Hk. destruct (Z.Even_or_Odd k) as [[m ->]|[m ->]].
  - replace (2 * m * (2 * m + 1)) with (m * (2 * m + 1) * 2) by lia.
    rewrite Z.div_mul by lia. lia.
  - replace ((2 * m + 1) * (2 * m + 1 + 1)) with ((2 * m + 1) * (m + 1) * 2) by lia.
    rewrite Z.div_mul by lia. lia.
Qed.

Section Parse.
Context {T : Type}.
Variable self : Client.

(** A run of failed attempts, none of them the last one allowed. *)
Lemma attempts_after_failures model operation (errors : list PyError) :
  forall remaining attempt (w : World T) rest,
    api_replies w = (inl <$> errors) ++ rest ->
    0 <= attempt ->
    attempt + Z.of_nat (length errors) < max_retries self ->
    0 <= retry_delay self ->
    exists seconds,
      2 * seconds
      = retry_delay self * Z.of_nat (length errors)
        * (2 * attempt + Z.of_nat (length errors) + 1) /\
      attempts self model operation (length errors + remaining) attempt w
      = attempts self model operation remaining (attempt + Z.of_nat (length errors))
          {| api_replies := rest;
             api_calls := api_calls w ++ replicate (length errors) model;
             slept := slept w + seconds;
             tracked := tracked w |}.
Proof.
  induction errors as [|e errors IH]; intros remaining attempt w rest Hreplies Ha Hlast Hd.
  - exists 0. split; [cbn; lia|]. cbn [length Nat.add replicate].
    rewrite Z.add_0_r, app_nil_r. cbn in Hreplies. destruct w as [replies calls s t].
    cbn in *. subst. by rewrite Z.add_0_r.
  - cbn [length Nat.add attempts]. cbn [length] in Hlast.
    unfold try_except, completions_parse.
    unfold mbind at 1, Py_bind at 1. rewrite Hreplies. cbn [fmap list_fmap app].
    destruct (Z.eqb_spec attempt (max_retries self - 1)) as [Heq|_]; [lia|].
    unfold time_sleep. destruct (Z.ltb_spec (retry_delay self * (attempt + 1)) 0); [nia|].
    unfold mbind at 1, Py_bind at 1, modify. cbn [api_replies api_calls slept tracked].
    edestruct (IH remaining (attempt + 1)) as (seconds & Hsum & ->);
      [reflexivity|lia|lia|done|].
    cbn [api_replies api_calls slept tracked].
    exists (retry_delay self * (attempt + 1) + seconds). split; [lia|].
    f_equal; [lia|]. f_equal; [|lia].
    rewrite <- app_assoc. f_equal.
Qed.

End Parse.

End LLMFacts.

Module LLMProperties.
Import LLMClient LLMSpec LLMFacts.

Section Parse.
Context {T : Type}.
Variable self : Client.



End Parse.



End LLMProperties.
